(** * Web Console: task execution and session engine

    A shallow embedding of the Go program Web Console (package main), in
    its revision with rate limiting, run-time history and progress
    reports: the command-line tokenizer, the Task configuration reader,
    the token map and its sweeper, the request handler's authorisation
    and API dispatch, and the background task runner.

    Go values are modelled as follows.
    - [string] is a Go string, a sequence of bytes ([ascii]).
    - [int64] and [int] (64 bits) are [Z]; the results of the program's
      arithmetic go through [Int64.wrap64].
    - the package-level maps are [gmap string _]; reading an absent key
      yields the zero value ([intAt], [linesAt], [stringAt]).
    - the file system is a [gmap string file] from path to file.
    - a handler produces the sequence of calls it made on the response
      writer, and either returns or panics.
    - what the program reads from outside (the clock, the random token,
      the behaviour of a spawned process) is an argument of the function
      that reads it.
    - a request handler, a run of [runTask] and a turn of the token
      sweeper are functions on the state: each is taken as one step, and
      the interleaving of goroutines inside a step is not modelled. *)

From Stdlib Require Import ZArith Ascii DecimalString.
From stdpp Require Import gmap strings list fin_maps sorting.
From Equations Require Import Equations.

Local Open Scope Z_scope.

(** ** Machine integers *)

Module Int64.

Definition modulus : Z := 2 ^ 64.
Definition min_int : Z := - 2 ^ 63.
Definition max_int : Z := 2 ^ 63 - 1.

(** Two's complement wrap-around of an [int64] result. *)
Definition wrap64 (z : Z) : Z := (z + 2 ^ 63) mod modulus - 2 ^ 63.

Definition in_range (z : Z) : Prop := min_int <= z <= max_int.

Definition add (a b : Z) : Z := wrap64 (a + b).
Definition sub (a b : Z) : Z := wrap64 (a - b).
(** Go's [/] on integers truncates toward zero; the divisor is non-zero
    wherever the program divides. *)
Definition quot (a b : Z) : Z := wrap64 (Z.quot a b).

End Int64.

(** ** The [strings] and [strconv] functions the program calls *)

Module GoStrings.

Definition byte (c : ascii) : N := N_of_ascii c.

(** The ASCII white space of [strings.TrimSpace]'s fast path. *)
Definition asciiSpace (c : ascii) : bool :=
  match byte c with
  | 9 | 10 | 11 | 12 | 13 | 32 => true
  | _ => false
  end%N.

(** [isSpaceRune s]: [s] is exactly the UTF-8 encoding of one rune for
    which [unicode.IsSpace] holds: the six ASCII ones, U+0085, U+00A0,
    U+1680, U+2000..U+200A, U+2028, U+2029, U+202F, U+205F, U+3000. *)
Definition isSpaceRune (s : string) : bool :=
  match s with
  | String a "" => asciiSpace a
  | String a (String b "") =>
      (byte a =? 0xC2)%N && ((byte b =? 0x85)%N || (byte b =? 0xA0)%N)
  | String a (String b (String c "")) =>
      ((byte a =? 0xE1)%N && (byte b =? 0x9A)%N && (byte c =? 0x80)%N)
      || ((byte a =? 0xE2)%N && (byte b =? 0x80)%N
          && (((0x80 <=? byte c)%N && (byte c <=? 0x8A)%N)
              || (byte c =? 0xA8)%N || (byte c =? 0xA9)%N || (byte c =? 0xAF)%N))
      || ((byte a =? 0xE2)%N && (byte b =? 0x81)%N && (byte c =? 0x9F)%N)
      || ((byte a =? 0xE3)%N && (byte b =? 0x80)%N && (byte c =? 0x80)%N)
  | _ => false
  end.

Global Arguments isSpaceRune : simpl never.

(** [strings.TrimLeftFunc s unicode.IsSpace]. *)
Fixpoint TrimLeftSpace (s : string) : string :=
  match s with
  | "" => ""
  | String c1 r1 =>
      if isSpaceRune (String c1 "") then TrimLeftSpace r1
      else match r1 with
           | "" => s
           | String c2 r2 =>
               if isSpaceRune (String c1 (String c2 "")) then TrimLeftSpace r2
               else match r2 with
                    | "" => s
                    | String c3 r3 =>
                        if isSpaceRune (String c1 (String c2 (String c3 "")))
                        then TrimLeftSpace r3
                        else s
                    end
           end
  end.

(** [strings.TrimRightFunc s unicode.IsSpace]: the last rune is decoded
    from the end, so a trailing white-space rune is a suffix of [s]. *)
Fixpoint TrimRightSpace (s : string) : string :=
  match s with
  | "" => ""
  | String c r =>
      let r' := TrimRightSpace r in
      if isSpaceRune (String c r') then "" else String c r'
  end.

(** [strings.TrimSpace]. *)
Definition TrimSpace (s : string) : string := TrimRightSpace (TrimLeftSpace s).

(** [strings.HasPrefix]. *)
Fixpoint HasPrefix (s prefix : string) {struct prefix} : bool :=
  match prefix, s with
  | "", _ => true
  | String p prefix', String c s' => Ascii.eqb c p && HasPrefix s' prefix'
  | String _ _, "" => false
  end.

(** [s[1:]] on a non-empty string. *)
Definition tail (s : string) : string :=
  match s with "" => "" | String _ r => r end.

(** [strings.SplitN s sep n] for a one-byte separator and [n >= 0]. *)
Fixpoint SplitN (s : string) (sep : ascii) (n : nat) {struct s} : list string :=
  match n with
  | O => []
  | S O => [s]
  | S n' =>
      match s with
      | "" => [""]
      | String c r =>
          if Ascii.eqb c sep then "" :: SplitN r sep n'
          else match SplitN r sep n with
               | h :: t => String c h :: t
               | [] => [String c ""]
               end
      end
  end.

(** [strings.Split s sep] for a one-byte separator. *)
Fixpoint Split (s : string) (sep : ascii) : list string :=
  match s with
  | "" => [""]
  | String c r =>
      if Ascii.eqb c sep then "" :: Split r sep
      else match Split r sep with
           | h :: t => String c h :: t
           | [] => [String c ""]
           end
  end.

(** [strconv.FormatInt z 10], also what the verb [%d] prints. *)
Definition FormatInt (z : Z) : string := NilZero.string_of_int (Z.to_int z).

Definition digit (c : ascii) : option Z :=
  let n := byte c in
  if ((48 <=? n) && (n <=? 57))%N then Some (Z.of_N n - 48) else None.

(** What [strconv.ParseUint] makes of a run of bytes, read from the left:
    its value, a syntax error at the first byte that is not a digit, or
    a range error as soon as the value leaves [uint64]. *)
Inductive scanned : Type :=
| Value (n : Z)
| SyntaxError
| RangeError.

Definition maxUint64 : Z := 2 ^ 64 - 1.

Fixpoint scanDigits (n : Z) (s : string) : scanned :=
  match s with
  | "" => Value n
  | String c r =>
      match digit c with
      | None => SyntaxError
      | Some d =>
          if maxUint64 / 10 + 1 <=? n then RangeError
          else if maxUint64 <? 10 * n + d then RangeError
          else scanDigits (10 * n + d) r
      end
  end.

(** [strconv.Atoi] on a 64-bit platform: the value and whether [err] is
    [nil]. A syntax error yields 0, a range error the nearest bound. *)
Definition Atoi (s : string) : Z * bool :=
  let '(neg, body) :=
    match s with
    | String "-" r => (true, r)
    | String "+" r => (false, r)
    | _ => (false, s)
    end in
  match body with
  | "" => (0, false)
  | _ =>
      match scanDigits 0 body with
      | SyntaxError => (0, false)
      | RangeError => (if neg then Int64.min_int else Int64.max_int, false)
      | Value un =>
          if negb neg && (2 ^ 63 <=? un) then (Int64.max_int, false)
          else if neg && (2 ^ 63 <? un) then (Int64.min_int, false)
          else (if neg then - un else un, true)
      end
  end.

End GoStrings.

Import GoStrings.

(** Bytes that cannot be written inside a string literal. *)
Definition quote : ascii := Eval cbv in ascii_of_N 34.
Definition LF : ascii := Eval cbv in ascii_of_N 10.
Definition CR : ascii := Eval cbv in ascii_of_N 13.
Definition newline : string := String LF "".

(** Reading a Go map at a key: the zero value when the key is absent. *)
Definition intAt (m : gmap string Z) (k : string) : Z := default 0 (m !! k).
Definition linesAt {A} (m : gmap string (list A)) (k : string) : list A :=
  default [] (m !! k).
Definition stringAt (m : gmap string string) (k : string) : string :=
  default "" (m !! k).

(** A function either returns a value or panics (a run-time error such as
    an index out of range). *)
Inductive outcome (A : Type) : Type :=
| Returned (a : A)
| Panicked (msg : string).
Arguments Returned {A} a.
Arguments Panicked {A} msg.

(** ** Session tokens *)

Definition tokenTimeout : Z := 600.
Definition tokenCheckPeriod : Z := 60.

(** ** parseCommandString *)

(** One turn of the loop of [parseCommandString]: the field appended to
    [result] and the new value of [theString]. *)
Definition parseStep (theString : string) : string * string :=
  let theString := TrimSpace theString in
  let stringSplit :=
    if HasPrefix theString (String quote "")
    then SplitN (tail theString) quote 2
    else SplitN theString " " 2 in
  match stringSplit with
  | first :: second :: _ => (first, second)
  | first :: [] => (first, "")
  | [] => ("", "") (* [SplitN] with [n = 2] returns one element at least *)
  end.

Lemma TrimRightSpace_length s :
  (String.length (TrimRightSpace s) <= String.length s)%nat.
Proof.
  induction s as [|c r IH]; simpl; [lia|].
  destruct (isSpaceRune _); simpl; lia.
Qed.

Lemma TrimLeftSpace_eq s :
  TrimLeftSpace s =
  match s with
  | "" => ""
  | String c1 r1 =>
      if isSpaceRune (String c1 "") then TrimLeftSpace r1
      else match r1 with
           | "" => s
           | String c2 r2 =>
               if isSpaceRune (String c1 (String c2 "")) then TrimLeftSpace r2
               else match r2 with
                    | "" => s
                    | String c3 r3 =>
                        if isSpaceRune (String c1 (String c2 (String c3 "")))
                        then TrimLeftSpace r3
                        else s
                    end
           end
  end.
Proof. by destruct s. Qed.

Lemma TrimLeftSpace_length s :
  (String.length (TrimLeftSpace s) <= String.length s)%nat.
Proof.
  remember (String.length s) as n eqn:Hn.
  assert (Hle : (String.length s <= n)%nat) by lia. clear Hn.
  revert s Hle. induction n as [|n IH]; intros s Hle.
  - destruct s; cbn [String.length] in *; [simpl|]; lia.
  - assert (Hrec : forall r, (String.length r <= n)%nat ->
                             (String.length (TrimLeftSpace r) <= S n)%nat).
    { intros r Hr. specialize (IH r Hr). lia. }
    rewrite TrimLeftSpace_eq.
    destruct s as [|c1 r1]; cbn [String.length] in *; [lia|].
    destruct (isSpaceRune (String c1 "")); [apply Hrec; lia|].
    destruct r1 as [|c2 r2]; cbn [String.length] in *; [lia|].
    destruct (isSpaceRune (String c1 (String c2 ""))); [apply Hrec; lia|].
    destruct r2 as [|c3 r3]; cbn [String.length] in *; [lia|].
    destruct (isSpaceRune _); [apply Hrec; lia|].
    cbn [String.length]; lia.
Qed.

Lemma TrimSpace_length s : (String.length (TrimSpace s) <= String.length s)%nat.
Proof.
  unfold TrimSpace. etransitivity; [apply TrimRightSpace_length|].
  apply TrimLeftSpace_length.
Qed.

Lemma SplitN_2_cases s sep :
  SplitN s sep 2 = [s]
  \/ exists a b, SplitN s sep 2 = [a; b] /\ (String.length b < String.length s)%nat.
Proof.
  induction s as [|c r IH]; simpl; [by left|].
  destruct (Ascii.eqb c sep).
  - right. exists "", r. split; [by destruct r|lia].
  - destruct IH as [->|(a & b & -> & Hlen)]; [by left|].
    right. exists (String c a), b. split; [done|lia].
Qed.

Lemma parseStep_shrinks c r :
  (String.length (parseStep (String c r)).2 < String.length (String c r))%nat.
Proof.
  unfold parseStep.
  pose proof (TrimSpace_length (String c r)) as Htrim.
  set (t := TrimSpace (String c r)) in *. cbn [String.length] in Htrim |- *.
  destruct (HasPrefix t (String quote "")).
  - destruct (SplitN_2_cases (tail t) quote) as [->|(a & b & -> & Hlen)];
      cbn [snd String.length]; [lia|].
    destruct t; cbn [tail String.length] in *; lia.
  - destruct (SplitN_2_cases t " ") as [->|(a & b & -> & Hlen)];
      cbn [snd String.length]; lia.
Qed.

(** The loop [for theString != ""] of [parseCommandString]. *)
Equations? parseLoop (theString : string) (result : list string) : list string
  by wf (String.length theString) lt :=
  parseLoop "" result := result;
  parseLoop (String c r) result :=
    parseLoop (parseStep (String c r)).2 (result ++ [(parseStep (String c r)).1]).
Proof. apply parseStep_shrinks. Qed.

Definition parseCommandString (theString : string) : list string :=
  parseLoop theString [].

(** ** Task configuration files *)

(** A file on disk: its bytes, or one that exists and cannot be opened. *)
Inductive file : Type :=
| Readable (content : string)
| Unreadable.

(** [bufio.MaxScanTokenSize]: a line of this many bytes or more stops a
    [bufio.Scanner] with [ErrTooLong]. *)
Definition MaxScanTokenSize : N := 65536.

(** A final '\r' of a line is dropped by [bufio.ScanLines]. *)
Fixpoint dropCR (s : string) : string :=
  match s with
  | "" => ""
  | String c "" => if Ascii.eqb c CR then "" else s
  | String c r => String c (dropCR r)
  end.

(** The pieces between line feeds; what follows the last line feed is a
    line only when it is not empty. *)
Definition rawLines (content : string) : list string :=
  let pieces := Split content LF in
  match last pieces with
  | Some "" => removelast pieces
  | _ => pieces
  end.

(** The lines before the first one that is too long for the scanner. *)
Fixpoint scannable (lines : list string) : list string :=
  match lines with
  | [] => []
  | l :: rest =>
      if (N.of_nat (String.length l) <? MaxScanTokenSize)%N
      then l :: scannable rest
      else []
  end.

(** The successive values of [scanner.Text()] over a file's contents. *)
Definition scanLines (content : string) : list string :=
  dropCR <$> scannable (rawLines content).

(** The defaults [getTaskDetails] starts from. *)
Definition defaultDetails (theTaskID : string) : gmap string string :=
  <["command" := ""]> (<["progress" := "N"]> (<["ratelimit" := "0"]>
  (<["public" := "N"]> (<["secret" := ""]> (<["description" := ""]>
  (<["title" := ""]> (<["taskID" := theTaskID]> ∅))))))).

(** The loop [for scanner.Scan()] of [getTaskDetails]: [itemSplit[1]] is
    read whatever the length of [itemSplit]. *)
Fixpoint readConfig (lines : list string) (taskDetails : gmap string string)
  : outcome (gmap string string) :=
  match lines with
  | [] => Returned taskDetails
  | text :: rest =>
      match SplitN text ":" 2 with
      | key :: value :: _ =>
          readConfig rest (<[TrimSpace key := TrimSpace value]> taskDetails)
      | _ => Panicked "index out of range [1] with length 1"
      end
  end.

Definition configPath (theTaskID : string) : string :=
  "tasks/" +:+ theTaskID +:+ "/config.txt".

(** [getTaskDetails]: the details and the error ([None] for [nil]). *)
Definition getTaskDetails (fs : gmap string file) (theTaskID : string)
  : outcome (gmap string string * option string) :=
  match fs !! configPath theTaskID with
  | None => Returned (∅, Some "Invalid taskID")
  | Some Unreadable => Returned (∅, Some "Can't open Task config file.")
  | Some (Readable content) =>
      match readConfig (scanLines content) (defaultDetails theTaskID) with
      | Returned taskDetails => Returned (taskDetails, None)
      | Panicked msg => Panicked msg
      end
  end.

(** ** Program state *)

(** An [exec.Cmd] as [exec.Command] and the handler fill it in. *)
Record Cmd : Type := mkCmd {
  Path : string;
  Args : list string;
  Dir : string;
}.

(** The package-level variables, and the files the program reads and
    writes. [taskRuntimeGuesses] holds the integer each [float64] guess
    was converted from. *)
Record state : Type := mkState {
  tokens : gmap string Z;
  runningTasks : gmap string Cmd;
  taskOutputs : gmap string (list string);
  taskStartTimes : gmap string Z;
  taskRunTimes : gmap string (list Z);
  taskRuntimeGuesses : gmap string Z;
  taskStopTimes : gmap string Z;
  files : gmap string file;
}.

Definition set_tokens (f : gmap string Z -> gmap string Z) (s : state) : state :=
  mkState (f (tokens s)) (runningTasks s) (taskOutputs s) (taskStartTimes s)
          (taskRunTimes s) (taskRuntimeGuesses s) (taskStopTimes s) (files s).
Definition set_runningTasks (f : gmap string Cmd -> gmap string Cmd) (s : state) : state :=
  mkState (tokens s) (f (runningTasks s)) (taskOutputs s) (taskStartTimes s)
          (taskRunTimes s) (taskRuntimeGuesses s) (taskStopTimes s) (files s).
Definition set_taskOutputs
  (f : gmap string (list string) -> gmap string (list string)) (s : state) : state :=
  mkState (tokens s) (runningTasks s) (f (taskOutputs s)) (taskStartTimes s)
          (taskRunTimes s) (taskRuntimeGuesses s) (taskStopTimes s) (files s).
Definition set_taskStartTimes (f : gmap string Z -> gmap string Z) (s : state) : state :=
  mkState (tokens s) (runningTasks s) (taskOutputs s) (f (taskStartTimes s))
          (taskRunTimes s) (taskRuntimeGuesses s) (taskStopTimes s) (files s).
Definition set_taskRunTimes
  (f : gmap string (list Z) -> gmap string (list Z)) (s : state) : state :=
  mkState (tokens s) (runningTasks s) (taskOutputs s) (taskStartTimes s)
          (f (taskRunTimes s)) (taskRuntimeGuesses s) (taskStopTimes s) (files s).
Definition set_taskRuntimeGuesses (f : gmap string Z -> gmap string Z) (s : state) : state :=
  mkState (tokens s) (runningTasks s) (taskOutputs s) (taskStartTimes s)
          (taskRunTimes s) (f (taskRuntimeGuesses s)) (taskStopTimes s) (files s).
Definition set_taskStopTimes (f : gmap string Z -> gmap string Z) (s : state) : state :=
  mkState (tokens s) (runningTasks s) (taskOutputs s) (taskStartTimes s)
          (taskRunTimes s) (taskRuntimeGuesses s) (f (taskStopTimes s)) (files s).
Definition set_files (f : gmap string file -> gmap string file) (s : state) : state :=
  mkState (tokens s) (runningTasks s) (taskOutputs s) (taskStartTimes s)
          (taskRunTimes s) (taskRuntimeGuesses s) (taskStopTimes s) (f (files s)).

Create HintDb state discriminated.
#[global] Hint Unfold set_tokens set_runningTasks set_taskOutputs set_taskStartTimes
  set_taskRunTimes set_taskRuntimeGuesses set_taskStopTimes set_files : state.

Definition initial (fs : gmap string file) : state :=
  mkState ∅ ∅ ∅ ∅ ∅ ∅ ∅ fs.

(** [taskIsRunning]. *)
Definition taskIsRunning (theTaskID : string) (s : state) : bool :=
  match runningTasks s !! theTaskID with
  | Some _ => true
  | None => false
  end.

(** ** clearExpiredTokens *)

(** One pass of the inner loop: every token whose timestamp is below
    [currentTimestamp - tokenTimeout] is deleted. *)
Definition sweepTokens (currentTimestamp : Z) (toks : gmap string Z) : gmap string Z :=
  filter (fun kv => ~ (Int64.sub currentTimestamp tokenTimeout > kv.2)) toks.

(** The first [n] turns of the endless loop of [clearExpiredTokens], the
    first one reading the clock at [clock]; [time.Sleep] moves the clock
    on by [tokenCheckPeriod] seconds. *)
Fixpoint clearExpiredTokens (n : nat) (clock : Z) (s : state) : state :=
  match n with
  | O => s
  | S n' =>
      clearExpiredTokens n' (clock + tokenCheckPeriod)
        (set_tokens (sweepTokens clock) s)
  end.

(** ** Run-time history *)

(** The slice expression [s[lo:hi]]. *)
Definition slice {A} (lo hi : nat) (s : list A) : list A := take (hi - lo) (drop lo s).

(** [sort.Slice] with the less function [<] on [int64]. *)
Definition sortSlice (l : list Z) : list Z := merge_sort Z.le l.

(** The loop [for len(taskRunTimes[theTaskID]) >= 10]. *)
Equations? trimRunTimes (l : list Z) : list Z by wf (length l) lt :=
  trimRunTimes l with decide (10 <= length l)%nat := {
    | left _ => trimRunTimes (slice 1 (length l - 2) l)
    | right _ => l }.
Proof. unfold slice. rewrite length_take, length_drop. lia. Qed.

(** The run-time guess of a start: the mean of the recent run times, 10
    when there is none. *)
Definition totalRunTime (l : list Z) : Z := foldl Int64.add 0 l.

Definition runtimeGuess (l : list Z) : Z :=
  if decide (length l = 0%nat) then 10
  else Int64.quot (totalRunTime l) (Z.of_nat (length l)).

(** The contents written to [runTimes.txt]. *)
Fixpoint formatRunTimes (l : list Z) : string :=
  match l with
  | [] => ""
  | [x] => FormatInt x
  | x :: rest => FormatInt x +:+ newline +:+ formatRunTimes rest
  end.

(** The run times read back from [runTimes.txt]: the lines [strconv.Atoi]
    accepts. *)
Definition parseRunTimes (content : string) : list Z :=
  omap (fun l => let '(v, ok) := Atoi l in if ok then Some v else None)
       (Split content LF).

(** ** The request handler and the task runner *)

Definition runTimesPath (taskID : string) : string :=
  "tasks/" +:+ taskID +:+ "/runTimes.txt".

(** The run-time error of [commandArray[0]] on an empty slice. *)
Definition indexOutOfRange0 : string := "index out of range [0] with length 0".

(** The text of the rate-limit refusal. *)
Definition rateLimitFormat : string :=
  "ERROR: Rate limit (%d seconds) exceeded - try again in %d seconds.".

(** What a handler does with the response writer. *)
Inductive fmtArg : Type :=
| IntArg (z : Z)
| StrArg (s : string).

Inductive write : Type :=
| Fprintf (format : string) (args : list fmtArg)
| Fprintln (line : string)
| ServeContent (page taskID token : string)
| ServeFile (name : string).

(** The form values and the URL path of a request. *)
Record request : Type := mkRequest {
  URLPath : string;
  taskIDValue : string;
  tokenValue : string;
  secretValue : string;
  lineValue : string;
}.

(** What a handler reads from outside the program: the clock at
    [currentTimestamp], the clock at the later [time.Now()] calls, and
    the result of [generateRandomString]. *)
Record environment : Type := mkEnvironment {
  currentTimestamp : Z;
  laterTimestamp : Z;
  randomString : string;
}.

(** The state a handler leaves, what it wrote, the Task whose [runTask]
    goroutine it started, and the panic that ended it, if any. *)
Record reply : Type := mkReply {
  after : state;
  written : list write;
  started : option string;
  panic : option string;
}.

Inductive authorisation : Type :=
| Authorised
| NotAuthorised (authorisationError : string).

(** How a spawned process behaves: whether [StdoutPipe] and [Start]
    succeed, the chunks the successful reads of its standard output
    return before the first failing read, the clock when that read
    fails, and whether [runTimes.txt] could be written. *)
Inductive spawnResult : Type :=
| StdoutPipeError
| StartError
| Started.

Record execution : Type := mkExecution {
  spawn : spawnResult;
  reads : list string;
  stopTimestamp : Z;
  historySaved : bool;
}.

(** ** The list of Tasks *)

(** [ioutil.ReadDir]: the names in a folder, or [None] for an error. The
    file system holds a folder as the text of the names in it, one per
    line, in the order [ReadDir] returns them; a folder that is missing
    or cannot be read gives the error. *)
Definition ReadDir (fs : gmap string file) (dirname : string) : option (list string) :=
  match fs !! dirname with
  | Some (Readable names) => Some (filter (fun name => name <> "") (Split names LF))
  | _ => None
  end.

(** The loop of [getTaskList] over the names [ioutil.ReadDir] returned. *)
Fixpoint loadTasks (fs : gmap string file) (taskIDs : list string)
    (taskList : list (gmap string string))
  : outcome (list (gmap string string) * option string) :=
  match taskIDs with
  | [] => Returned (taskList, None)
  | taskID :: rest =>
      match getTaskDetails fs taskID with
      | Panicked msg => Panicked msg
      | Returned (taskDetails, None) => loadTasks fs rest (taskList ++ [taskDetails])
      | Returned (_, Some taskErr) => Returned (taskList, Some taskErr)
      end
  end.

(** [getTaskList]; [readDir] is what [ioutil.ReadDir("tasks")] returns:
    the names in the folder, or [None] for an error. *)
Definition getTaskList (fs : gmap string file) (readDir : option (list string))
  : outcome (list (gmap string string) * option string) :=
  match readDir with
  | Some taskIDs => loadTasks fs taskIDs []
  | None => Returned ([], Some "Can't read Tasks folder.")
  end.

(** The slice expression [s[:high]]. *)
Definition sliceTo (s : string) (high : Z) : outcome string :=
  if decide (0 <= high <= Z.of_nat (String.length s))
  then Returned (String.substring 0 (Z.to_nat high) s)
  else Panicked "slice bounds out of range".

(** The loop of the [/api/getPublicTaskList] call over the Task list. *)
Definition publicTaskListString (taskList : list (gmap string string)) : string :=
  foldl (fun taskListString task =>
           if decide (stringAt task "public" = "Y")
           then ((((taskListString +:+ String quote "") +:+ stringAt task "taskID")
                  +:+ String quote (String ":" (String quote "")))
                 +:+ stringAt task "title") +:+ String quote ","
           else taskListString)
        "{" taskList.

(** The [/api/getPublicTaskList] branch of the handler. *)
Definition apiGetPublicTaskList (fs : gmap string file) (readDir : option (list string))
  : outcome (list write) :=
  match getTaskList fs readDir with
  | Panicked msg => Panicked msg
  | Returned (taskList, None) =>
      let taskListString := publicTaskListString taskList in
      if decide (taskListString = "{") then Returned [Fprintf "{}" []]
      else
        match sliceTo taskListString (Z.of_nat (String.length taskListString) - 1) with
        | Returned s => Returned [Fprintf (s +:+ "}") []]
        | Panicked msg => Panicked msg
        end
  | Returned (_, Some taskErr) => Returned [Fprintf ("ERROR: " +:+ taskErr) []]
  end.

(** [bcrypt.CompareHashAndPassword] rejects a hash shorter than this many
    bytes with [ErrHashTooShort]. *)
Definition minHashSize : nat := 59.

Section Program.

(** The rest of [bcrypt.CompareHashAndPassword], for a hash that is long
    enough: whether the password matches the hash. *)
Variable bcryptMatches : string -> string -> bool.

(** [int((float64(elapsed) / guess) * 100)] in [float64] arithmetic, as a
    function of the elapsed seconds and of the integer the guess was
    converted from. *)
Variable floatPercentage : Z -> Z -> Z.

(** Whether [bcrypt.CompareHashAndPassword] returns [nil]. *)
Definition CompareHashAndPassword (hashedPassword password : string) : bool :=
  if (String.length hashedPassword <? minHashSize)%nat then false
  else bcryptMatches hashedPassword password.

(** [checkPasswordHash]. *)
Definition checkPasswordHash (thePassword theHash : string) : bool :=
  if decide (thePassword = "" /\ theHash = "") then true
  else CompareHashAndPassword theHash thePassword.

(** The authorisation block of the handler. *)
Definition authorise (toks : gmap string Z) (token secret : string)
    (taskDetails : gmap string string) : authorisation :=
  if decide (token <> "") then
    if decide (intAt toks token = 0)
    then NotAuthorised "invalid or expired token"
    else Authorised
  else if checkPasswordHash secret (stringAt taskDetails "secret") then Authorised
  else NotAuthorised "incorrect secret".

(** [/api/runTask]. *)
Definition apiRunTask (env : environment) (taskID : string)
    (taskDetails : gmap string string) (rateLimit : Z) (s : state) : reply :=
  if taskIsRunning taskID s then mkReply s [Fprintf "OK" []] None None
  else
    let sinceStop :=
      Int64.sub (currentTimestamp env) (intAt (taskStopTimes s) taskID) in
    if decide (sinceStop < rateLimit) then
      mkReply s
        [Fprintf rateLimitFormat
           [IntArg rateLimit; IntArg (Int64.sub rateLimit sinceStop)]]
        None None
    else
      let commandArray := parseCommandString (stringAt taskDetails "command") in
      let commandArgs :=
        if (0 <? length commandArray)%nat then drop 1 commandArray else [] in
      match commandArray !! 0%nat with
      | None => mkReply s [] None (Some indexOutOfRange0)
      | Some name =>
          let s := set_runningTasks
                     (<[taskID := mkCmd name (name :: commandArgs) ("tasks/" +:+ taskID)]>) s in
          let s := set_taskRunTimes (<[taskID := []]>) s in
          let s :=
            match files s !! runTimesPath taskID with
            | Some (Readable content) =>
                set_taskRunTimes (<[taskID := parseRunTimes content]>) s
            | _ => s
            end in
          let s := set_taskRuntimeGuesses
                     (<[taskID := runtimeGuess (linesAt (taskRunTimes s) taskID)]>) s in
          let s := set_taskStartTimes (<[taskID := laterTimestamp env]>) s in
          mkReply s [Fprintf "OK" []] (Some taskID) None
      end.

(** The line [fmt.Sprintf("Progress: Progress %d%%", percentage)]. *)
Definition progressLine (percentage : Z) : string :=
  "Progress: Progress " +:+ FormatInt percentage +:+ "%".

Definition percentageAt (env : environment) (taskID : string) (s : state) : Z :=
  let percentage :=
    floatPercentage
      (Int64.sub (laterTimestamp env) (intAt (taskStartTimes s) taskID))
      (intAt (taskRuntimeGuesses s) taskID) in
  if decide (percentage > 100) then 100 else percentage.

(** [/api/getTaskOutput]. *)
Definition apiGetTaskOutput (env : environment) (taskID line : string)
    (taskDetails : gmap string string) (s : state) : reply :=
  let '(outputLineNumber, unparsable) :=
    if decide (line <> "") then
      let '(v, ok) := Atoi line in
      (v, if ok then [] else [Fprintf "ERROR: Line number not parsable." []])
    else (0, []) in
  let s :=
    if decide (stringAt taskDetails "progress" = "Y") then
      set_taskOutputs
        (<[taskID := linesAt (taskOutputs s) taskID
                       ++ [progressLine (percentageAt env taskID s)]]>) s
    else s in
  let output := linesAt (taskOutputs s) taskID in
  if decide (outputLineNumber < Z.of_nat (length output) /\ outputLineNumber < 0) then
    mkReply s unparsable None (Some "index out of range")
  else
    let lines := Fprintln <$> drop (Z.to_nat outputLineNumber) output in
    let finished :=
      if taskIsRunning taskID s then []
      else (if decide (stringAt taskDetails "progress" = "Y")
            then [Fprintf ("Progress: Progress 100%%" +:+ newline) []] else [])
           ++ [Fprintf "ERROR: EOF" []] in
    mkReply s (unparsable ++ lines ++ finished) None None.

(** The rate limit of a Task: [strconv.Atoi] of its [ratelimit] entry,
    0 when that fails. *)
Definition rateLimitOf (taskDetails : gmap string string) : Z :=
  let '(v, ok) := Atoi (stringAt taskDetails "ratelimit") in
  if ok then v else 0.

(** The token an authorised request goes on with. *)
Definition sessionToken (env : environment) (token : string) : string :=
  if decide (token = "") then randomString env else token.

(** The branches of the handler for an authorised request. *)
Definition dispatch (env : environment) (req : request) (token : string)
    (taskDetails : gmap string string) (rateLimit : Z) (s : state) : reply :=
  let path := URLPath req in
  let taskID := taskIDValue req in
  if HasPrefix path "/view" || HasPrefix path "/run" then
    match files s !! "www/webconsole.html" with
    | Some (Readable page) => mkReply s [ServeContent page taskID token] None None
    | _ => mkReply s [] None None
    end
  else if HasPrefix path "/api/getToken" then
    mkReply s [Fprintf token []] None None
  else if HasPrefix path "/api/getTaskDetails" then
    mkReply s [Fprintf (stringAt taskDetails "title" +:+ newline
                        +:+ stringAt taskDetails "description") []] None None
  else if HasPrefix path "/api/runTask" then
    apiRunTask env taskID taskDetails rateLimit s
  else if HasPrefix path "/api/getTaskOutput" then
    apiGetTaskOutput env taskID (lineValue req) taskDetails s
  else if HasPrefix path "/api/getTaskRunning" then
    mkReply s [Fprintf (if taskIsRunning taskID s then "YES" else "NO") []] None None
  else if HasPrefix path "/api/keepAlive" then
    mkReply s [Fprintf "OK" []] None None
  else if HasPrefix path "/api/" then
    mkReply s [Fprintf "ERROR: Unknown API call: %s" [StrArg path]] None None
  else mkReply s [] None None.

(** The branch of the handler for a view, run or API request: a URL path
    under [/view], [/run] or [/api/]. *)
Definition taskRequest (env : environment) (req : request) (s : state) : reply :=
  let taskID := taskIDValue req in
  let token := tokenValue req in
  if decide (taskID = "") then
    mkReply s [Fprintf "ERROR: Missing parameter taskID." []] None None
  else
    match getTaskDetails (files s) taskID with
    | Panicked msg => mkReply s [] None (Some msg)
    | Returned (_, Some taskErr) =>
        mkReply s [Fprintf "ERROR: %s" [StrArg taskErr]] None None
    | Returned (taskDetails, None) =>
        let rateLimit := rateLimitOf taskDetails in
        match authorise (tokens s) token (secretValue req) taskDetails with
        | NotAuthorised authorisationError =>
            mkReply s [Fprintf "ERROR: Not authorised - %s." [StrArg authorisationError]]
                    None None
        | Authorised =>
            let token := sessionToken env token in
            let s := set_tokens (<[token := currentTimestamp env]>) s in
            dispatch env req token taskDetails rateLimit s
        end
    end.

(** The URL paths that reach that branch: not the root, not the public
    Task list, and under [/view], [/run] or [/api/]. *)
Definition taskPath (path : string) : bool :=
  negb (bool_decide (path = "/"))
  && negb (HasPrefix path "/api/getPublicTaskList")
  && (HasPrefix path "/view" || HasPrefix path "/run" || HasPrefix path "/api/").

(** The handler: the root page, the public Task list, a view, run or API
    request, or a static file. *)
Definition handler (env : environment) (req : request) (s : state) : reply :=
  let path := URLPath req in
  if decide (path = "/") then mkReply s [ServeFile "www/index.html"] None None
  else if HasPrefix path "/api/getPublicTaskList" then
    match apiGetPublicTaskList (files s) (ReadDir (files s) "tasks") with
    | Returned response => mkReply s response None None
    | Panicked msg => mkReply s [] None (Some msg)
    end
  else if HasPrefix path "/view" || HasPrefix path "/run" || HasPrefix path "/api/" then
    taskRequest env req s
  else mkReply s [ServeFile ("www" +:+ path)] None None.

(** The lines of one chunk read from the process that are kept. *)
Definition captureOutput (chunk : string) (output : list string) : list string :=
  output ++ filter (fun l => TrimSpace l <> "") (Split chunk LF).

(** The end of [runTask], once a read has failed. *)
Definition finishTask (theTaskID : string) (e : execution) (s : state) : state :=
  let s := set_taskStopTimes (<[theTaskID := stopTimestamp e]>) s in
  let runTime :=
    Int64.sub (intAt (taskStopTimes s) theTaskID) (intAt (taskStartTimes s) theTaskID) in
  let history :=
    trimRunTimes (sortSlice (linesAt (taskRunTimes s) theTaskID ++ [runTime])) in
  let s := set_taskRunTimes (<[theTaskID := history]>) s in
  let s :=
    if historySaved e
    then set_files (<[runTimesPath theTaskID := Readable (formatRunTimes history)]>) s
    else s in
  set_runningTasks (delete theTaskID) s.

(** [runTask], run to its end with no other goroutine taking a turn in
    between; its steps, one at a time, are [runTaskStep] below. *)
Definition runTask (theTaskID : string) (e : execution) (s : state) : outcome state :=
  let s := set_taskOutputs (<[theTaskID := []]>) s in
  match runningTasks s !! theTaskID with
  | None => Panicked "nil pointer dereference"
  | Some _ =>
      match spawn e with
      | StdoutPipeError | StartError => Returned s
      | Started =>
          let s :=
            foldl (fun s chunk =>
                     set_taskOutputs
                       (<[theTaskID :=
                            captureOutput chunk (linesAt (taskOutputs s) theTaskID)]>) s)
                  s (reads e) in
          Returned (finishTask theTaskID e s)
      end
  end.

End Program.

(** ** Command lines, as the specification words them *)

(** A field of a command line: a bare word, or a sequence wrapped in
    double quotes. *)
Inductive field : Type :=
| Bare (w : string)
| Quoted (q : string).

(** How a field is written on the command line, and the value it stands
    for (the quotes stripped). *)
Definition fieldText (f : field) : string :=
  match f with
  | Bare w => w
  | Quoted q => String quote q +:+ String quote ""
  end.

Definition fieldValue (f : field) : string :=
  match f with
  | Bare w => w
  | Quoted q => q
  end.

(** [n] space characters (U+0020). *)
Fixpoint spaces (n : nat) : string :=
  match n with
  | O => ""
  | S n' => String " " (spaces n')
  end.

(** A printable ASCII byte other than the space. *)
Definition graphic (c : ascii) : bool := ((33 <=? byte c) && (byte c <=? 126))%N.

Fixpoint hasByte (b : ascii) (s : string) : bool :=
  match s with
  | "" => false
  | String c r => Ascii.eqb c b || hasByte b r
  end.

Fixpoint lastByte (s : string) : option ascii :=
  match s with
  | "" => None
  | String c "" => Some c
  | String _ r => lastByte r
  end.

(** A bare word is not empty, holds no space character, begins with a
    printable byte that is not a double quote and ends with a printable
    byte; a quoted sequence holds no double quote. Any other byte, a
    backslash or a tab included, may occur in either. *)
Definition wellFormed (f : field) : bool :=
  match f with
  | Bare w =>
      match w with
      | "" => false
      | String c _ =>
          graphic c && negb (Ascii.eqb c quote) && negb (hasByte " " w)
          && match lastByte w with Some l => graphic l | None => false end
      end
  | Quoted q => negb (hasByte quote q)
  end.

(** The fields after the first, each behind one space and [n] more. *)
Fixpoint moreFields (rest : list (nat * field)) : string :=
  match rest with
  | [] => ""
  | (n, f) :: rest' => spaces (S n) +:+ fieldText f +:+ moreFields rest'
  end.

(** A command line: [lead] spaces, a first field, the other fields, and
    [trail] spaces. *)
Definition commandLine (lead : nat) (f : field) (rest : list (nat * field))
    (trail : nat) : string :=
  spaces lead +:+ fieldText f +:+ moreFields rest +:+ spaces trail.

(** The tokenization as the specification states it: fields are separated
    by white space, a sequence wrapped in double quotes is one field. *)
Inductive scanning : Type :=
| Between
| InBare (acc : string)
| InQuoted (acc : string).

Fixpoint whitespaceFields (st : scanning) (s : string) : list string :=
  match s with
  | "" =>
      match st with
      | Between => []
      | InBare acc | InQuoted acc => [acc]
      end
  | String c r =>
      match st with
      | Between =>
          if asciiSpace c then whitespaceFields Between r
          else if Ascii.eqb c quote then whitespaceFields (InQuoted "") r
          else whitespaceFields (InBare (String c "")) r
      | InBare acc =>
          if asciiSpace c then acc :: whitespaceFields Between r
          else whitespaceFields (InBare (acc +:+ String c "")) r
      | InQuoted acc =>
          if Ascii.eqb c quote then acc :: whitespaceFields Between r
          else whitespaceFields (InQuoted (acc +:+ String c "")) r
      end
  end.

(** ** History trimming, as the specification words it *)

(** While the length is at least 10, remove the element of smallest
    index. *)
Equations? trimOldest (l : list Z) : list Z by wf (length l) lt :=
  trimOldest l with decide (10 <= length l)%nat := {
    | left _ => trimOldest (drop 1 l)
    | right _ => l }.
Proof. rewrite length_drop. lia. Qed.

(** ** Vocabulary of the statements *)

Definition TAB : ascii := Eval cbv in ascii_of_N 9.

(** A string that begins, or ends, with a printable byte. *)
Definition startsGraphic (x : string) : Prop :=
  exists c t, x = String c t /\ graphic c = true.

Definition endsGraphic (x : string) : Prop :=
  exists t c, x = t +:+ String c "" /\ graphic c = true.

(** The sum of a list of integers. *)
Definition sumOf (l : list Z) : Z := foldr Z.add 0 l.

(** The run times a start finds in [runTimes.txt]. *)
Definition loadedRunTimes (fs : gmap string file) (taskID : string) : list Z :=
  match fs !! runTimesPath taskID with
  | Some (Readable content) => parseRunTimes content
  | _ => []
  end.

(** A request is an authorised call of [/api/runTask] for a Task that
    is not running. *)
Definition startCall (bcryptMatches : string -> string -> bool)
    (env : environment) (req : request) (s : state)
    (taskDetails : gmap string string) : Prop :=
  taskIDValue req <> ""
  /\ getTaskDetails (files s) (taskIDValue req) = Returned (taskDetails, None)
  /\ authorise bcryptMatches (tokens s) (tokenValue req) (secretValue req) taskDetails
     = Authorised
  /\ HasPrefix (URLPath req) "/api/runTask" = true
  /\ taskIsRunning (taskIDValue req) s = false.

(** The details [getTaskDetails] reads for a Task, when it returns them. *)
Definition detailsOf (fs : gmap string file) (taskID : string) : gmap string string :=
  match getTaskDetails fs taskID with
  | Returned (taskDetails, None) => taskDetails
  | _ => ∅
  end.

(** ** The Tasks and requests of the examples *)

(** A Task's directory holding its [config.txt] only. *)
Definition taskFiles (taskID config : string) : gmap string file :=
  {[ configPath taskID := Readable config ]}.

Definition runTaskRequest (taskID : string) : request :=
  mkRequest "/api/runTask" taskID "" "" "".

Definition pollRequest (taskID token line : string) : request :=
  mkRequest "/api/getTaskOutput" taskID token "" line.

(** A comparison of hashes that accepts nothing, one that accepts every
    hash of a valid length, and a percentage in exact arithmetic. *)
Definition noMatch (hashedPassword password : string) : bool := false.
Definition anyMatch (hashedPassword password : string) : bool := true.
Definition wholePercentage (elapsed guess : Z) : Z := elapsed * 100 / guess.

(** A config file with a line that holds no colon. *)
Definition brokenConfig : gmap string file :=
  taskFiles "backup"
    ("title: Nightly backup" +:+ newline +:+ "runs at midnight"
     +:+ newline +:+ "command: backup.sh").

(** A Task limited to one run per 30 seconds, and the state in which it
    last stopped at [t]. *)
Definition limitedFiles : gmap string file :=
  taskFiles "job" ("ratelimit: 30" +:+ newline +:+ "command: echo hi").

Definition stoppedAt (t : Z) (fs : gmap string file) : state :=
  set_taskStopTimes (<["job" := t]>) (initial fs).

(** A Task whose program does not exist, and one with no command. *)
Definition missingProgram : gmap string file :=
  taskFiles "job" "command: no-such-program --flag".

Definition noCommand : gmap string file :=
  taskFiles "job" "title: No command".

(** The Task [job] with progress reports, running since 1000, with
    [hello] captured so far. *)
Definition progressFiles : gmap string file :=
  taskFiles "job" ("progress: Y" +:+ newline +:+ "command: sleep 60").

Definition runningJob : state :=
  mkState ∅ {[ "job" := mkCmd "sleep" ["sleep"; "60"] "tasks/job" ]}
          {[ "job" := ["hello"] ]} {[ "job" := 1000 ]} {[ "job" := [] ]}
          {[ "job" := 10 ]} ∅ progressFiles.

(** The Task [job], started at 1000, with nine run times on record. *)
Definition nineRuns : state :=
  mkState ∅ {[ "job" := mkCmd "sleep" ["sleep"; "9"] "tasks/job" ]} ∅
          {[ "job" := 1000 ]} {[ "job" := [1; 2; 3; 4; 5; 6; 7; 8; 9] ]}
          {[ "job" := 5 ]} ∅ ∅.

(** The Task [abc123] of the scenario: no secret, command [echo hello]. *)
Definition echoFiles : gmap string file :=
  taskFiles "abc123" "command: echo hello".

(** ** Further parts of the program *)

(** Whether [getTaskDetails] returns the details of a Task without error. *)
Definition readsDetails (fs : gmap string file) (taskID : string) : bool :=
  match getTaskDetails fs taskID with
  | Returned (_, None) => true
  | _ => false
  end.

(** The state [s'] has the files and the stop times of [s], every token
    of [s] (at some timestamp) and every running Task of [s]. *)
Definition keeps (s s' : state) : Prop :=
  files s' = files s
  /\ taskStopTimes s' = taskStopTimes s
  /\ (forall token, is_Some (tokens s !! token) -> is_Some (tokens s' !! token))
  /\ (forall taskID cmd, runningTasks s !! taskID = Some cmd ->
        runningTasks s' !! taskID = Some cmd).

(** What happens to the program: a request is handled, the sweeper takes
    a turn, or the [runTask] goroutine of a Task runs to its end. *)
Inductive event : Type :=
| Request (env : environment) (req : request)
| SweeperTurn (clock : Z)
| Run (theTaskID : string) (e : execution).

Section Events.

Variable bcryptMatches : string -> string -> bool.
Variable floatPercentage : Z -> Z -> Z.

(** The state after an event; [None] when a goroutine panics, which ends
    the program. *)
Definition step (s : state) (ev : event) : option state :=
  match ev with
  | Request env req => Some (after (handler bcryptMatches floatPercentage env req s))
  | SweeperTurn clock => Some (set_tokens (sweepTokens clock) s)
  | Run theTaskID e =>
      match runTask theTaskID e s with
      | Returned s' => Some s'
      | Panicked _ => None
      end
  end.

Fixpoint steps (s : state) (evs : list event) : option state :=
  match evs with
  | [] => Some s
  | ev :: rest =>
      match step s ev with
      | Some s' => steps s' rest
      | None => None
      end
  end.

End Events.

(** The cursor of a poll: [strconv.Atoi] of the [line] value, 0 when the
    value is empty, and whether it could be parsed. *)
Definition cursorOf (line : string) : Z * bool :=
  if decide (line <> "") then Atoi line else (0, true).

(** The lines of a chunk that [runTask] keeps, and the lines it keeps of
    a sequence of chunks. *)
Definition keptLines (chunk : string) : list string :=
  filter (fun l => TrimSpace l <> "") (Split chunk LF).

Definition capturedLines (chunks : list string) : list string :=
  flat_map keptLines chunks.

(** ** The goroutines, turn by turn *)

(** A step of a [runTask] goroutine: the Task's buffer is emptied and
    the process spawned; a line read from the process is appended to the
    buffer; the run is closed, once a read has failed. Between two steps
    the handlers, the sweeper and the other goroutines may take turns.
    The closing step reads and writes only what no handler writes while
    the Task is in the running set. *)
Inductive goroutineStep : Type :=
| Spawns (result : spawnResult)
| Appends (line : string)
| Finishes (stopTimestamp : Z) (historySaved : bool).

(** The steps of the run [e], in order. *)
Definition goroutine (e : execution) : list goroutineStep :=
  Spawns (spawn e)
  :: match spawn e with
     | Started =>
         (Appends <$> capturedLines (reads e))
         ++ [Finishes (stopTimestamp e) (historySaved e)]
     | StdoutPipeError | StartError => []
     end.

(** One step of [runTask]. *)
Definition runTaskStep (theTaskID : string) (st : goroutineStep) (s : state)
  : outcome state :=
  match st with
  | Spawns _ =>
      let s := set_taskOutputs (<[theTaskID := []]>) s in
      match runningTasks s !! theTaskID with
      | None => Panicked "nil pointer dereference"
      | Some _ => Returned s
      end
  | Appends line =>
      Returned
        (set_taskOutputs
           (<[theTaskID := linesAt (taskOutputs s) theTaskID ++ [line]]>) s)
  | Finishes stopTimestamp historySaved =>
      Returned
        (finishTask theTaskID (mkExecution Started [] stopTimestamp historySaved) s)
  end.

(** Who moves next: a handler answers a request, the sweeper takes a
    turn of its loop, or the goroutine of a Task takes a step. *)
Inductive turn : Type :=
| Handles (env : environment) (req : request)
| Sweeps (clock : Z)
| Runs (theTaskID : string) (st : goroutineStep).

Section Turns.

Variable bcryptMatches : string -> string -> bool.
Variable floatPercentage : Z -> Z -> Z.

(** The state after a turn; [None] when a goroutine panics, which ends
    the program (a panic of a handler is recovered by the server). *)
Definition advance (s : state) (t : turn) : option state :=
  match t with
  | Handles env req => Some (after (handler bcryptMatches floatPercentage env req s))
  | Sweeps clock => Some (set_tokens (sweepTokens clock) s)
  | Runs theTaskID st =>
      match runTaskStep theTaskID st s with
      | Returned s' => Some s'
      | Panicked _ => None
      end
  end.

Fixpoint run (s : state) (turns : list turn) : option state :=
  match turns with
  | [] => Some s
  | t :: rest =>
      match advance s t with
      | Some s' => run s' rest
      | None => None
      end
  end.

End Turns.

(** The steps the goroutine of a Task takes in a sequence of turns. *)
Definition ownSteps (theTaskID : string) (turns : list turn) : list goroutineStep :=
  omap (fun t =>
          match t with
          | Runs taskID st => if decide (taskID = theTaskID) then Some st else None
          | _ => None
          end) turns.

(** The clocks the sweeper reads in a sequence of turns, and the clocks
    of its first [n] turns when it starts at [clock] and [time.Sleep]
    moves the clock on by [tokenCheckPeriod] seconds. *)
Definition sweepClocks (turns : list turn) : list Z :=
  omap (fun t => match t with Sweeps clock => Some clock | _ => None end) turns.

Definition sweeperClocks (n : nat) (clock : Z) : list Z :=
  (fun k => clock + tokenCheckPeriod * Z.of_nat k) <$> seq 0 n.

(** The lines a poll appends: a progress line, for some percentage. *)
Definition isProgress (line : string) : Prop :=
  exists percentage, line = progressLine percentage.

(** A turn in which [token] is neither used nor issued: any turn but a
    request that carries it, or that carries none while
    [generateRandomString] returns it. *)
Definition leavesToken (token : string) (t : turn) : Prop :=
  match t with
  | Handles env req => sessionToken env (tokenValue req) <> token
  | _ => True
  end.

#[local] Instance leavesToken_dec token t : Decision (leavesToken token t).
Proof. destruct t; apply _. Defined.

(** The value of a decimal numeral read from the left, after [acc]. *)
Fixpoint numeralValue (acc : Z) (d : Decimal.uint) : Z :=
  match d with
  | Decimal.Nil => acc
  | Decimal.D0 l => numeralValue (10 * acc) l
  | Decimal.D1 l => numeralValue (10 * acc + 1) l
  | Decimal.D2 l => numeralValue (10 * acc + 2) l
  | Decimal.D3 l => numeralValue (10 * acc + 3) l
  | Decimal.D4 l => numeralValue (10 * acc + 4) l
  | Decimal.D5 l => numeralValue (10 * acc + 5) l
  | Decimal.D6 l => numeralValue (10 * acc + 6) l
  | Decimal.D7 l => numeralValue (10 * acc + 7) l
  | Decimal.D8 l => numeralValue (10 * acc + 8) l
  | Decimal.D9 l => numeralValue (10 * acc + 9) l
  end.

(** The part of a string before its first byte [sep] (the whole string
    when there is none) and the part after it. *)
Fixpoint beforeFirst (sep : ascii) (s : string) : string :=
  match s with
  | "" => ""
  | String c r => if Ascii.eqb c sep then "" else String c (beforeFirst sep r)
  end.

Fixpoint afterFirst (sep : ascii) (s : string) : string :=
  match s with
  | "" => ""
  | String c r => if Ascii.eqb c sep then r else afterFirst sep r
  end.

(** The entry a config line stands for: what is before its first colon
    and what is after it, both trimmed. *)
Definition entryOf (text : string) : string * string :=
  (TrimSpace (beforeFirst ":" text), TrimSpace (afterFirst ":" text)).

(** A JSON object member: the Task's ID and its title, both in quotes. *)
Definition jsonMember (task : gmap string string) : string :=
  String quote "" +:+ stringAt task "taskID" +:+ String quote ""
  +:+ ":" +:+ String quote "" +:+ stringAt task "title" +:+ String quote "".

(** The strings of a list with a comma between each two of them. *)
Fixpoint joinComma (l : list string) : string :=
  match l with
  | [] => ""
  | [x] => x
  | x :: rest => x +:+ "," +:+ joinComma rest
  end.

Definition isPublic (task : gmap string string) : Prop := stringAt task "public" = "Y".

#[local] Instance isPublic_dec task : Decision (isPublic task).
Proof. unfold isPublic. apply _. Defined.

(** The members the loop has added, each followed by a comma. *)
Fixpoint members (taskList : list (gmap string string)) : string :=
  match taskList with
  | [] => ""
  | task :: rest => jsonMember task +:+ "," +:+ members rest
  end.

(** [getUserInput]; [line] is what [inputReader.ReadString] returns: the
    bytes typed up to and including the first line feed, or what was left
    of the input when it ends before one. *)
Definition getUserInput (defaultValue line : string) : string :=
  let result := TrimSpace line in
  if decide (result = "") then defaultValue else result.

(** The text the [-new] option writes to the new Task's [config.txt].
    [hashPassword] stands for [bcrypt.GenerateFromPassword] at cost 14:
    the hash, or [None] for an error. *)
Definition newTaskConfig (hashPassword : string -> option string)
    (newTaskTitle newTaskSecret newTaskPublic newTaskCommand : string) : string :=
  let outputString := "" in
  let outputString :=
    if decide (newTaskSecret <> "") then
      match hashPassword newTaskSecret with
      | Some hashedPassword => ((outputString +:+ "secret: ") +:+ hashedPassword) +:+ newline
      | None => outputString
      end
    else outputString in
  (((((outputString +:+ "title: ") +:+ newTaskTitle) +:+ String LF "public: ")
    +:+ newTaskPublic) +:+ String LF "command: ") +:+ newTaskCommand.

(** An answer of [getUserInput]: no line feed in it, and trimming leaves
    it as it is. *)
Definition answered (v : string) : Prop := hasByte LF v = false /\ TrimSpace v = v.

(** The secret line of the config: the hash, when a secret was typed and
    hashed. *)
Definition storedSecret (hashPassword : string -> option string)
    (newTaskSecret : string) : string :=
  if decide (newTaskSecret <> "") then default "" (hashPassword newTaskSecret) else "".

(** The lines of the config. *)
Definition configLines (hashPassword : string -> option string)
    (newTaskTitle newTaskSecret newTaskPublic newTaskCommand : string) : list string :=
  (if decide (newTaskSecret <> "") then
     match hashPassword newTaskSecret with
     | Some hashedPassword => ["secret" +:+ ": " +:+ hashedPassword]
     | None => []
     end
   else [])
  ++ ["title" +:+ ": " +:+ newTaskTitle; "public" +:+ ": " +:+ newTaskPublic;
      "command" +:+ ": " +:+ newTaskCommand].

(** What [main] does once the command line is read. *)
Inductive action : Type :=
| StartServer
| ListTasks
| NewTask
| NoAction.

(** The defaults [main] sets before it reads the command line. *)
Definition defaultArguments (osArgs : list string) : gmap string string :=
  let arguments := <["port" := "8090"]> ∅ in
  let arguments := <["localOnly" := "true"]> arguments in
  let arguments := <["start" := "true"]> arguments in
  if decide (length osArgs <> 1%nat) then <["start" := "false"]> arguments
  else arguments.

(** The loop of [main] over [os.Args]. *)
Fixpoint parseArguments (osArgs : list string) (currentArgKey : string)
    (arguments : gmap string string) : gmap string string :=
  match osArgs with
  | [] => arguments
  | argVal :: rest =>
      if HasPrefix argVal "--" then parseArguments rest argVal arguments
      else
        parseArguments rest ""
          (if decide (currentArgKey <> "")
           then <[tail (tail currentArgKey) := argVal]> arguments
           else arguments)
  end.

(** [main] up to the choice of what to do. [loadConfig] stands for the
    reading of the Excel or CSV file named by the [config] argument: the
    arguments after it, or a panic. *)
Definition mainAction
    (loadConfig : string -> gmap string string -> outcome (gmap string string))
    (osArgs : list string) : outcome action :=
  let arguments := parseArguments osArgs "" (defaultArguments osArgs) in
  let loaded :=
    match arguments !! "config" with
    | Some configPath => loadConfig configPath arguments
    | None => Returned arguments
    end in
  match loaded with
  | Panicked msg => Panicked msg
  | Returned arguments =>
      if decide (stringAt arguments "start" = "true") then Returned StartServer
      else
        match osArgs !! 1%nat with
        | None =>
            Panicked ("index out of range [1] with length "
                      +:+ FormatInt (Z.of_nat (length osArgs)))
        | Some argVal =>
            if decide (argVal = "-list") then Returned ListTasks
            else if decide (argVal = "-new") then Returned NewTask
            else Returned NoAction
        end
  end.

(** ** Further Tasks and requests of the examples *)

(** The run of [job] that keeps [one] and [two], polled once in
    between. *)
Definition polledRun : list turn :=
  [Runs "job" (Spawns Started);
   Runs "job" (Appends "one");
   Handles (mkEnvironment 1002 1002 "tok") (pollRequest "job" "" "");
   Runs "job" (Appends "two");
   Runs "job" (Finishes 1010 true)].

(** A sweeper turn at 990, a keep-alive call of another client, who is
    given the token [other], and [n] more sweeper turns from 1050 on. *)
Definition busyTurns (n : nat) : list turn :=
  Sweeps 990
  :: Handles (mkEnvironment 1005 1005 "other") (mkRequest "/api/keepAlive" "abc123" "" "" "")
  :: (Sweeps <$> sweeperClocks n 1050).

(** The state the start call leaves for the Task whose program does not
    exist. *)
Definition startedMissing : state :=
  after (handler noMatch wholePercentage (mkEnvironment 1010 1011 "tok")
           (runTaskRequest "job") (initial missingProgram)).

(** Two Tasks: [open] has no secret, [vault] has one (a hash that
    matches nothing here). *)
Definition twoTasks : gmap string file :=
  taskFiles "open" "command: date"
  ∪ taskFiles "vault"
      "secret: $2a$14$0123456789012345678901uJ9xq5Vb6l7rUe0mT3nW8yZcA1dF2gH4i".

(** The Task [abc123] after its run has printed three lines. *)
Definition threeLines : state :=
  set_taskOutputs (<["abc123" := ["one"; "two"; "three"]]>)
    (set_tokens (<["tok" := 1000]>) (initial echoFiles)).

Definition overridingConfig : gmap string file :=
  taskFiles "job"
    ("title: First" +:+ newline +:+ " command :echo a:b " +:+ newline +:+ "title:Second").

Definition threeTasks : gmap string file :=
  <[configPath "a" := Readable ("title: Alpha" +:+ newline +:+ "public: Y")]>
  (<[configPath "b" := Readable "title: Beta"]>
  (<[configPath "c" := Readable ("public: Y" +:+ newline +:+ "title: Gamma")]> ∅)).

Definition strayFolder : gmap string file :=
  <[configPath "a" := Readable ("title: Alpha" +:+ newline +:+ "public: Y")]>
  (<[configPath "z" := Readable ("title: Omega" +:+ newline +:+ "public: Y")]> ∅).

(** A hash function for the examples: sixty bytes in the layout of a
    bcrypt hash at cost 14. *)
Definition fixedHash (thePassword : string) : option string :=
  Some "$2a$14$abcdefghijklmnopqrstuuABCDEFGHIJKLMNOPQRSTUVWXYZ01234".

Definition wizardFiles : gmap string file :=
  taskFiles "abc"
    (newTaskConfig fixedHash "Nightly backup" "s3cret" "Y" "backup.sh --all").

(** * Properties *)

(** Unfolds the field updates and reduces the field reads of a state. *)
Ltac fields := autounfold with state in *; cbn [tokens runningTasks taskOutputs
  taskStartTimes taskRunTimes taskRuntimeGuesses taskStopTimes files
  after written started panic] in *.

Lemma detailsOf_returned fs taskID :
  readsDetails fs taskID = true ->
  getTaskDetails fs taskID = Returned (detailsOf fs taskID, None).
Proof.
  unfold readsDetails, detailsOf.
  by destruct (getTaskDetails fs taskID) as [[d [e|]]|].
Qed.

(** Settles a closed goal by evaluation. *)
Ltac evaluate := vm_compute; first [reflexivity | discriminate | by intuition].

(** ** The embedding on small inputs *)

Example TrimSpace_both_ends :
  TrimSpace (String TAB "  echo hi " +:+ newline) = "echo hi".
Proof. reflexivity. Qed.

(** A no-break space, U+00A0, is encoded on two bytes and is trimmed. *)
Example TrimSpace_no_break_space :
  TrimSpace (String (ascii_of_N 0xC2) (String (ascii_of_N 0xA0) "x")) = "x".
Proof. reflexivity. Qed.

Example SplitN_examples :
  SplitN "a b c" " " 2 = ["a"; "b c"] /\ SplitN "abc" " " 2 = ["abc"]
  /\ SplitN "" " " 2 = [""] /\ SplitN "key" ":" 2 = ["key"].
Proof. repeat split. Qed.

Example Atoi_examples :
  Atoi "30" = (30, true) /\ Atoi "-7" = (-7, true) /\ Atoi "+0" = (0, true)
  /\ Atoi "" = (0, false) /\ Atoi "-" = (0, false) /\ Atoi "3x" = (0, false)
  /\ Atoi " 3" = (0, false)
  /\ Atoi "9223372036854775807" = (Int64.max_int, true)
  /\ Atoi "9223372036854775808" = (Int64.max_int, false)
  /\ Atoi "-9223372036854775808" = (Int64.min_int, true)
  /\ Atoi "-9223372036854775809" = (Int64.min_int, false)
  /\ Atoi "99999999999999999999999x" = (Int64.max_int, false).
Proof. repeat split. Qed.

Example parseCommandString_examples :
  parseCommandString "echo hello  world" = ["echo"; "hello"; "world"]
  /\ parseCommandString ("sh -c " +:+ String quote "ls -l" +:+ String quote "")
     = ["sh"; "-c"; "ls -l"]
  /\ parseCommandString "" = []
  /\ parseCommandString "   " = [""].
Proof. repeat split. Qed.

Example scanLines_example :
  scanLines ("a: 1" +:+ String CR newline +:+ newline +:+ "b: 2" +:+ newline)
  = ["a: 1"; ""; "b: 2"].
Proof. reflexivity. Qed.

Example runTimes_roundtrip :
  formatRunTimes [3; 12; 40] = "3" +:+ newline +:+ "12" +:+ newline +:+ "40"
  /\ parseRunTimes (formatRunTimes [3; 12; 40]) = [3; 12; 40]
  /\ parseRunTimes "" = [].
Proof. repeat split. Qed.

(** The scenario of the Task [abc123]: the start answers OK, the run
    captures [hello], the poll from line 0 prints it and the end marker,
    and the Task is reported as not running. *)
Example echo_scenario :
  let bcrypt := noMatch in
  let r1 := handler bcrypt wholePercentage (mkEnvironment 1000 1000 "tok")
              (runTaskRequest "abc123") (initial echoFiles) in
  let s2 := match runTask "abc123" (mkExecution Started ["hello" +:+ newline] 1001 true)
                    (after r1) with
            | Returned s => s
            | Panicked _ => after r1
            end in
  let r3 := handler bcrypt wholePercentage (mkEnvironment 1002 1002 "unused")
              (pollRequest "abc123" "tok" "0") s2 in
  let r4 := handler bcrypt wholePercentage (mkEnvironment 1003 1003 "unused")
              (mkRequest "/api/getTaskRunning" "abc123" "tok" "" "") (after r3) in
  written r1 = [Fprintf "OK" []]
  /\ started r1 = Some "abc123"
  /\ taskIsRunning "abc123" (after r1) = true
  /\ written r3 = [Fprintln "hello"; Fprintf "ERROR: EOF" []]
  /\ written r4 = [Fprintf "NO" []]
  /\ files (after r4) !! runTimesPath "abc123" = Some (Readable "1").
Proof. by vm_compute. Qed.

(** ** Strings *)

Section StringFacts.

Lemma app_cons c a b : String c a +:+ b = String c (a +:+ b).
Proof. reflexivity. Qed.

Lemma app_empty_l a : "" +:+ a = a.
Proof. reflexivity. Qed.

Lemma app_empty_r a : a +:+ "" = a.
Proof. induction a as [|c a IH]; [done|]. by rewrite app_cons, IH. Qed.

Lemma app_assoc' a b c : (a +:+ b) +:+ c = a +:+ (b +:+ c).
Proof. induction a as [|x a IH]; [done|]. by rewrite !app_cons, IH. Qed.

Lemma graphic_not_space c : graphic c = true -> asciiSpace c = false.
Proof.
  destruct c as [[] [] [] [] [] [] [] []]; try discriminate; reflexivity.
Qed.

Lemma graphic_byte c : graphic c = true -> (33 <= byte c <= 126)%N.
Proof. unfold graphic. intros [?%N.leb_le ?%N.leb_le]%andb_prop. lia. Qed.

Lemma isSpaceRune_graphic_head c t : graphic c = true -> isSpaceRune (String c t) = false.
Proof.
  intros Hc. pose proof (graphic_not_space c Hc) as Hs.
  apply graphic_byte in Hc. unfold isSpaceRune.
  destruct t as [|b [|d [|e t]]]; [done| | |done].
  - replace (byte c =? 194)%N with false by (symmetry; apply N.eqb_neq; lia). done.
  - replace (byte c =? 225)%N with false by (symmetry; apply N.eqb_neq; lia).
    replace (byte c =? 226)%N with false by (symmetry; apply N.eqb_neq; lia).
    replace (byte c =? 227)%N with false by (symmetry; apply N.eqb_neq; lia).
    done.
Qed.

Lemma isSpaceRune_graphic_last t c :
  graphic c = true -> isSpaceRune (t +:+ String c "") = false.
Proof.
  intros Hc. pose proof (graphic_not_space c Hc) as Hs.
  apply graphic_byte in Hc. unfold isSpaceRune.
  destruct t as [|a [|b [|d t]]]; rewrite ?app_cons, ?app_empty_l.
  - done.
  - replace (byte c =? 133)%N with false by (symmetry; apply N.eqb_neq; lia).
    replace (byte c =? 160)%N with false by (symmetry; apply N.eqb_neq; lia).
    by rewrite andb_false_r.
  - replace (byte c =? 128)%N with false by (symmetry; apply N.eqb_neq; lia).
    replace (byte c =? 159)%N with false by (symmetry; apply N.eqb_neq; lia).
    replace (byte c =? 168)%N with false by (symmetry; apply N.eqb_neq; lia).
    replace (byte c =? 169)%N with false by (symmetry; apply N.eqb_neq; lia).
    replace (byte c =? 175)%N with false by (symmetry; apply N.eqb_neq; lia).
    replace (128 <=? byte c)%N with false by (symmetry; apply N.leb_gt; lia).
    by rewrite !andb_false_r.
  - by destruct t.
Qed.

Lemma TrimLeftSpace_spaces n s : TrimLeftSpace (spaces n +:+ s) = TrimLeftSpace s.
Proof.
  induction n as [|n IH]; [done|].
  cbn [spaces]. rewrite app_cons, TrimLeftSpace_eq.
  by replace (isSpaceRune (String " " "")) with true by reflexivity.
Qed.

Lemma TrimLeftSpace_graphic c s :
  graphic c = true -> TrimLeftSpace (String c s) = String c s.
Proof.
  intros Hc. rewrite TrimLeftSpace_eq.
  rewrite (isSpaceRune_graphic_head c "" Hc).
  destruct s as [|c2 [|c3 s]]; [done| |].
  - by rewrite (isSpaceRune_graphic_head c _ Hc).
  - by rewrite !(isSpaceRune_graphic_head c _ Hc).
Qed.

Lemma TrimRightSpace_spaces_only n : TrimRightSpace (spaces n) = "".
Proof. induction n as [|n IH]; [done|]. cbn [spaces TrimRightSpace]. by rewrite IH. Qed.

Lemma TrimRightSpace_spaces s n : TrimRightSpace (s +:+ spaces n) = TrimRightSpace s.
Proof.
  induction s as [|c s IH].
  - rewrite app_empty_l. apply TrimRightSpace_spaces_only.
  - rewrite app_cons. cbn [TrimRightSpace]. by rewrite IH.
Qed.

Lemma TrimRightSpace_graphic s c :
  graphic c = true -> TrimRightSpace (s +:+ String c "") = s +:+ String c "".
Proof.
  intros Hc. induction s as [|a s IH].
  - rewrite app_empty_l. cbn [TrimRightSpace].
    by rewrite (isSpaceRune_graphic_head c "" Hc).
  - rewrite app_cons. cbn [TrimRightSpace]. rewrite IH.
    by rewrite <- app_cons, (isSpaceRune_graphic_last _ c Hc).
Qed.

End StringFacts.

(** ** parseCommandString on well-formed command lines *)

Section Tokenizer.

Lemma endsGraphic_app a b : endsGraphic b -> endsGraphic (a +:+ b).
Proof.
  intros (t & c & -> & Hc). exists (a +:+ t), c. by rewrite app_assoc'.
Qed.

Lemma startsGraphic_app a b : startsGraphic a -> startsGraphic (a +:+ b).
Proof. intros (c & t & -> & Hc). by exists c, (t +:+ b). Qed.

Lemma startsGraphic_nonempty n a b : startsGraphic a -> spaces n +:+ a +:+ b <> "".
Proof. intros (c & t & -> & Hc). by destruct n. Qed.

Lemma lastByte_split w l : lastByte w = Some l -> exists t, w = t +:+ String l "".
Proof.
  induction w as [|c w IH]; [done|]. destruct w as [|d w].
  - intros [= ->]. by exists "".
  - intros H. destruct (IH H) as [t Ht]. exists (String c t).
    by rewrite app_cons, <- Ht.
Qed.

Lemma wellFormed_starts f : wellFormed f = true -> startsGraphic (fieldText f).
Proof.
  destruct f as [w|q]; simpl.
  - destruct w as [|c w]; [done|].
    intros [[[Hc _]%andb_prop _]%andb_prop _]%andb_prop. by exists c, w.
  - intros _. by eexists quote, _.
Qed.

Lemma wellFormed_ends f : wellFormed f = true -> endsGraphic (fieldText f).
Proof.
  destruct f as [w|q]; simpl.
  - destruct w as [|c w]; [done|]. intros [_ Hl]%andb_prop.
    destruct (lastByte (String c w)) as [l|] eqn:E; [|done].
    destruct (lastByte_split _ _ E) as [t Ht]. by exists t, l.
  - intros _. exists (String quote q), quote. by rewrite app_cons.
Qed.

Lemma moreFields_ends rest :
  Forall (fun p => wellFormed p.2 = true) rest -> rest <> [] ->
  endsGraphic (moreFields rest).
Proof.
  induction 1 as [|[n f] rest Hf Hrest IH]; [done|]. intros _.
  cbn [moreFields]. apply endsGraphic_app.
  destruct rest as [|p rest].
  - cbn [moreFields]. rewrite app_empty_r. by apply wellFormed_ends.
  - apply endsGraphic_app. by apply IH.
Qed.

Lemma fields_ends f rest :
  wellFormed f = true -> Forall (fun p => wellFormed p.2 = true) rest ->
  endsGraphic (fieldText f +:+ moreFields rest).
Proof.
  intros Hf Hrest. destruct rest as [|p rest].
  - cbn [moreFields]. rewrite app_empty_r. by apply wellFormed_ends.
  - apply endsGraphic_app. by apply moreFields_ends.
Qed.

Lemma TrimSpace_padded a x b :
  startsGraphic x -> endsGraphic x -> TrimSpace (spaces a +:+ x +:+ spaces b) = x.
Proof.
  intros (c & t & Hx & Hc) (t' & c' & Hx' & Hc'). unfold TrimSpace.
  rewrite TrimLeftSpace_spaces. rewrite Hx at 1. rewrite app_cons.
  rewrite (TrimLeftSpace_graphic _ _ Hc), <- app_cons, <- Hx.
  rewrite TrimRightSpace_spaces, Hx'. by apply TrimRightSpace_graphic.
Qed.

Lemma SplitN_no_sep w sep : hasByte sep w = false -> SplitN w sep 2 = [w].
Proof.
  induction w as [|c w IH]; [done|]. cbn [hasByte SplitN].
  intros [Hc Hw]%orb_false_elim. rewrite Hc. by rewrite (IH Hw).
Qed.

Lemma SplitN_at_sep w sep r :
  hasByte sep w = false -> SplitN (w +:+ String sep r) sep 2 = [w; r].
Proof.
  induction w as [|c w IH].
  - intros _. rewrite app_empty_l. cbn [SplitN]. rewrite Ascii.eqb_refl.
    by destruct r.
  - cbn [hasByte]. intros [Hc Hw]%orb_false_elim.
    rewrite app_cons. cbn [SplitN]. rewrite Hc. by rewrite (IH Hw).
Qed.

(** One turn of the loop on a well-formed remainder: the first field is
    taken off, and what is left is empty or starts the next field. *)
Lemma parseStep_field a f rest b :
  wellFormed f = true -> Forall (fun p => wellFormed p.2 = true) rest ->
  parseStep (spaces a +:+ fieldText f +:+ moreFields rest +:+ spaces b)
  = (fieldValue f,
     match rest with
     | [] => ""
     | (n, g) :: rest' =>
         match f with
         | Bare _ => spaces n +:+ fieldText g +:+ moreFields rest'
         | Quoted _ => spaces (S n) +:+ fieldText g +:+ moreFields rest'
         end
     end).
Proof.
  intros Hf Hrest. unfold parseStep.
  rewrite <- (app_assoc' (fieldText f)).
  rewrite TrimSpace_padded
    by (by apply fields_ends || by apply startsGraphic_app, wellFormed_starts).
  destruct f as [w|q]; cbn [fieldText fieldValue].
  - simpl in Hf. destruct w as [|c w]; [done|].
    apply andb_prop in Hf as [[[Hc Hq]%andb_prop Hsp]%andb_prop _].
    apply negb_true_iff in Hq, Hsp.
    rewrite app_cons. cbn [HasPrefix]. rewrite Hq. cbn [andb].
    rewrite <- app_cons. destruct rest as [|[n g] rest'].
    + cbn [moreFields]. rewrite app_empty_r. by rewrite SplitN_no_sep.
    + cbn [moreFields spaces]. rewrite (app_cons " ").
      by rewrite SplitN_at_sep.
  - simpl in Hf. apply negb_true_iff in Hf.
    rewrite !app_cons. cbn [HasPrefix tail]. rewrite Ascii.eqb_refl. cbn [andb].
    rewrite app_assoc', app_cons, app_empty_l, SplitN_at_sep by done.
    by destruct rest as [|[n g] rest'].
Qed.

Lemma parseLoop_nonempty s result :
  s <> "" ->
  parseLoop s result = parseLoop (parseStep s).2 (result ++ [(parseStep s).1]).
Proof. destruct s; [done|]. intros _. by simp parseLoop. Qed.

Lemma parseLoop_fields rest : forall a f b result,
  wellFormed f = true -> Forall (fun p => wellFormed p.2 = true) rest ->
  parseLoop (spaces a +:+ fieldText f +:+ moreFields rest +:+ spaces b) result
  = result ++ fieldValue f :: ((fun p => fieldValue p.2) <$> rest).
Proof.
  induction rest as [|[n g] rest IH]; intros a f b result Hf Hrest.
  - rewrite parseLoop_nonempty, parseStep_field
      by (done || by apply startsGraphic_nonempty, wellFormed_starts).
    cbn [fst snd]. by simp parseLoop.
  - rewrite parseLoop_nonempty, parseStep_field
      by (done || by apply startsGraphic_nonempty, wellFormed_starts).
    apply Forall_cons in Hrest as [Hg Hrest]. cbn [fst snd].
    destruct f as [w|q].
    + rewrite <- (app_empty_r (moreFields rest)).
      change "" with (spaces 0). rewrite IH by done.
      by rewrite <- app_assoc.
    + rewrite <- (app_empty_r (moreFields rest)).
      change "" with (spaces 0). rewrite IH by done.
      by rewrite <- app_assoc.
Qed.

End Tokenizer.

(** C6, as amended. On every command line made of fields separated by one
    or more space characters, with any number of leading and trailing
    spaces, where a bare field holds no space and begins and ends with a
    printable byte (not a double quote at the front) and a quoted field
    is a sequence without double quote wrapped in double quotes,
    [parseCommandString] returns the fields in order, the quoted ones
    without their quotes. No byte is an escape character, and no white
    space other than the space character separates fields: a backslash
    or a tab inside a field stays in it. *)
Theorem parseCommandString_fields lead f rest trail :
  wellFormed f = true ->
  Forall (fun p => wellFormed p.2 = true) rest ->
  parseCommandString (commandLine lead f rest trail)
  = fieldValue f :: ((fun p => fieldValue p.2) <$> rest).
Proof.
  intros Hf Hrest. unfold parseCommandString, commandLine.
  by rewrite parseLoop_fields.
Qed.

Lemma parseCommandString_fields_witness :
  commandLine 1 (Bare "echo")
    [(0%nat, Quoted "a \b"); (2%nat, Bare (String "x" (String TAB "y")))] 1
  = " echo " +:+ String quote "a \b" +:+ String quote "   x"
    +:+ String TAB "y "
  /\ parseCommandString
       (commandLine 1 (Bare "echo")
          [(0%nat, Quoted "a \b"); (2%nat, Bare (String "x" (String TAB "y")))] 1)
     = ["echo"; "a \b"; String "x" (String TAB "y")].
Proof.
  split; [reflexivity|].
  apply (parseCommandString_fields 1 (Bare "echo")
           [(0%nat, Quoted "a \b"); (2%nat, Bare (String "x" (String TAB "y")))] 1).
  - reflexivity.
  - repeat constructor.
Defined.

(** C6, as stated, fails on a tab: the two words of the line [a<TAB>b] are
    separated by white space, and [parseCommandString] returns them as
    one field. *)
Lemma parseCommandString_tab_is_no_separator :
  whitespaceFields Between (String "a" (String TAB "b")) = ["a"; "b"]
  /\ parseCommandString (String "a" (String TAB "b")) = [String "a" (String TAB "b")].
Proof. split; reflexivity. Qed.

(** ** getTaskDetails and lines without a colon *)

Section Config.

Lemma SplitN_colon text :
  (exists key value, SplitN text ":" 2 = [key; value]) <-> hasByte ":" text = true.
Proof.
  induction text as [|c text IH]; cbn [SplitN hasByte].
  - split; [by intros (? & ? & ?)|done].
  - destruct (Ascii.eqb c ":") eqn:E; cbn [orb].
    + split; [done|]. intros _. exists "", text. by destruct text.
    + rewrite <- IH. split.
      * intros (key & value & H).
        destruct (SplitN text ":" 2) as [|h [|v [|? ?]]]; try done.
        by exists h, v.
      * intros (key & value & ->). by eexists _, _.
Qed.

Lemma SplitN_no_colon text :
  hasByte ":" text = false -> SplitN text ":" 2 = [text].
Proof. apply SplitN_no_sep. Qed.

Lemma readConfig_returns lines : forall taskDetails,
  (exists d, readConfig lines taskDetails = Returned d)
  <-> Forall (fun text => hasByte ":" text = true) lines.
Proof.
  induction lines as [|text lines IH]; intros taskDetails; cbn [readConfig].
  - split; [constructor|by eexists].
  - rewrite Forall_cons. destruct (hasByte ":" text) eqn:E.
    + destruct (proj2 (SplitN_colon text) E) as (key & value & ->).
      rewrite IH. by split; [|intros [_ ?]].
    + rewrite (SplitN_no_colon _ E). split; [by intros (? & ?)|by intros [? _]].
Qed.

Lemma readConfig_panics lines : forall taskDetails,
  Exists (fun text => hasByte ":" text = false) lines ->
  readConfig lines taskDetails = Panicked "index out of range [1] with length 1".
Proof.
  induction lines as [|text lines IH]; intros taskDetails H; [by inversion H|].
  cbn [readConfig]. destruct (hasByte ":" text) eqn:E.
  - destruct (proj2 (SplitN_colon text) E) as (key & value & ->). apply IH.
    apply Exists_cons in H as [H|H]; [congruence|done].
  - by rewrite (SplitN_no_colon _ E).
Qed.

Lemma hasByte_dropCR text : hasByte ":" (dropCR text) = hasByte ":" text.
Proof.
  induction text as [|c text IH]; [done|]. destruct text as [|d text].
  - cbn [dropCR]. destruct (Ascii.eqb c CR) eqn:E; [|done].
    apply Ascii.eqb_eq in E as ->. reflexivity.
  - change (dropCR (String c (String d text)))
      with (String c (dropCR (String d text))).
    cbn [hasByte] in *. by rewrite IH.
Qed.

Lemma scannable_short lines :
  Forall (fun l => (N.of_nat (String.length l) < MaxScanTokenSize)%N) lines ->
  scannable lines = lines.
Proof.
  induction 1 as [|l lines Hl _ IH]; [done|]. cbn [scannable].
  apply N.ltb_lt in Hl. by rewrite Hl, IH.
Qed.

Lemma Forall_colon_dropCR lines :
  Forall (fun text => hasByte ":" text = true) (dropCR <$> lines)
  <-> Forall (fun text => hasByte ":" text = true) lines.
Proof.
  rewrite Forall_fmap. apply Forall_iff. intros text. unfold compose.
  by rewrite hasByte_dropCR.
Qed.

End Config.

(** C10. For a config file that exists and can be opened, [getTaskDetails]
    returns (the details, with a [nil] error) exactly when every line the
    scanner delivers holds a colon; a delivered line without one makes the
    reading of [itemSplit[1]] panic with an index out of range. The
    scanner delivers every line of a file none of whose lines reaches
    [bufio.MaxScanTokenSize] bytes. *)
Theorem getTaskDetails_returns_iff_colons fs theTaskID content :
  fs !! configPath theTaskID = Some (Readable content) ->
  ((exists r, getTaskDetails fs theTaskID = Returned r)
   <-> Forall (fun text => hasByte ":" text = true) (scanLines content))
  /\ (Exists (fun text => hasByte ":" text = false) (scanLines content) ->
      getTaskDetails fs theTaskID = Panicked "index out of range [1] with length 1")
  /\ (Forall (fun l => (N.of_nat (String.length l) < MaxScanTokenSize)%N)
             (rawLines content) ->
      ((exists r, getTaskDetails fs theTaskID = Returned r)
       <-> Forall (fun text => hasByte ":" text = true) (rawLines content))).
Proof.
  intros Hfile. unfold getTaskDetails. rewrite Hfile.
  assert (Hiff : (exists r : gmap string string * option string,
                    match readConfig (scanLines content) (defaultDetails theTaskID) with
                    | Returned taskDetails => Returned (taskDetails, None)
                    | Panicked msg => Panicked msg
                    end = Returned r)
                 <-> Forall (fun text => hasByte ":" text = true) (scanLines content)).
  { rewrite <- (readConfig_returns _ (defaultDetails theTaskID)).
    destruct (readConfig _ _) as [d|msg]; split.
    - intros _. by exists d.
    - intros _. by eexists.
    - by intros [? ?].
    - by intros [? ?]. }
  split; [exact Hiff|]. split.
  - intros Hex. by rewrite (readConfig_panics _ _ Hex).
  - intros Hshort. rewrite Hiff. unfold scanLines.
    rewrite (scannable_short _ Hshort). apply Forall_colon_dropCR.
Qed.

Lemma getTaskDetails_returns_iff_colons_witness :
  getTaskDetails brokenConfig "backup" = Panicked "index out of range [1] with length 1".
Proof.
  refine (proj1 (proj2 (getTaskDetails_returns_iff_colons brokenConfig "backup"
    ("title: Nightly backup" +:+ newline +:+ "runs at midnight"
     +:+ newline +:+ "command: backup.sh") _)) _).
  - reflexivity.
  - apply Exists_cons_tl, Exists_cons_hd. reflexivity.
Defined.

(** ** Authorisation by secret *)

Section Secrets.

Variable bcryptMatches : string -> string -> bool.

Lemma CompareHashAndPassword_empty_hash password :
  CompareHashAndPassword bcryptMatches "" password = false.
Proof. reflexivity. Qed.

Lemma checkPasswordHash_spec thePassword theHash :
  checkPasswordHash bcryptMatches thePassword theHash = true
  <-> CompareHashAndPassword bcryptMatches theHash thePassword = true
      \/ (thePassword = "" /\ theHash = "").
Proof.
  unfold checkPasswordHash. destruct (decide _) as [Hboth|Hnot].
  - split; [by right|done].
  - split; [by left|]. by intros [?|?].
Qed.

Lemma checkPasswordHash_no_secret thePassword :
  checkPasswordHash bcryptMatches thePassword "" = true <-> thePassword = "".
Proof.
  rewrite checkPasswordHash_spec, CompareHashAndPassword_empty_hash.
  split; [by intros [?|[? _]]|by right].
Qed.

End Secrets.

(** C2, as amended. For every request carrying no token, authorisation
    succeeds if and only if the provided secret verifies against the
    stored hash or both the provided and the stored secret are empty,
    and the reason of a refusal is [incorrect secret]. For a Task with
    no secret set, the empty provided secret is authorised and every
    other one is refused. *)
Theorem authorise_by_secret bcryptMatches toks secret taskDetails :
  (authorise bcryptMatches toks "" secret taskDetails = Authorised
   <-> CompareHashAndPassword bcryptMatches (stringAt taskDetails "secret") secret = true
       \/ (secret = "" /\ stringAt taskDetails "secret" = ""))
  /\ (authorise bcryptMatches toks "" secret taskDetails = Authorised
      \/ authorise bcryptMatches toks "" secret taskDetails
         = NotAuthorised "incorrect secret")
  /\ (authorise bcryptMatches toks "" secret (<["secret" := ""]> taskDetails)
      = Authorised <-> secret = "").
Proof.
  unfold authorise. destruct (decide ("" <> "")) as [?|_]; [done|].
  split; [|split].
  - rewrite <- checkPasswordHash_spec. by destruct (checkPasswordHash _ _ _).
  - destruct (checkPasswordHash _ _ _); [by left|by right].
  - unfold stringAt. rewrite lookup_insert_eq. cbn [default].
    rewrite <- (checkPasswordHash_no_secret bcryptMatches).
    by destruct (checkPasswordHash _ _ _).
Qed.

(** C2, as stated, fails for a Task with no secret: a non-empty provided
    secret is refused, even were the hash comparison to accept every
    well-sized hash. *)
Lemma no_secret_is_not_open_access :
  stringAt (defaultDetails "job") "secret" = ""
  /\ authorise anyMatch ∅ "" "guess" (defaultDetails "job")
     = NotAuthorised "incorrect secret".
Proof. split; reflexivity. Qed.

(** ** The handler: routing and authorised requests *)

Section Handler.

Variable bcryptMatches : string -> string -> bool.
Variable floatPercentage : Z -> Z -> Z.

Lemma HasPrefix_app s prefix :
  HasPrefix s prefix = true -> exists r, s = prefix +:+ r.
Proof.
  revert s. induction prefix as [|p prefix IH]; intros s; cbn [HasPrefix].
  - intros _. by exists s.
  - destruct s as [|c s]; [done|].
    intros [->%Ascii.eqb_eq H]%andb_prop. destruct (IH _ H) as [r ->].
    by exists r.
Qed.

Lemma route_runTask path :
  HasPrefix path "/api/runTask" = true ->
  HasPrefix path "/view" = false /\ HasPrefix path "/run" = false
  /\ HasPrefix path "/api/getToken" = false
  /\ HasPrefix path "/api/getTaskDetails" = false.
Proof. intros [r ->]%HasPrefix_app. repeat split; reflexivity. Qed.

Lemma route_getTaskOutput path :
  HasPrefix path "/api/getTaskOutput" = true ->
  HasPrefix path "/view" = false /\ HasPrefix path "/run" = false
  /\ HasPrefix path "/api/getToken" = false
  /\ HasPrefix path "/api/getTaskDetails" = false
  /\ HasPrefix path "/api/runTask" = false.
Proof. intros [r ->]%HasPrefix_app. repeat split; reflexivity. Qed.

(** The API calls are routed to the branch for Task requests. *)
Lemma taskPath_api call path :
  call = "/api/runTask" \/ call = "/api/getTaskOutput" \/ call = "/api/getToken" ->
  HasPrefix path call = true -> taskPath path = true.
Proof.
  intros Hcall [r ->]%HasPrefix_app. unfold taskPath.
  rewrite bool_decide_eq_false_2; [by destruct Hcall as [->|[->| ->]]|].
  by destruct Hcall as [->|[->| ->]].
Qed.

Lemma taskPath_runTask path :
  HasPrefix path "/api/runTask" = true -> taskPath path = true.
Proof. apply taskPath_api. by left. Qed.

Lemma taskPath_getTaskOutput path :
  HasPrefix path "/api/getTaskOutput" = true -> taskPath path = true.
Proof. apply taskPath_api. right. by left. Qed.

Lemma taskPath_getToken path :
  HasPrefix path "/api/getToken" = true -> taskPath path = true.
Proof. apply taskPath_api. right. by right. Qed.

Lemma handler_taskRequest env req s :
  taskPath (URLPath req) = true ->
  handler bcryptMatches floatPercentage env req s
  = taskRequest bcryptMatches floatPercentage env req s.
Proof.
  unfold taskPath, handler. intros [[Hroot Hlist]%andb_prop Hprefix]%andb_prop.
  cbn zeta. destruct (decide _) as [Heq|_].
  { by rewrite bool_decide_eq_true_2 in Hroot. }
  apply negb_true_iff in Hlist as ->. by rewrite Hprefix.
Qed.

(** Any other path leaves the state alone and starts nothing. *)
Lemma handler_elsewhere env req s :
  taskPath (URLPath req) = false ->
  after (handler bcryptMatches floatPercentage env req s) = s
  /\ started (handler bcryptMatches floatPercentage env req s) = None.
Proof.
  unfold taskPath, handler. intros Hroute. cbn zeta.
  destruct (decide _) as [Heq|Hne]; [done|].
  rewrite bool_decide_eq_false_2 in Hroute by done.
  destruct (HasPrefix (URLPath req) "/api/getPublicTaskList").
  { by destruct (apiGetPublicTaskList _ _). }
  cbn [negb andb] in Hroute. by rewrite Hroute.
Qed.

Lemma dispatch_runTask env req token taskDetails rateLimit s :
  HasPrefix (URLPath req) "/api/runTask" = true ->
  dispatch floatPercentage env req token taskDetails rateLimit s
  = apiRunTask env (taskIDValue req) taskDetails rateLimit s.
Proof.
  intros H. unfold dispatch.
  destruct (route_runTask _ H) as (-> & -> & -> & ->). by rewrite H.
Qed.

Lemma dispatch_getTaskOutput env req token taskDetails rateLimit s :
  HasPrefix (URLPath req) "/api/getTaskOutput" = true ->
  dispatch floatPercentage env req token taskDetails rateLimit s
  = apiGetTaskOutput floatPercentage env (taskIDValue req) (lineValue req) taskDetails s.
Proof.
  intros H. unfold dispatch.
  destruct (route_getTaskOutput _ H) as (-> & -> & -> & -> & ->). by rewrite H.
Qed.

(** An authorised request records its token at the current time and
    goes on to its branch. *)
Lemma handler_authorised env req s taskDetails :
  taskPath (URLPath req) = true ->
  taskIDValue req <> "" ->
  getTaskDetails (files s) (taskIDValue req) = Returned (taskDetails, None) ->
  authorise bcryptMatches (tokens s) (tokenValue req) (secretValue req) taskDetails = Authorised ->
  handler bcryptMatches floatPercentage env req s
  = dispatch floatPercentage env req (sessionToken env (tokenValue req)) taskDetails
      (rateLimitOf taskDetails)
      (set_tokens (<[sessionToken env (tokenValue req) := currentTimestamp env]>) s).
Proof.
  intros Hroute Hid Hdetails Hauth. rewrite (handler_taskRequest _ _ _ Hroute).
  unfold taskRequest. destruct (decide (taskIDValue req = "")); [done|].
  by rewrite Hdetails, Hauth.
Qed.

Lemma apiRunTask_tokens env taskID taskDetails rateLimit s :
  tokens (after (apiRunTask env taskID taskDetails rateLimit s)) = tokens s.
Proof.
  unfold apiRunTask. destruct (taskIsRunning taskID s); [done|].
  destruct (decide _); [done|]. destruct (_ !! 0%nat); [|done].
  cbn. by destruct (files s !! _) as [[?|]|].
Qed.

Lemma apiGetTaskOutput_tokens env taskID line taskDetails s :
  tokens (after (apiGetTaskOutput floatPercentage env taskID line taskDetails s))
  = tokens s.
Proof.
  unfold apiGetTaskOutput.
  destruct (if decide (line <> "") then _ else _) as [n w].
  destruct (decide (stringAt taskDetails "progress" = "Y"));
    by destruct (decide (_ /\ _)).
Qed.

Lemma dispatch_tokens env req token taskDetails rateLimit s :
  tokens (after (dispatch floatPercentage env req token taskDetails rateLimit s)) = tokens s.
Proof.
  unfold dispatch.
  repeat match goal with
    | |- context [if ?b then _ else _] =>
        lazymatch b with
        | HasPrefix _ _ || HasPrefix _ _ => destruct b
        | HasPrefix _ _ => destruct b
        end
    end;
    auto using apiRunTask_tokens, apiGetTaskOutput_tokens.
  by destruct (files s !! _) as [[?|]|].
Qed.

End Handler.

(** ** Starting a Task *)

Section Start.

Variable bcryptMatches : string -> string -> bool.
Variable floatPercentage : Z -> Z -> Z.

Lemma wrap64_exact z : Int64.in_range z -> Int64.wrap64 z = z.
Proof.
  unfold Int64.in_range, Int64.min_int, Int64.max_int, Int64.wrap64, Int64.modulus.
  intros H. rewrite Z.mod_small; lia.
Qed.

Lemma sub_exact a b : Int64.in_range (a - b) -> Int64.sub a b = a - b.
Proof. apply wrap64_exact. Qed.

Lemma startCall_handler env req s taskDetails :
  startCall bcryptMatches env req s taskDetails ->
  handler bcryptMatches floatPercentage env req s
  = apiRunTask env (taskIDValue req) taskDetails (rateLimitOf taskDetails)
      (set_tokens (<[sessionToken env (tokenValue req) := currentTimestamp env]>) s).
Proof.
  intros (Hid & Hdetails & Hauth & Hpath & _).
  rewrite (handler_authorised _ _ _ _ _ _ (taskPath_runTask _ Hpath) Hid Hdetails Hauth).
  by apply dispatch_runTask.
Qed.

Lemma apiRunTask_limited env taskID taskDetails rateLimit s :
  taskIsRunning taskID s = false ->
  Int64.sub (currentTimestamp env) (intAt (taskStopTimes s) taskID) < rateLimit ->
  apiRunTask env taskID taskDetails rateLimit s
  = mkReply s
      [Fprintf rateLimitFormat
         [IntArg rateLimit;
          IntArg (Int64.sub rateLimit
                    (Int64.sub (currentTimestamp env) (intAt (taskStopTimes s) taskID)))]]
      None None.
Proof.
  intros Hrun Hlt. unfold apiRunTask. rewrite Hrun.
  by destruct (decide _).
Qed.

Lemma apiRunTask_empty env taskID taskDetails rateLimit s :
  taskIsRunning taskID s = false ->
  rateLimit <= Int64.sub (currentTimestamp env) (intAt (taskStopTimes s) taskID) ->
  parseCommandString (stringAt taskDetails "command") = [] ->
  apiRunTask env taskID taskDetails rateLimit s
  = mkReply s [] None (Some indexOutOfRange0).
Proof.
  intros Hrun Hge Hcmd. unfold apiRunTask. rewrite Hrun, Hcmd.
  destruct (decide _); [lia|done].
Qed.

Lemma apiRunTask_start env taskID taskDetails rateLimit s name args :
  taskIsRunning taskID s = false ->
  rateLimit <= Int64.sub (currentTimestamp env) (intAt (taskStopTimes s) taskID) ->
  parseCommandString (stringAt taskDetails "command") = name :: args ->
  apiRunTask env taskID taskDetails rateLimit s
  = mkReply
      (mkState (tokens s)
         (<[taskID := mkCmd name (name :: args) ("tasks/" +:+ taskID)]> (runningTasks s))
         (taskOutputs s)
         (<[taskID := laterTimestamp env]> (taskStartTimes s))
         (<[taskID := loadedRunTimes (files s) taskID]> (taskRunTimes s))
         (<[taskID := runtimeGuess (loadedRunTimes (files s) taskID)]>
            (taskRuntimeGuesses s))
         (taskStopTimes s) (files s))
      [Fprintf "OK" []] (Some taskID) None.
Proof.
  intros Hrun Hge Hcmd. unfold apiRunTask. rewrite Hrun, Hcmd.
  destruct (decide _); [lia|]. cbn [lookup list_lookup length Nat.ltb Nat.leb drop].
  unfold loadedRunTimes. fields.
  destruct (files s !! runTimesPath taskID) as [[content|]|]; fields;
    unfold linesAt; rewrite ?lookup_insert_eq, ?insert_insert_eq; reflexivity.
Qed.

End Start.

(** C7. An authorised [/api/runTask] call for a Task that is not running,
    with rate limit [R], at a time [now] with [now - lastStopTime < R],
    answers the rate-limit error naming [R] and the remaining wait
    [R - (now - lastStopTime)], starts no goroutine and leaves the running
    Tasks as they were; with [now - lastStopTime >= R] it is not refused:
    it goes on to the command line, and either panics on an empty
    argument vector or answers OK and starts the Task. *)
Theorem runTask_rate_limit bcryptMatches floatPercentage env req s taskDetails :
  startCall bcryptMatches env req s taskDetails ->
  let R := rateLimitOf taskDetails in
  let elapsed := currentTimestamp env - intAt (taskStopTimes s) (taskIDValue req) in
  let r := handler bcryptMatches floatPercentage env req s in
  Int64.in_range elapsed ->
  Int64.in_range (R - elapsed) ->
  (elapsed < R ->
   written r = [Fprintf rateLimitFormat [IntArg R; IntArg (R - elapsed)]]
   /\ started r = None /\ panic r = None
   /\ runningTasks (after r) = runningTasks s)
  /\ (R <= elapsed ->
      (written r = [] /\ started r = None /\ panic r = Some indexOutOfRange0)
      \/ (written r = [Fprintf "OK" []] /\ started r = Some (taskIDValue req)
          /\ panic r = None)).
Proof.
  intros Hcall R elapsed r Helapsed Hwait. subst r R.
  rewrite (startCall_handler _ _ _ _ _ _ Hcall).
  destruct Hcall as (_ & _ & _ & _ & Hrun).
  set (s' := set_tokens _ s).
  assert (Hrun' : taskIsRunning (taskIDValue req) s' = false) by done.
  assert (Hsub : Int64.sub (currentTimestamp env)
                   (intAt (taskStopTimes s') (taskIDValue req)) = elapsed)
    by (by apply sub_exact).
  split; intros Hcmp.
  - rewrite apiRunTask_limited by (done || by rewrite Hsub).
    by rewrite Hsub, (sub_exact _ elapsed).
  - destruct (parseCommandString (stringAt taskDetails "command")) as [|name args] eqn:Hcmd.
    + left. by rewrite apiRunTask_empty by (done || by rewrite Hsub).
    + right. by rewrite (apiRunTask_start _ _ _ _ _ name args) by (done || by rewrite Hsub).
Qed.

Lemma runTask_rate_limit_witness :
  written (handler noMatch wholePercentage (mkEnvironment 1010 1010 "tok")
             (runTaskRequest "job") (stoppedAt 1000 limitedFiles))
  = [Fprintf rateLimitFormat [IntArg 30; IntArg 20]].
Proof.
  refine (proj1 (proj1 (runTask_rate_limit noMatch wholePercentage
    (mkEnvironment 1010 1010 "tok") (runTaskRequest "job") (stoppedAt 1000 limitedFiles)
    (detailsOf limitedFiles "job") _ _ _) _)).
  - repeat split; (done || by vm_compute).
  - by vm_compute.
  - by vm_compute.
  - by vm_compute.
Defined.

(** C3, on the code: a Task whose config sets no command has the empty
    command line, which tokenizes to the empty argument vector; the
    authorised [/api/runTask] call then panics on [commandArray[0]]
    before anything is written, instead of answering an error. *)
Theorem start_without_command_panics :
  let r := handler noMatch wholePercentage (mkEnvironment 1010 1010 "tok")
             (runTaskRequest "job") (initial noCommand) in
  stringAt (detailsOf noCommand "job") "command" = ""
  /\ parseCommandString "" = []
  /\ panic r = Some indexOutOfRange0
  /\ written r = []
  /\ started r = None.
Proof. by vm_compute. Qed.

(** The same for every Task and state: once past the rate limit, an
    empty argument vector makes the start call panic. *)
Lemma start_with_empty_vector_panics bcryptMatches floatPercentage env req s taskDetails :
  startCall bcryptMatches env req s taskDetails ->
  rateLimitOf taskDetails
  <= Int64.sub (currentTimestamp env) (intAt (taskStopTimes s) (taskIDValue req)) ->
  parseCommandString (stringAt taskDetails "command") = [] ->
  panic (handler bcryptMatches floatPercentage env req s) = Some indexOutOfRange0
  /\ written (handler bcryptMatches floatPercentage env req s) = [].
Proof.
  intros Hcall Hge Hcmd. rewrite (startCall_handler _ _ _ _ _ _ Hcall).
  destruct Hcall as (_ & _ & _ & _ & Hrun).
  by rewrite apiRunTask_empty.
Qed.

(** ** A spawn that fails *)

Lemma runTask_spawn_fails theTaskID e s cmd :
  runningTasks s !! theTaskID = Some cmd ->
  spawn e <> Started ->
  runTask theTaskID e s = Returned (set_taskOutputs (<[theTaskID := []]>) s).
Proof.
  intros Hcmd Hspawn. unfold runTask. fields. rewrite Hcmd.
  by destruct (spawn e).
Qed.

(** C1, as amended. An authorised [/api/runTask] call that finds the Task
    not running, is past the rate limit and has a non-empty argument
    vector answers OK and hands the Task to the [runTask] goroutine
    before the process is spawned. When the spawn then fails (the
    [StdoutPipe] or the [Start] error), [runTask] returns after that one
    attempt: nothing more is written to the response, the Task's output
    buffer is left empty, and the stop times, the run-time history, the
    files and the tokens are as the start call left them. *)
Theorem failed_spawn_is_silent bcryptMatches floatPercentage env req s taskDetails
    e name args :
  startCall bcryptMatches env req s taskDetails ->
  rateLimitOf taskDetails
  <= Int64.sub (currentTimestamp env) (intAt (taskStopTimes s) (taskIDValue req)) ->
  parseCommandString (stringAt taskDetails "command") = name :: args ->
  spawn e <> Started ->
  let r := handler bcryptMatches floatPercentage env req s in
  written r = [Fprintf "OK" []]
  /\ panic r = None
  /\ started r = Some (taskIDValue req)
  /\ exists s',
       runTask (taskIDValue req) e (after r) = Returned s'
       /\ taskOutputs s' = <[taskIDValue req := []]> (taskOutputs s)
       /\ taskStopTimes s' = taskStopTimes s
       /\ taskRunTimes s' = taskRunTimes (after r)
       /\ files s' = files s
       /\ tokens s' = tokens (after r).
Proof.
  intros Hcall Hge Hcmd Hspawn r. subst r.
  rewrite (startCall_handler _ _ _ _ _ _ Hcall).
  destruct Hcall as (_ & _ & _ & _ & Hrun).
  rewrite (apiRunTask_start _ _ _ _ _ name args) by done.
  fields. repeat split. eexists. split.
  - eapply runTask_spawn_fails; [|done]. fields. apply lookup_insert_eq.
  - by fields.
Qed.

Lemma failed_spawn_is_silent_witness :
  let r := handler noMatch wholePercentage (mkEnvironment 1010 1011 "tok")
             (runTaskRequest "job") (initial missingProgram) in
  written r = [Fprintf "OK" []]
  /\ panic r = None
  /\ started r = Some "job"
  /\ exists s',
       runTask "job" (mkExecution StartError [] 0 true) (after r) = Returned s'
       /\ taskOutputs s' = <["job" := []]> ∅
       /\ taskStopTimes s' = ∅
       /\ taskRunTimes s' = taskRunTimes (after r)
       /\ files s' = missingProgram
       /\ tokens s' = tokens (after r).
Proof.
  apply (failed_spawn_is_silent noMatch wholePercentage
           (mkEnvironment 1010 1011 "tok") (runTaskRequest "job") (initial missingProgram)
           (detailsOf missingProgram "job") (mkExecution StartError [] 0 true)
           "no-such-program" ["--flag"]).
  - repeat split; (done || by vm_compute).
  - by vm_compute.
  - by vm_compute.
  - done.
Defined.

(** C1, as stated, fails: after a start whose spawn fails, the start call
    has answered OK, not an error, and [taskIsRunning] is true for the
    Task. *)
Lemma failed_spawn_answers_OK_and_stays_running :
  let r := handler noMatch wholePercentage (mkEnvironment 1010 1011 "tok")
             (runTaskRequest "job") (initial missingProgram) in
  written r = [Fprintf "OK" []]
  /\ exists s',
       runTask "job" (mkExecution StartError [] 0 true) (after r) = Returned s'
       /\ taskIsRunning "job" s' = true.
Proof. cbv zeta. split; [by vm_compute|]. eexists. split; by vm_compute. Qed.

(** ** The run-time guess *)

Section Guess.

Lemma sumOf_cons x l : sumOf (x :: l) = x + sumOf l.
Proof. reflexivity. Qed.

Lemma sumOf_nonneg l : Forall (fun x => 0 <= x) l -> 0 <= sumOf l.
Proof. induction 1 as [|x l Hx _ IH]; [done|]. rewrite sumOf_cons. lia. Qed.

Lemma totalRunTime_exact_from acc l :
  0 <= acc -> Forall (fun x => 0 <= x) l -> acc + sumOf l <= Int64.max_int ->
  foldl Int64.add acc l = acc + sumOf l.
Proof.
  revert acc. induction l as [|x l IH]; intros acc Hacc Hl Hsum.
  - cbn. lia.
  - apply Forall_cons in Hl as [Hx Hl]. rewrite sumOf_cons in *.
    pose proof (sumOf_nonneg l Hl). cbn [foldl].
    unfold Int64.add at 2. rewrite wrap64_exact.
    + rewrite IH; [lia|lia|done|lia].
    + unfold Int64.in_range, Int64.min_int, Int64.max_int in *. lia.
Qed.

Lemma totalRunTime_exact l :
  Forall (fun x => 0 <= x) l -> sumOf l <= Int64.max_int -> totalRunTime l = sumOf l.
Proof.
  intros Hl Hsum. unfold totalRunTime. rewrite totalRunTime_exact_from; [lia|lia|done|lia].
Qed.

End Guess.

(** C8. The guess for an empty history is 10. For a non-empty history it
    is the total of the run times divided by their number, in [int64]
    arithmetic; for run times that are not negative and whose sum fits in
    an [int64], that is the mean rounded down. A start call stores the
    guess for the history it read from [runTimes.txt]. *)
Theorem runtimeGuess_is_mean :
  runtimeGuess [] = 10
  /\ (forall l, l <> [] ->
        runtimeGuess l = Int64.quot (totalRunTime l) (Z.of_nat (length l)))
  /\ (forall l, l <> [] -> Forall (fun x => 0 <= x) l -> sumOf l <= Int64.max_int ->
        runtimeGuess l = sumOf l / Z.of_nat (length l)
        /\ Z.of_nat (length l) * runtimeGuess l <= sumOf l
           < Z.of_nat (length l) * (runtimeGuess l + 1))
  /\ (forall bcryptMatches floatPercentage env req s taskDetails name args,
        startCall bcryptMatches env req s taskDetails ->
        rateLimitOf taskDetails
        <= Int64.sub (currentTimestamp env) (intAt (taskStopTimes s) (taskIDValue req)) ->
        parseCommandString (stringAt taskDetails "command") = name :: args ->
        taskRuntimeGuesses (after (handler bcryptMatches floatPercentage env req s))
          !! taskIDValue req
        = Some (runtimeGuess (loadedRunTimes (files s) (taskIDValue req)))).
Proof.
  split; [reflexivity|]. split; [|split].
  - intros l Hl. unfold runtimeGuess. destruct (decide _) as [H|_]; [|done].
    by destruct l.
  - intros l Hne Hl Hsum. unfold runtimeGuess.
    destruct (decide _) as [H|_]; [by destruct l|].
    assert (Hlen : 0 < Z.of_nat (length l)) by (destruct l; [done|cbn [length]; lia]).
    pose proof (sumOf_nonneg l Hl) as Hpos.
    rewrite (totalRunTime_exact l Hl Hsum). unfold Int64.quot.
    rewrite Z.quot_div_nonneg by lia.
    assert (Hq : 0 <= sumOf l / Z.of_nat (length l) <= sumOf l).
    { split; [apply Z.div_pos; lia|]. apply Z.div_le_upper_bound; nia. }
    rewrite wrap64_exact
      by (unfold Int64.in_range, Int64.min_int, Int64.max_int in *; lia).
    split; [done|].
    pose proof (Z.mul_div_le (sumOf l) (Z.of_nat (length l)) Hlen).
    pose proof (Z.mul_succ_div_gt (sumOf l) (Z.of_nat (length l)) Hlen).
    lia.
  - intros bcryptMatches floatPercentage env req s taskDetails name args Hcall Hge Hcmd.
    rewrite (startCall_handler _ _ _ _ _ _ Hcall).
    destruct Hcall as (_ & _ & _ & _ & Hrun).
    rewrite (apiRunTask_start _ _ _ _ _ name args) by done.
    fields. apply lookup_insert_eq.
Qed.

Lemma runtimeGuess_is_mean_witness :
  runtimeGuess [3; 4; 6] = 13 / 3 /\ 3 * runtimeGuess [3; 4; 6] <= 13 < 3 * (runtimeGuess [3; 4; 6] + 1).
Proof.
  refine (proj1 (proj2 (proj2 runtimeGuess_is_mean)) [3; 4; 6] _ _ _).
  - done.
  - repeat constructor; lia.
  - by vm_compute.
Defined.

Example runtimeGuess_truncates : runtimeGuess [-3; 0] = -1.
Proof. reflexivity. Qed.

(** ** Polling a Task with progress reports *)

Lemma linesAt_insert {A} (m : gmap string (list A)) k (l : list A) :
  linesAt (<[k := l]> m) k = l.
Proof. unfold linesAt. by rewrite lookup_insert_eq. Qed.

(** C9. For a Task whose [progress] entry is [Y], every authorised
    [/api/getTaskOutput] call, whether the Task is running or not, appends
    one line [Progress: Progress N%], with [N] at most 100, to the Task's
    stored output: the buffer after the call is the buffer before it
    followed by that line, one line longer, so the call changes the
    stored output and leaves the running state as it was; and a call that
    asks for all lines prints the whole buffer, the lines injected by
    earlier calls and its own included. *)
Theorem poll_appends_progress_line bcryptMatches floatPercentage env req s taskDetails :
  taskIDValue req <> "" ->
  getTaskDetails (files s) (taskIDValue req) = Returned (taskDetails, None) ->
  authorise bcryptMatches (tokens s) (tokenValue req) (secretValue req) taskDetails
  = Authorised ->
  HasPrefix (URLPath req) "/api/getTaskOutput" = true ->
  stringAt taskDetails "progress" = "Y" ->
  let r := handler bcryptMatches floatPercentage env req s in
  let before := linesAt (taskOutputs s) (taskIDValue req) in
  let line := progressLine (percentageAt floatPercentage env (taskIDValue req) s) in
  linesAt (taskOutputs (after r)) (taskIDValue req) = before ++ [line]
  /\ percentageAt floatPercentage env (taskIDValue req) s <= 100
  /\ length (linesAt (taskOutputs (after r)) (taskIDValue req)) = S (length before)
  /\ taskOutputs (after r) <> taskOutputs s
  /\ taskIsRunning (taskIDValue req) (after r) = taskIsRunning (taskIDValue req) s
  /\ (lineValue req = "" ->
      panic r = None
      /\ exists finished, written r = (Fprintln <$> (before ++ [line])) ++ finished).
Proof.
  intros Hid Hdetails Hauth Hpath Hprogress r before line.
  assert (Hafter : linesAt (taskOutputs (after r)) (taskIDValue req) = before ++ [line]).
  { subst r.
    rewrite (handler_authorised _ _ _ _ _ _ (taskPath_getTaskOutput _ Hpath)
               Hid Hdetails Hauth).
    rewrite dispatch_getTaskOutput by done. unfold apiGetTaskOutput.
    destruct (if decide (lineValue req <> "") then _ else _) as [n w].
    destruct (decide (stringAt taskDetails "progress" = "Y")); [|done].
    destruct (decide (_ /\ _)); fields; by rewrite linesAt_insert. }
  split; [done|]. split; [|split; [|split; [|split]]].
  - unfold percentageAt. destruct (decide _); lia.
  - rewrite Hafter, length_app. cbn [length]. lia.
  - intros Heq. unfold linesAt in Hafter. rewrite Heq in Hafter.
    apply (f_equal length) in Hafter. rewrite length_app in Hafter.
    cbn [length] in Hafter. subst before. unfold linesAt in Hafter. lia.
  - subst r.
    rewrite (handler_authorised _ _ _ _ _ _ (taskPath_getTaskOutput _ Hpath)
               Hid Hdetails Hauth).
    rewrite dispatch_getTaskOutput by done. unfold apiGetTaskOutput.
    destruct (if decide (lineValue req <> "") then _ else _) as [n w].
    destruct (decide (stringAt taskDetails "progress" = "Y")); [|done].
    by destruct (decide (_ /\ _)).
  - intros Hline. subst r.
    rewrite (handler_authorised _ _ _ _ _ _ (taskPath_getTaskOutput _ Hpath)
               Hid Hdetails Hauth).
    rewrite dispatch_getTaskOutput by done. unfold apiGetTaskOutput.
    rewrite Hline. destruct (decide ("" <> "")) as [?|_]; [done|].
    destruct (decide (stringAt taskDetails "progress" = "Y")); [|done].
    destruct (decide (_ /\ _)) as [[_ ?]|_]; [lia|].
    fields. rewrite linesAt_insert. split; [done|].
    eexists. cbn [Z.to_nat drop app]. reflexivity.
Qed.

Lemma poll_appends_progress_line_witness :
  let r := handler noMatch wholePercentage (mkEnvironment 1004 1004 "tok")
             (pollRequest "job" "" "") runningJob in
  taskIsRunning "job" runningJob = true
  /\ linesAt (taskOutputs (after r)) "job" = ["hello"; "Progress: Progress 40%"]
  /\ written r = [Fprintln "hello"; Fprintln "Progress: Progress 40%"].
Proof.
  pose proof (poll_appends_progress_line noMatch wholePercentage
                (mkEnvironment 1004 1004 "tok") (pollRequest "job" "" "") runningJob
                (detailsOf progressFiles "job")) as H.
  cbv zeta in H |- *.
  destruct H as (Hafter & _ & _ & _ & _ & _); [done|by vm_compute..|].
  split; [by vm_compute|]. split; [exact Hafter|by vm_compute].
Defined.

(** A second poll, by another caller, finds the first poll's line in the
    buffer, prints it and adds its own. *)
Example second_poll_sees_injected_line :
  let r1 := handler noMatch wholePercentage (mkEnvironment 1004 1004 "tok")
              (pollRequest "job" "" "") runningJob in
  let r2 := handler noMatch wholePercentage (mkEnvironment 1006 1006 "other")
              (pollRequest "job" "" "1") (after r1) in
  written r2 = [Fprintln "Progress: Progress 40%"; Fprintln "Progress: Progress 60%"]
  /\ linesAt (taskOutputs (after r2)) "job"
     = ["hello"; "Progress: Progress 40%"; "Progress: Progress 60%"].
Proof. by vm_compute. Qed.

(** ** The run-time history after a completed run *)

Section History.

Lemma sortSlice_sorted l : Sorted Z.le (sortSlice l).
Proof. apply (Sorted_merge_sort Z.le). Qed.

Lemma sortSlice_perm l : sortSlice l ≡ₚ l.
Proof. apply (merge_sort_Permutation Z.le). Qed.

(** The result of sorting does not depend on the algorithm: there is
    one ascending arrangement of a list of integers. *)
Lemma sortSlice_unique l l' : Sorted Z.le l' -> l' ≡ₚ l -> l' = sortSlice l.
Proof.
  intros Hsorted Hperm. apply (Sorted_unique Z.le); [done|apply sortSlice_sorted|].
  by rewrite sortSlice_perm.
Qed.

Lemma trimRunTimes_short l : (length l < 10)%nat -> trimRunTimes l = l.
Proof. intros H. simp trimRunTimes. destruct (decide _); [lia|done]. Qed.

Lemma trimRunTimes_long l :
  (10 <= length l)%nat -> trimRunTimes l = trimRunTimes (slice 1 (length l - 2) l).
Proof.
  intros H. rewrite trimRunTimes_equation_1 at 1.
  destruct (decide _); [done|lia].
Qed.

Lemma slice_ends (a : Z) mid y z :
  slice 1 (length (a :: mid ++ [y; z]) - 2) (a :: mid ++ [y; z]) = mid.
Proof.
  unfold slice.
  replace (length (a :: mid ++ [y; z]) - 2 - 1)%nat with (length mid)
    by (cbn [length]; rewrite length_app; cbn [length]; lia).
  change (drop 1 (a :: mid ++ [y; z])) with (mid ++ [y; z]).
  apply take_app_length.
Qed.

Lemma trimRunTimes_ends a mid y z :
  (10 <= length (a :: mid ++ [y; z]))%nat ->
  trimRunTimes (a :: mid ++ [y; z]) = trimRunTimes mid.
Proof. intros H. by rewrite trimRunTimes_long, slice_ends. Qed.

Lemma trimRunTimes_length l : (length (trimRunTimes l) <= 9)%nat.
Proof.
  funelim (trimRunTimes l); [done|lia].
Qed.

Lemma slice_sorted lo hi l : Sorted Z.le l -> Sorted Z.le (slice lo hi l).
Proof.
  intros H%(Sorted_StronglySorted Z.le). apply StronglySorted_Sorted.
  unfold slice. rewrite <- (take_drop lo l) in H.
  apply StronglySorted_app_1_r in H.
  rewrite <- (take_drop (hi - lo) (drop lo l)) in H.
  by apply StronglySorted_app_1_l in H.
Qed.

Lemma trimRunTimes_sorted l : Sorted Z.le l -> Sorted Z.le (trimRunTimes l).
Proof.
  funelim (trimRunTimes l); [|done].
  intros Hl. auto using slice_sorted.
Qed.

(** Capturing output changes the output buffers only. *)
Lemma capture_fields theTaskID chunks : forall s,
  let s' := foldl (fun s chunk =>
                     set_taskOutputs
                       (<[theTaskID :=
                            captureOutput chunk (linesAt (taskOutputs s) theTaskID)]>) s)
                  s chunks in
  tokens s' = tokens s /\ runningTasks s' = runningTasks s
  /\ taskStartTimes s' = taskStartTimes s /\ taskRunTimes s' = taskRunTimes s
  /\ taskRuntimeGuesses s' = taskRuntimeGuesses s
  /\ taskStopTimes s' = taskStopTimes s /\ files s' = files s.
Proof.
  induction chunks as [|chunk chunks IH]; intros s; cbn [foldl]; [done|].
  apply (IH (set_taskOutputs _ s)).
Qed.

Lemma finishTask_history theTaskID e s :
  taskRunTimes (finishTask theTaskID e s) !! theTaskID
  = Some (trimRunTimes
            (sortSlice (linesAt (taskRunTimes s) theTaskID
                        ++ [Int64.sub (stopTimestamp e)
                              (intAt (taskStartTimes s) theTaskID)])))
  /\ taskIsRunning theTaskID (finishTask theTaskID e s) = false.
Proof.
  unfold finishTask, taskIsRunning.
  destruct (historySaved e); fields; unfold intAt at 1;
    by rewrite !lookup_insert_eq, lookup_delete_eq.
Qed.

Lemma runTask_completes theTaskID e s cmd :
  runningTasks s !! theTaskID = Some cmd ->
  spawn e = Started ->
  exists s',
    runTask theTaskID e s = Returned s'
    /\ taskRunTimes s' !! theTaskID
       = Some (trimRunTimes
                 (sortSlice (linesAt (taskRunTimes s) theTaskID
                             ++ [Int64.sub (stopTimestamp e)
                                   (intAt (taskStartTimes s) theTaskID)])))
    /\ taskIsRunning theTaskID s' = false.
Proof.
  intros Hcmd Hspawn. unfold runTask.
  change (runningTasks (set_taskOutputs _ s)) with (runningTasks s).
  rewrite Hcmd, Hspawn. eexists. split; [done|].
  pose proof (capture_fields theTaskID (reads e)
                (set_taskOutputs (<[theTaskID := []]>) s)) as H.
  cbv zeta in H. destruct H as (_ & _ & Hstart & Htimes & _ & _ & _).
  change (taskStartTimes (set_taskOutputs _ s)) with (taskStartTimes s) in Hstart.
  change (taskRunTimes (set_taskOutputs _ s)) with (taskRunTimes s) in Htimes.
  rewrite <- Hstart, <- Htimes. apply finishTask_history.
Qed.

End History.

(** C5, as amended. A completed run appends its duration to the Task's
    run-time history, sorts the history ascending and, while its length
    is at least 10, replaces it by its slice from index 1 to its length
    less 2: the smallest element and the two largest are dropped each
    time. The history a completed run leaves is ascending and has at most
    9 entries. *)
Theorem completed_run_history theTaskID e s cmd :
  runningTasks s !! theTaskID = Some cmd ->
  spawn e = Started ->
  let runTime := Int64.sub (stopTimestamp e) (intAt (taskStartTimes s) theTaskID) in
  let sorted := sortSlice (linesAt (taskRunTimes s) theTaskID ++ [runTime]) in
  (exists s',
     runTask theTaskID e s = Returned s'
     /\ taskRunTimes s' !! theTaskID = Some (trimRunTimes sorted))
  /\ Sorted Z.le sorted
  /\ sorted ≡ₚ linesAt (taskRunTimes s) theTaskID ++ [runTime]
  /\ (forall l, (length l < 10)%nat -> trimRunTimes l = l)
  /\ (forall a mid y z, (10 <= length (a :: mid ++ [y; z]))%nat ->
        trimRunTimes (a :: mid ++ [y; z]) = trimRunTimes mid)
  /\ (length (trimRunTimes sorted) <= 9)%nat
  /\ Sorted Z.le (trimRunTimes sorted).
Proof.
  intros Hcmd Hspawn runTime sorted.
  destruct (runTask_completes theTaskID e s cmd Hcmd Hspawn) as (s' & Hrun & Htimes & _).
  split; [by exists s'|].
  split; [apply sortSlice_sorted|]. split; [apply sortSlice_perm|].
  split; [apply trimRunTimes_short|]. split; [apply trimRunTimes_ends|].
  split; [apply trimRunTimes_length|]. apply trimRunTimes_sorted, sortSlice_sorted.
Qed.

Lemma completed_run_history_witness :
  exists s',
    runTask "job" (mkExecution Started [] 1010 true) nineRuns = Returned s'
    /\ taskRunTimes s' !! "job"
       = Some (trimRunTimes (sortSlice ([1; 2; 3; 4; 5; 6; 7; 8; 9] ++ [10]))).
Proof.
  exact (proj1 (completed_run_history "job" (mkExecution Started [] 1010 true) nineRuns
                  (mkCmd "sleep" ["sleep"; "9"] "tasks/job") eq_refl eq_refl)).
Defined.

(** C5, as stated, fails: with nine run times on record, a tenth run
    leaves seven of them, where removing the element of smallest index
    while the length is at least 10 would leave nine. *)
Lemma tenth_run_leaves_seven :
  trimOldest (sortSlice ([1; 2; 3; 4; 5; 6; 7; 8; 9] ++ [10]))
  = [2; 3; 4; 5; 6; 7; 8; 9; 10]
  /\ exists s',
       runTask "job" (mkExecution Started [] 1010 true) nineRuns = Returned s'
       /\ taskRunTimes s' !! "job" = Some [2; 3; 4; 5; 6; 7; 8].
Proof. split; [by vm_compute|]. eexists. split; by vm_compute. Qed.

(** ** The lifetime of a token *)

Section Tokens.

Variable bcryptMatches : string -> string -> bool.

Lemma sweepTokens_lookup now toks token :
  sweepTokens now toks !! token
  = match toks !! token with
    | Some timestamp =>
        if decide (Int64.sub now tokenTimeout > timestamp) then None else Some timestamp
    | None => None
    end.
Proof.
  unfold sweepTokens. rewrite map_lookup_filter.
  destruct (toks !! token) as [timestamp|]; [|done]. cbn.
  destruct (decide (Int64.sub now tokenTimeout > timestamp)); by case_guard.
Qed.

Lemma clock_exact clock :
  0 <= clock <= Int64.max_int -> Int64.sub clock tokenTimeout = clock - tokenTimeout.
Proof.
  intros H. apply sub_exact.
  unfold Int64.in_range, Int64.min_int, Int64.max_int, tokenTimeout in *. lia.
Qed.

Lemma clearExpiredTokens_absent n : forall clock s token,
  tokens s !! token = None -> tokens (clearExpiredTokens n clock s) !! token = None.
Proof.
  induction n as [|n IH]; intros clock s token H; cbn [clearExpiredTokens]; [done|].
  apply IH. fields. by rewrite sweepTokens_lookup, H.
Qed.

(** After [n] turns of the sweeper, the first at [clock], a token that
    was not refreshed is still in the map exactly when the last sweep
    came no later than [tokenTimeout] seconds after its timestamp. *)
Lemma clearExpiredTokens_lookup n : forall clock s token timestamp,
  tokens s !! token = Some timestamp ->
  0 <= clock ->
  clock + tokenCheckPeriod * Z.of_nat n <= Int64.max_int ->
  tokens (clearExpiredTokens n clock s) !! token
  = if decide (n = 0%nat
               \/ clock + tokenCheckPeriod * (Z.of_nat n - 1) <= timestamp + tokenTimeout)
    then Some timestamp else None.
Proof.
  induction n as [|n IH]; intros clock s token timestamp Htok Hclock Hmax;
    cbn [clearExpiredTokens].
  - by destruct (decide _) as [_|[]]; [|left].
  - assert (Hnext : 0 <= clock + tokenCheckPeriod
                    /\ clock + tokenCheckPeriod + tokenCheckPeriod * Z.of_nat n
                       <= Int64.max_int)
      by (unfold tokenCheckPeriod in *; lia).
    assert (Hsweep : tokens (set_tokens (sweepTokens clock) s) !! token
                     = if decide (clock - tokenTimeout > timestamp)
                       then None else Some timestamp).
    { fields. rewrite sweepTokens_lookup, Htok, clock_exact; [done|].
      unfold tokenCheckPeriod in *. lia. }
    destruct (decide (clock - tokenTimeout > timestamp)) as [Hold|Hyoung].
    + rewrite clearExpiredTokens_absent by done.
      destruct (decide _) as [[?|?]|_]; [done| |done].
      unfold tokenTimeout, tokenCheckPeriod in *. lia.
    + rewrite (IH _ _ token timestamp) by (done || apply Hnext).
      unfold tokenTimeout, tokenCheckPeriod in *.
      destruct (decide _) as [[->|?]|Hn]; destruct (decide _) as [[?|?]|Hn'];
        try done; try lia; exfalso; apply Hn'; right; lia.
Qed.

Lemma authorise_by_token toks token secret taskDetails :
  token <> "" ->
  authorise bcryptMatches toks token secret taskDetails
  = if decide (intAt toks token = 0)
    then NotAuthorised "invalid or expired token" else Authorised.
Proof. intros H. unfold authorise. by destruct (decide (token <> "")). Qed.

End Tokens.

Section TokenTurns.

Variable bcryptMatches : string -> string -> bool.
Variable floatPercentage : Z -> Z -> Z.

(** A request sets the timestamp of its own token, or leaves the token
    map as it is. *)
Lemma handler_tokens env req s :
  tokens (after (handler bcryptMatches floatPercentage env req s)) = tokens s
  \/ tokens (after (handler bcryptMatches floatPercentage env req s))
     = <[sessionToken env (tokenValue req) := currentTimestamp env]> (tokens s).
Proof.
  destruct (taskPath (URLPath req)) eqn:Hroute.
  2:{ left. by rewrite (proj1 (handler_elsewhere _ _ _ _ _ Hroute)). }
  rewrite (handler_taskRequest _ _ _ _ _ Hroute). unfold taskRequest.
  destruct (decide _); [by left|].
  destruct (getTaskDetails _ _) as [[d [e|]]|msg]; try by left.
  destruct (authorise _ _ _ _ _); [|by left].
  right. by rewrite dispatch_tokens.
Qed.

Lemma handler_other_token env req s token :
  token <> sessionToken env (tokenValue req) ->
  tokens (after (handler bcryptMatches floatPercentage env req s)) !! token
  = tokens s !! token.
Proof.
  intros Hne. destruct (handler_tokens env req s) as [-> | ->]; [done|].
  by rewrite lookup_insert_ne.
Qed.

Lemma runTaskStep_tokens theTaskID st s s' :
  runTaskStep theTaskID st s = Returned s' -> tokens s' = tokens s.
Proof.
  destruct st as [result|line|stop saved]; cbn [runTaskStep].
  - fields. by destruct (runningTasks s !! theTaskID); intros [= <-].
  - by intros [= <-].
  - intros [= <-]. unfold finishTask. by destruct saved; fields.
Qed.

(** A turn that leaves a token leaves its entry as it is, unless it is
    a sweep. *)
Lemma advance_token s t s' token :
  leavesToken token t ->
  advance bcryptMatches floatPercentage s t = Some s' ->
  tokens s' !! token
  = match t with
    | Sweeps clock => sweepTokens clock (tokens s) !! token
    | _ => tokens s !! token
    end.
Proof.
  destruct t as [env req|clock|theTaskID st]; cbn [advance leavesToken].
  - intros Hne [= <-]. by apply handler_other_token.
  - by intros _ [= <-].
  - intros _. destruct (runTaskStep theTaskID st s) as [s1|] eqn:Hstep; [|done].
    intros [= <-]. by rewrite (runTaskStep_tokens _ _ _ _ Hstep).
Qed.

Lemma run_token_absent turns : forall s s' token,
  tokens s !! token = None ->
  Forall (leavesToken token) turns ->
  run bcryptMatches floatPercentage s turns = Some s' ->
  tokens s' !! token = None.
Proof.
  induction turns as [|t turns IH]; intros s s' token Habsent Hleave; cbn [run].
  - by intros [= <-].
  - apply Forall_cons in Hleave as [Ht Hleave].
    destruct (advance bcryptMatches floatPercentage s t) as [s1|] eqn:Hstep; [|done].
    apply IH; [|done]. rewrite (advance_token _ _ _ _ Ht Hstep).
    destruct t; [done| |done]. by rewrite sweepTokens_lookup, Habsent.
Qed.

(** Through any sequence of turns that leave it, a token keeps its
    timestamp until the first sweep that comes more than [tokenTimeout]
    seconds after it, and is absent from then on. *)
Lemma run_token turns : forall s s' token timestamp,
  tokens s !! token = Some timestamp ->
  Forall (leavesToken token) turns ->
  Forall (fun clock => 0 <= clock <= Int64.max_int) (sweepClocks turns) ->
  run bcryptMatches floatPercentage s turns = Some s' ->
  tokens s' !! token
  = if decide (Forall (fun clock => clock <= timestamp + tokenTimeout)
                      (sweepClocks turns))
    then Some timestamp else None.
Proof.
  induction turns as [|t turns IH]; intros s s' token timestamp Htok Hleave Hclocks;
    cbn [run].
  - intros [= <-]. by destruct (decide _) as [_|[]].
  - apply Forall_cons in Hleave as [Ht Hleave].
    destruct (advance bcryptMatches floatPercentage s t) as [s1|] eqn:Hstep; [|done].
    intros Hrun. pose proof (advance_token _ _ _ _ Ht Hstep) as Hnext.
    destruct t as [env req|clock|theTaskID st].
    + rewrite Htok in Hnext. by apply (IH s1).
    + cbn [sweepClocks omap list_omap] in Hclocks |- *.
      fold (sweepClocks turns) in Hclocks |- *.
      apply Forall_cons in Hclocks as [Hclock Hclocks].
      rewrite sweepTokens_lookup, Htok, (clock_exact _ Hclock) in Hnext.
      destruct (decide (clock - tokenTimeout > timestamp)) as [Hold|Hyoung].
      * rewrite (run_token_absent _ _ _ _ Hnext Hleave Hrun).
        destruct (decide _) as [[Hle _]%Forall_cons|_]; [lia|done].
      * rewrite (IH s1 s' token timestamp Hnext Hleave Hclocks Hrun).
        destruct (decide (Forall _ (sweepClocks turns))) as [Hall|Hnot];
          destruct (decide (Forall _ (clock :: _))) as [Hall'|Hnot']; try done.
        -- exfalso. apply Hnot'. constructor; [lia|done].
        -- by apply Forall_cons in Hall' as [_ ?].
    + rewrite Htok in Hnext. by apply (IH s1).
Qed.

Lemma sweeperClocks_S n clock :
  sweeperClocks (S n) clock = clock :: sweeperClocks n (clock + tokenCheckPeriod).
Proof.
  unfold sweeperClocks. cbn [seq fmap list_fmap]. f_equal; [lia|].
  rewrite <- fmap_S_seq, <- list_fmap_compose. apply list_fmap_ext.
  intros _ k _. cbn. lia.
Qed.

Lemma sweeperClocks_range n clock :
  0 <= clock -> clock + tokenCheckPeriod * Z.of_nat n <= Int64.max_int ->
  Forall (fun c => 0 <= c <= Int64.max_int) (sweeperClocks n clock).
Proof.
  intros Hclock Hmax. unfold sweeperClocks. apply Forall_fmap, Forall_seq.
  intros k Hk. cbn. unfold tokenCheckPeriod in *. lia.
Qed.

Lemma sweeperClocks_young n clock bound :
  Forall (fun c => c <= bound) (sweeperClocks n clock)
  <-> n = 0%nat \/ clock + tokenCheckPeriod * (Z.of_nat n - 1) <= bound.
Proof.
  unfold sweeperClocks. rewrite Forall_fmap, Forall_seq. cbn.
  unfold tokenCheckPeriod. split.
  - intros H. destruct n as [|n]; [by left|right].
    specialize (H n ltac:(lia)). lia.
  - intros [->|H] k Hk; lia.
Qed.

Lemma run_defined s turns :
  is_Some (run bcryptMatches floatPercentage s turns) ->
  run bcryptMatches floatPercentage s turns
  = Some (default s (run bcryptMatches floatPercentage s turns)).
Proof. by intros [s' ->]. Qed.

(** The first [n] turns of the sweeper's loop are [n] sweeps, at the
    clocks of its schedule. *)
Lemma clearExpiredTokens_run n : forall clock s,
  run bcryptMatches floatPercentage s (Sweeps <$> sweeperClocks n clock)
  = Some (clearExpiredTokens n clock s).
Proof.
  induction n as [|n IH]; intros clock s; [done|].
  rewrite sweeperClocks_S. cbn [fmap list_fmap run advance clearExpiredTokens].
  apply IH.
Qed.

End TokenTurns.

(** C4. The sweep deletes exactly the tokens whose timestamp is more than
    [tokenTimeout] seconds old, and a request changes no entry of the
    token map but that of its own token. So, through any sequence of
    requests, sweeps and goroutine steps in which a token is not used
    again, the token is accepted exactly as long as no sweep has come
    more than [tokenTimeout] seconds after its timestamp. With the
    sweeper taking a turn every [tokenCheckPeriod] seconds from [clock]
    on, that is: after [n] sweeps, exactly when the last of them came no
    later than [tokenTimeout] seconds after the timestamp; the first
    sweep that comes later does so within [tokenCheckPeriod] seconds of
    that moment, and the token is refused from then on. Every authorised
    view, run or API request sets its token's timestamp to the current
    time. *)
Theorem token_lifetime bcryptMatches floatPercentage :
  (forall now toks token,
     0 <= now <= Int64.max_int ->
     sweepTokens now toks !! token
     = match toks !! token with
       | Some timestamp =>
           if decide (now - tokenTimeout > timestamp) then None else Some timestamp
       | None => None
       end)
  /\ (forall env req s token,
        token <> sessionToken env (tokenValue req) ->
        tokens (after (handler bcryptMatches floatPercentage env req s)) !! token
        = tokens s !! token)
  /\ (forall n clock s,
        run bcryptMatches floatPercentage s (Sweeps <$> sweeperClocks n clock)
        = Some (clearExpiredTokens n clock s))
  /\ (forall turns s s' token timestamp secret taskDetails,
        token <> "" ->
        tokens s !! token = Some timestamp ->
        timestamp <> 0 ->
        Forall (leavesToken token) turns ->
        Forall (fun clock => 0 <= clock <= Int64.max_int) (sweepClocks turns) ->
        run bcryptMatches floatPercentage s turns = Some s' ->
        (authorise bcryptMatches (tokens s') token secret taskDetails = Authorised
         <-> Forall (fun clock => clock <= timestamp + tokenTimeout)
                    (sweepClocks turns)))
  /\ (forall n clock turns s s' token timestamp secret taskDetails,
        token <> "" ->
        tokens s !! token = Some timestamp ->
        timestamp <> 0 ->
        Forall (leavesToken token) turns ->
        sweepClocks turns = sweeperClocks n clock ->
        0 <= clock ->
        clock + tokenCheckPeriod * Z.of_nat n <= Int64.max_int ->
        run bcryptMatches floatPercentage s turns = Some s' ->
        (authorise bcryptMatches (tokens s') token secret taskDetails = Authorised
         <-> n = 0%nat
             \/ clock + tokenCheckPeriod * (Z.of_nat n - 1) <= timestamp + tokenTimeout))
  /\ (forall clock timestamp,
        clock <= timestamp + tokenTimeout ->
        exists k : nat,
          timestamp + tokenTimeout < clock + tokenCheckPeriod * Z.of_nat k
          <= timestamp + tokenTimeout + tokenCheckPeriod
          /\ forall turns s s' token secret taskDetails,
               token <> "" ->
               tokens s !! token = Some timestamp ->
               Forall (leavesToken token) turns ->
               sweepClocks turns = sweeperClocks (S k) clock ->
               0 <= clock ->
               clock + tokenCheckPeriod * Z.of_nat (S k) <= Int64.max_int ->
               run bcryptMatches floatPercentage s turns = Some s' ->
               authorise bcryptMatches (tokens s') token secret taskDetails
               = NotAuthorised "invalid or expired token")
  /\ (forall env req s taskDetails,
        taskPath (URLPath req) = true ->
        taskIDValue req <> "" ->
        getTaskDetails (files s) (taskIDValue req) = Returned (taskDetails, None) ->
        authorise bcryptMatches (tokens s) (tokenValue req) (secretValue req) taskDetails
        = Authorised ->
        tokens (after (handler bcryptMatches floatPercentage env req s))
          !! sessionToken env (tokenValue req)
        = Some (currentTimestamp env)).
Proof.
  assert (Hvalid : forall turns s s' token timestamp secret taskDetails,
            token <> "" ->
            tokens s !! token = Some timestamp ->
            Forall (leavesToken token) turns ->
            Forall (fun clock => 0 <= clock <= Int64.max_int) (sweepClocks turns) ->
            run bcryptMatches floatPercentage s turns = Some s' ->
            authorise bcryptMatches (tokens s') token secret taskDetails
            = if decide (Forall (fun clock => clock <= timestamp + tokenTimeout)
                                (sweepClocks turns) /\ timestamp <> 0)
              then Authorised else NotAuthorised "invalid or expired token").
  { intros turns s s' token timestamp secret taskDetails Htoken Htok Hleave Hclocks Hrun.
    rewrite authorise_by_token by done. unfold intAt.
    rewrite (run_token _ _ turns s s' token timestamp Htok Hleave Hclocks Hrun).
    destruct (decide (Forall _ _)) as [Hall|Hnot]; cbn [from_option id].
    - destruct (decide (timestamp = 0)), (decide (_ /\ _)) as [[_ ?]|Hn]; try done.
      by destruct Hn.
    - destruct (decide (0 = 0)); [|done]. by destruct (decide (_ /\ _)) as [[? _]|_]. }
  split; [|split; [|split; [|split; [|split; [|split]]]]].
  - intros now toks token Hnow. by rewrite sweepTokens_lookup, clock_exact.
  - intros env req s token. apply handler_other_token.
  - intros n clock s. apply clearExpiredTokens_run.
  - intros turns s s' token timestamp secret taskDetails Htoken Htok Hts Hleave Hclocks
      Hrun.
    rewrite (Hvalid _ _ _ _ _ secret taskDetails Htoken Htok Hleave Hclocks Hrun).
    destruct (decide (_ /\ _)) as [[Hall _]|Hnot]; [done|].
    split; [done|]. intros Hall. by destruct Hnot.
  - intros n clock turns s s' token timestamp secret taskDetails Htoken Htok Hts Hleave
      Hsweeps Hclock Hmax Hrun.
    rewrite <- sweeperClocks_young, <- Hsweeps.
    pose proof (sweeperClocks_range n clock Hclock Hmax) as Hclocks.
    rewrite <- Hsweeps in Hclocks.
    rewrite (Hvalid _ _ _ _ _ secret taskDetails Htoken Htok Hleave Hclocks Hrun).
    destruct (decide (_ /\ _)) as [[Hall _]|Hnot]; [done|].
    split; [done|]. intros Hall. by destruct Hnot.
  - intros clock timestamp Hclock.
    exists (Z.to_nat ((timestamp + tokenTimeout - clock) / tokenCheckPeriod + 1)).
    assert (Hq : 0 <= (timestamp + tokenTimeout - clock) / tokenCheckPeriod)
      by (apply Z.div_pos; unfold tokenCheckPeriod; lia).
    pose proof (Z.mul_div_le (timestamp + tokenTimeout - clock) tokenCheckPeriod
                  ltac:(done)) as Hlow.
    pose proof (Z.mul_succ_div_gt (timestamp + tokenTimeout - clock) tokenCheckPeriod
                  ltac:(done)) as Hhigh.
    split; [unfold tokenCheckPeriod in *; lia|].
    intros turns s s' token secret taskDetails Htoken Htok Hleave Hsweeps Hc Hmax Hrun.
    pose proof (sweeperClocks_range _ clock Hc Hmax) as Hclocks.
    rewrite <- Hsweeps in Hclocks.
    rewrite (Hvalid _ _ _ _ _ secret taskDetails Htoken Htok Hleave Hclocks Hrun).
    destruct (decide (_ /\ _)) as [[Hall _]|_]; [|done].
    rewrite Hsweeps in Hall. apply sweeperClocks_young in Hall as [?|Hle]; [done|].
    unfold tokenCheckPeriod in *. lia.
  - intros env req s taskDetails Hroute Hid Hdetails Hauth.
    rewrite (handler_authorised _ _ _ _ _ _ Hroute Hid Hdetails Hauth), dispatch_tokens.
    fields. apply lookup_insert_eq.
Qed.

(** A token issued at 1000 and never used again, the sweeper running
    from 990 on while another client calls: accepted after the 11 sweeps
    up to 1590, refused after the twelfth, at 1650. *)
Lemma token_lifetime_witness :
  let s := set_tokens (<["tok" := 1000]>) (initial echoFiles) in
  authorise noMatch
    (tokens (default s (run noMatch wholePercentage s (busyTurns 10)))) "tok" "" ∅
  = Authorised
  /\ authorise noMatch
       (tokens (default s (run noMatch wholePercentage s (busyTurns 11)))) "tok" "" ∅
     <> Authorised.
Proof.
  intros s.
  pose proof (proj1 (proj2 (proj2 (proj2 (proj2 (token_lifetime noMatch wholePercentage))))))
    as H.
  split.
  - apply (H 11%nat 990 (busyTurns 10) s
             (default s (run noMatch wholePercentage s (busyTurns 10))) "tok" 1000 "" ∅).
    + evaluate.
    + evaluate.
    + evaluate.
    + apply (bool_decide_unpack _). by vm_compute.
    + evaluate.
    + evaluate.
    + evaluate.
    + apply run_defined, (bool_decide_unpack _). by vm_compute.
    + right. evaluate.
  - intros Hauth.
    apply (H 12%nat 990 (busyTurns 11) s
             (default s (run noMatch wholePercentage s (busyTurns 11))) "tok" 1000 "" ∅)
      in Hauth as [Hn|Hle].
    + discriminate Hn.
    + revert Hle. evaluate.
    + evaluate.
    + evaluate.
    + evaluate.
    + apply (bool_decide_unpack _). by vm_compute.
    + evaluate.
    + evaluate.
    + evaluate.
    + apply run_defined, (bool_decide_unpack _). by vm_compute.
Defined.

(** * Further properties of the program *)

From Stdlib Require DecimalPos.

(** ** What a request never does *)

Section Frame.

Variable bcryptMatches : string -> string -> bool.
Variable floatPercentage : Z -> Z -> Z.

Lemma keeps_refl s : keeps s s.
Proof. by repeat split. Qed.

Lemma keeps_trans s1 s2 s3 : keeps s1 s2 -> keeps s2 s3 -> keeps s1 s3.
Proof.
  intros (Hf & Hs & Ht & Hr) (Hf' & Hs' & Ht' & Hr'). repeat split.
  - by rewrite Hf', Hf.
  - by rewrite Hs', Hs.
  - auto.
  - auto.
Qed.

Lemma keeps_token s token timestamp :
  keeps s (set_tokens (<[token := timestamp]>) s).
Proof.
  repeat split; fields; try done.
  intros token' H. destruct (decide (token = token')) as [->|Hne].
  - rewrite lookup_insert_eq. by eexists.
  - by rewrite lookup_insert_ne.
Qed.

Lemma apiRunTask_keeps env taskID taskDetails rateLimit s :
  keeps s (after (apiRunTask env taskID taskDetails rateLimit s)).
Proof.
  unfold apiRunTask. destruct (taskIsRunning taskID s) eqn:Hrun; [apply keeps_refl|].
  destruct (decide _); [apply keeps_refl|].
  destruct (_ !! 0%nat) as [name|]; [|apply keeps_refl].
  unfold taskIsRunning in Hrun.
  destruct (runningTasks s !! taskID) eqn:Hlook; [done|].
  assert (Hkeep : forall (c : Cmd) id cmd,
            runningTasks s !! id = Some cmd ->
            <[taskID := c]> (runningTasks s) !! id = Some cmd).
  { intros c id cmd Hid. rewrite lookup_insert_ne; [done|]. intros ->. congruence. }
  fields. destruct (files s !! runTimesPath taskID) as [[?|]|];
    repeat split; try done; intros; by apply Hkeep.
Qed.

Lemma apiGetTaskOutput_keeps env taskID line taskDetails s :
  keeps s (after (apiGetTaskOutput floatPercentage env taskID line taskDetails s)).
Proof.
  unfold apiGetTaskOutput.
  destruct (if decide (line <> "") then _ else _) as [n w].
  destruct (decide (stringAt taskDetails "progress" = "Y"));
    destruct (decide (_ /\ _)); by repeat split.
Qed.

Lemma dispatch_keeps env req token taskDetails rateLimit s :
  keeps s (after (dispatch floatPercentage env req token taskDetails rateLimit s)).
Proof.
  unfold dispatch.
  repeat match goal with
    | |- context [if ?b then _ else _] =>
        lazymatch b with
        | HasPrefix _ _ || HasPrefix _ _ => destruct b
        | HasPrefix _ _ => destruct b
        end
    end;
    auto using apiRunTask_keeps, apiGetTaskOutput_keeps, keeps_refl.
  destruct (files s !! _) as [[?|]|]; apply keeps_refl.
Qed.

Lemma taskRequest_keeps env req s :
  keeps s (after (taskRequest bcryptMatches floatPercentage env req s)).
Proof.
  unfold taskRequest. destruct (decide _); [apply keeps_refl|].
  destruct (getTaskDetails _ _) as [[d [e|]]|msg]; try apply keeps_refl.
  destruct (authorise _ _ _ _ _); [|apply keeps_refl].
  eapply keeps_trans; [apply keeps_token|apply dispatch_keeps].
Qed.

Lemma handler_keeps env req s :
  keeps s (after (handler bcryptMatches floatPercentage env req s)).
Proof.
  destruct (taskPath (URLPath req)) eqn:Hroute.
  - rewrite (handler_taskRequest _ _ _ _ _ Hroute). apply taskRequest_keeps.
  - rewrite (proj1 (handler_elsewhere _ _ _ _ _ Hroute)). apply keeps_refl.
Qed.

Lemma apiRunTask_started env taskID taskDetails rateLimit s id :
  started (apiRunTask env taskID taskDetails rateLimit s) = Some id ->
  id = taskID /\ taskIsRunning id s = false
  /\ taskIsRunning id (after (apiRunTask env taskID taskDetails rateLimit s)) = true
  /\ panic (apiRunTask env taskID taskDetails rateLimit s) = None
  /\ written (apiRunTask env taskID taskDetails rateLimit s) = [Fprintf "OK" []].
Proof.
  unfold apiRunTask. destruct (taskIsRunning taskID s) eqn:Hrun; [done|].
  destruct (decide _); [done|].
  destruct (_ !! 0%nat) as [name|]; [|done].
  intros [= <-]. unfold taskIsRunning. fields.
  destruct (files s !! runTimesPath taskID) as [[?|]|]; fields;
    by rewrite lookup_insert_eq.
Qed.

Lemma dispatch_started env req token taskDetails rateLimit s id :
  started (dispatch floatPercentage env req token taskDetails rateLimit s) = Some id ->
  dispatch floatPercentage env req token taskDetails rateLimit s
  = apiRunTask env (taskIDValue req) taskDetails rateLimit s.
Proof.
  unfold dispatch.
  repeat match goal with
    | |- context [if ?b then _ else _] =>
        lazymatch b with
        | HasPrefix _ _ || HasPrefix _ _ => destruct b
        | HasPrefix _ _ => destruct b
        end
    end; try done.
  - by destruct (files s !! _) as [[?|]|].
  - unfold apiGetTaskOutput.
    destruct (if decide (lineValue req <> "") then _ else _) as [n w].
    destruct (decide (stringAt taskDetails "progress" = "Y"));
      by destruct (decide (_ /\ _)).
Qed.

Lemma handler_started env req s id :
  started (handler bcryptMatches floatPercentage env req s) = Some id ->
  id = taskIDValue req /\ taskIsRunning id s = false
  /\ taskIsRunning id (after (handler bcryptMatches floatPercentage env req s)) = true
  /\ panic (handler bcryptMatches floatPercentage env req s) = None
  /\ written (handler bcryptMatches floatPercentage env req s) = [Fprintf "OK" []].
Proof.
  destruct (taskPath (URLPath req)) eqn:Hroute.
  2:{ by rewrite (proj2 (handler_elsewhere _ _ _ _ _ Hroute)). }
  rewrite (handler_taskRequest _ _ _ _ _ Hroute).
  unfold taskRequest. destruct (decide _); [done|].
  destruct (getTaskDetails _ _) as [[d [e|]]|msg]; try done.
  destruct (authorise _ _ _ _ _); [|done].
  intros H. rewrite (dispatch_started _ _ _ _ _ _ _ H) in H |- *.
  by apply apiRunTask_started in H.
Qed.

Lemma handler_started_named env req s id :
  started (handler bcryptMatches floatPercentage env req s) = Some id ->
  taskIDValue req <> "".
Proof.
  destruct (taskPath (URLPath req)) eqn:Hroute.
  2:{ by rewrite (proj2 (handler_elsewhere _ _ _ _ _ Hroute)). }
  rewrite (handler_taskRequest _ _ _ _ _ Hroute).
  unfold taskRequest. by destruct (decide _).
Qed.

End Frame.

(** X1. No request removes a token, stops or forgets a running Task,
    writes a file or changes a stop time: the state after the handler
    has the files and stop times it found, every token it found and
    every running Task it found. A request starts at most the Task it
    names, only one that was not running, and then answers OK. *)
Theorem request_keeps_tokens_tasks_and_files bcryptMatches floatPercentage env req s :
  keeps s (after (handler bcryptMatches floatPercentage env req s))
  /\ forall id,
       started (handler bcryptMatches floatPercentage env req s) = Some id ->
       id = taskIDValue req /\ taskIsRunning id s = false
       /\ taskIsRunning id (after (handler bcryptMatches floatPercentage env req s)) = true
       /\ panic (handler bcryptMatches floatPercentage env req s) = None
       /\ written (handler bcryptMatches floatPercentage env req s) = [Fprintf "OK" []].
Proof. split; [apply handler_keeps|apply handler_started]. Qed.

(** ** Sequences of events *)

Section EventFacts.

Variable bcryptMatches : string -> string -> bool.
Variable floatPercentage : Z -> Z -> Z.

Lemma runTask_other theTaskID e s s' taskID :
  runTask theTaskID e s = Returned s' ->
  taskID <> theTaskID ->
  runningTasks s' !! taskID = runningTasks s !! taskID.
Proof.
  unfold runTask.
  change (runningTasks (set_taskOutputs _ s)) with (runningTasks s).
  destruct (runningTasks s !! theTaskID); [|done].
  destruct (spawn e); intros [= <-] Hne; try done.
  pose proof (capture_fields theTaskID (reads e)
                (set_taskOutputs (<[theTaskID := []]>) s)) as H.
  cbv zeta in H. destruct H as (_ & Hrun & _).
  change (runningTasks (set_taskOutputs _ s)) with (runningTasks s) in Hrun.
  rewrite <- Hrun. unfold finishTask.
  destruct (historySaved e); fields; by rewrite lookup_delete_ne.
Qed.

(** A Task stays in the running set through every sequence of events
    that holds no run of its own goroutine. *)
Lemma steps_keep_running evs : forall s s' taskID cmd,
  runningTasks s !! taskID = Some cmd ->
  (forall e, Run taskID e ∉ evs) ->
  steps bcryptMatches floatPercentage s evs = Some s' ->
  runningTasks s' !! taskID = Some cmd.
Proof.
  induction evs as [|ev evs IH]; intros s s' taskID cmd Hrun Hno; cbn [steps].
  - by intros [= <-].
  - destruct (step bcryptMatches floatPercentage s ev) as [s1|] eqn:Hstep; [|done].
    apply IH; [|intros e He; apply (Hno e); by right].
    destruct ev as [env req|clock|theTaskID e]; cbn [step] in Hstep.
    + injection Hstep as <-.
      by apply (handler_keeps bcryptMatches floatPercentage env req s).
    + by injection Hstep as <-.
    + destruct (runTask theTaskID e s) as [s2|] eqn:Hr; [|done].
      injection Hstep as <-.
      rewrite (runTask_other _ _ _ _ taskID Hr); [done|].
      intros ->. apply (Hno e). by left.
Qed.

Lemma running_task_is_not_started env req s taskID :
  taskIsRunning taskID s = true ->
  started (handler bcryptMatches floatPercentage env req s) <> Some taskID.
Proof.
  intros Hrun H. apply handler_started in H as (_ & Hidle & _). congruence.
Qed.

End EventFacts.

(** X2. A failed spawn is never undone: once [runTask] has returned on a
    [StdoutPipe] or [Start] error, the Task is in the running set after
    every sequence of requests, sweeper turns and runs of other Tasks,
    and no request starts it again. *)
Theorem failed_spawn_blocks_the_task bcryptMatches floatPercentage theTaskID e s cmd
    evs s' :
  runningTasks s !! theTaskID = Some cmd ->
  spawn e <> Started ->
  (forall e', Run theTaskID e' ∉ evs) ->
  steps bcryptMatches floatPercentage
    (set_taskOutputs (<[theTaskID := []]>) s) evs = Some s' ->
  runTask theTaskID e s = Returned (set_taskOutputs (<[theTaskID := []]>) s)
  /\ taskIsRunning theTaskID s' = true
  /\ forall env req,
       started (handler bcryptMatches floatPercentage env req s') <> Some theTaskID.
Proof.
  intros Hcmd Hspawn Hno Hsteps.
  split; [by eapply runTask_spawn_fails|].
  assert (Hrun : taskIsRunning theTaskID s' = true).
  { unfold taskIsRunning.
    by rewrite (steps_keep_running bcryptMatches floatPercentage evs
                  (set_taskOutputs (<[theTaskID := []]>) s) s' theTaskID cmd
                  Hcmd Hno Hsteps). }
  split; [done|]. intros env req. by apply running_task_is_not_started.
Qed.

Lemma failed_spawn_blocks_the_task_witness :
  exists s',
    steps noMatch wholePercentage (set_taskOutputs (<["job" := []]>) startedMissing)
      [SweeperTurn 1020; Request (mkEnvironment 1030 1031 "t2") (runTaskRequest "job")]
    = Some s'
    /\ taskIsRunning "job" s' = true
    /\ forall env req, started (handler noMatch wholePercentage env req s') <> Some "job".
Proof.
  eexists. split; [reflexivity|].
  refine (proj2 (failed_spawn_blocks_the_task noMatch wholePercentage "job"
    (mkExecution StartError [] 0 true) startedMissing
    (mkCmd "no-such-program" ["no-such-program"; "--flag"] "tasks/job")
    [SweeperTurn 1020; Request (mkEnvironment 1030 1031 "t2") (runTaskRequest "job")]
    _ _ _ _ _)).
  - by vm_compute.
  - done.
  - intros e' H. repeat (apply elem_of_cons in H as [H|H]; [done|]).
    by apply elem_of_nil in H.
  - reflexivity.
Defined.

(** ** Start calls, tokens and polls *)

Section Calls.

Variable bcryptMatches : string -> string -> bool.
Variable floatPercentage : Z -> Z -> Z.

Lemma route_getToken path :
  HasPrefix path "/api/getToken" = true ->
  HasPrefix path "/view" = false /\ HasPrefix path "/run" = false.
Proof. intros [r ->]%HasPrefix_app. split; reflexivity. Qed.

Lemma dispatch_getToken env req token taskDetails rateLimit s :
  HasPrefix (URLPath req) "/api/getToken" = true ->
  dispatch floatPercentage env req token taskDetails rateLimit s
  = mkReply s [Fprintf token []] None None.
Proof.
  intros H. unfold dispatch. destruct (route_getToken _ H) as (-> & ->).
  by rewrite H.
Qed.

Lemma apiRunTask_running env taskID taskDetails rateLimit s :
  taskIsRunning taskID s = true ->
  apiRunTask env taskID taskDetails rateLimit s = mkReply s [Fprintf "OK" []] None None.
Proof. intros H. unfold apiRunTask. by rewrite H. Qed.

End Calls.

(** X3. A start call for a Task that a request has just started spawns
    nothing: it answers OK, starts no goroutine, and leaves the running
    set, the start times, the run-time history and the output buffers as
    they were; only its token is recorded. *)
Theorem second_start_spawns_nothing bcryptMatches floatPercentage env1 req1 s env2 req2
    taskDetails :
  started (handler bcryptMatches floatPercentage env1 req1 s) = Some (taskIDValue req2) ->
  getTaskDetails (files s) (taskIDValue req2) = Returned (taskDetails, None) ->
  authorise bcryptMatches
    (tokens (after (handler bcryptMatches floatPercentage env1 req1 s)))
    (tokenValue req2) (secretValue req2) taskDetails = Authorised ->
  HasPrefix (URLPath req2) "/api/runTask" = true ->
  let s1 := after (handler bcryptMatches floatPercentage env1 req1 s) in
  let r2 := handler bcryptMatches floatPercentage env2 req2 s1 in
  written r2 = [Fprintf "OK" []]
  /\ started r2 = None
  /\ panic r2 = None
  /\ after r2
     = set_tokens (<[sessionToken env2 (tokenValue req2) := currentTimestamp env2]>) s1.
Proof.
  intros Hstarted Hdetails Hauth Hpath s1 r2.
  pose proof (handler_started _ _ _ _ _ _ Hstarted) as (Hid & _ & Hrun & _).
  pose proof (handler_keeps bcryptMatches floatPercentage env1 req1 s) as (Hfiles & _).
  assert (Hne : taskIDValue req2 <> "").
  { rewrite Hid. by apply (handler_started_named _ _ _ _ _ _ Hstarted). }
  subst r2. fold s1 in Hfiles, Hrun, Hauth. rewrite <- Hfiles in Hdetails.
  rewrite (handler_authorised _ _ _ _ _ _ (taskPath_runTask _ Hpath) Hne Hdetails Hauth).
  rewrite dispatch_runTask by done.
  by rewrite apiRunTask_running.
Qed.

Lemma second_start_spawns_nothing_witness :
  let s1 := after (handler noMatch wholePercentage (mkEnvironment 1000 1000 "tok")
                     (runTaskRequest "abc123") (initial echoFiles)) in
  let r2 := handler noMatch wholePercentage (mkEnvironment 1001 1001 "unused")
              (mkRequest "/api/runTask" "abc123" "tok" "" "") s1 in
  written r2 = [Fprintf "OK" []]
  /\ started r2 = None
  /\ panic r2 = None
  /\ after r2 = set_tokens (<["tok" := 1001]>) s1.
Proof.
  apply (second_start_spawns_nothing noMatch wholePercentage
           (mkEnvironment 1000 1000 "tok") (runTaskRequest "abc123") (initial echoFiles)
           (mkEnvironment 1001 1001 "unused")
           (mkRequest "/api/runTask" "abc123" "tok" "" "")
           (detailsOf echoFiles "abc123")).
  - evaluate.
  - apply (detailsOf_returned echoFiles "abc123"). evaluate.
  - evaluate.
  - evaluate.
Defined.

(** X4. A token is not tied to the Task it was issued for. A request
    without token that is authorised by a Task's secret and asks for
    [/api/getToken] is answered with the generated string and records it
    at the current time; from then on a request that carries this string
    as its token is authorised for whatever Task it names and whatever
    secret it carries. *)
Theorem token_opens_every_task bcryptMatches floatPercentage env req s taskDetails :
  taskIDValue req <> "" ->
  getTaskDetails (files s) (taskIDValue req) = Returned (taskDetails, None) ->
  tokenValue req = "" ->
  authorise bcryptMatches (tokens s) "" (secretValue req) taskDetails = Authorised ->
  HasPrefix (URLPath req) "/api/getToken" = true ->
  randomString env <> "" ->
  currentTimestamp env <> 0 ->
  let r := handler bcryptMatches floatPercentage env req s in
  written r = [Fprintf (randomString env) []]
  /\ tokens (after r) = <[randomString env := currentTimestamp env]> (tokens s)
  /\ forall otherSecret otherDetails,
       authorise bcryptMatches (tokens (after r)) (randomString env) otherSecret
         otherDetails = Authorised.
Proof.
  intros Hid Hdetails Htoken Hauth Hpath Hrandom Hnow r. subst r.
  rewrite <- Htoken in Hauth.
  rewrite (handler_authorised _ _ _ _ _ _ (taskPath_getToken _ Hpath) Hid Hdetails Hauth).
  rewrite dispatch_getToken by done. rewrite Htoken. unfold sessionToken.
  destruct (decide ("" = "")); [|done]. fields.
  split; [done|]. split; [done|]. intros otherSecret otherDetails.
  rewrite authorise_by_token by done. unfold intAt.
  rewrite lookup_insert_eq. cbn [from_option id].
  by destruct (decide (currentTimestamp env = 0)).
Qed.

Lemma token_opens_every_task_witness :
  let r := handler noMatch wholePercentage (mkEnvironment 1000 1000 "k3j2h1g0f9e8d7c6")
             (mkRequest "/api/getToken" "open" "" "" "") (initial twoTasks) in
  written r = [Fprintf "k3j2h1g0f9e8d7c6" []]
  /\ authorise noMatch (tokens (after r)) "" "wrong" (detailsOf twoTasks "vault")
     = NotAuthorised "incorrect secret"
  /\ authorise noMatch (tokens (after r)) "k3j2h1g0f9e8d7c6" "wrong"
       (detailsOf twoTasks "vault") = Authorised.
Proof.
  destruct (token_opens_every_task noMatch wholePercentage
                (mkEnvironment 1000 1000 "k3j2h1g0f9e8d7c6")
                (mkRequest "/api/getToken" "open" "" "" "") (initial twoTasks)
                (detailsOf twoTasks "open")) as (Hw & _ & Hall).
  - evaluate.
  - apply (detailsOf_returned twoTasks "open"). evaluate.
  - reflexivity.
  - evaluate.
  - evaluate.
  - evaluate.
  - evaluate.
  - (split; [exact Hw|]). (split; [evaluate|apply Hall]).
Defined.

(** X5. A token the sweeper has deleted no longer authorises, whatever
    secret comes with it: a view, run or API request that carries a token
    whose timestamp was more than [tokenTimeout] seconds old at the last
    sweep is answered [invalid or expired token] and changes nothing,
    even when it also carries the Task's correct secret. *)
Theorem swept_token_is_refused bcryptMatches floatPercentage env req s taskDetails
    clock timestamp :
  taskPath (URLPath req) = true ->
  taskIDValue req <> "" ->
  tokenValue req <> "" ->
  tokens s !! tokenValue req = Some timestamp ->
  0 <= clock <= Int64.max_int ->
  timestamp + tokenTimeout < clock ->
  getTaskDetails (files s) (taskIDValue req) = Returned (taskDetails, None) ->
  handler bcryptMatches floatPercentage env req (set_tokens (sweepTokens clock) s)
  = mkReply (set_tokens (sweepTokens clock) s)
      [Fprintf "ERROR: Not authorised - %s." [StrArg "invalid or expired token"]]
      None None.
Proof.
  intros Hroute Hid Htoken Htok Hclock Hold Hdetails.
  rewrite (handler_taskRequest _ _ _ _ _ Hroute). unfold taskRequest.
  destruct (decide (taskIDValue req = "")); [done|]. fields. rewrite Hdetails.
  rewrite authorise_by_token by done. unfold intAt.
  rewrite sweepTokens_lookup, Htok, clock_exact by done.
  destruct (decide (clock - tokenTimeout > timestamp)); [|lia].
  cbn [from_option id]. by destruct (decide (0 = 0)).
Qed.

Lemma swept_token_is_refused_witness :
  written (handler anyMatch wholePercentage (mkEnvironment 1700 1700 "new")
             (mkRequest "/api/runTask" "job" "tok" "" "")
             (set_tokens (sweepTokens 1650)
                (set_tokens (<["tok" := 1000]>) (initial limitedFiles))))
  = [Fprintf "ERROR: Not authorised - %s." [StrArg "invalid or expired token"]].
Proof.
  rewrite (swept_token_is_refused anyMatch wholePercentage
              (mkEnvironment 1700 1700 "new")
              (mkRequest "/api/runTask" "job" "tok" "" "")
              (set_tokens (<["tok" := 1000]>) (initial limitedFiles))
              (detailsOf limitedFiles "job") 1650 1000).
  - reflexivity.
  - evaluate.
  - evaluate.
  - evaluate.
  - evaluate.
  - evaluate.
  - evaluate.
  - apply (detailsOf_returned limitedFiles "job"). evaluate.
Defined.

Lemma apiGetTaskOutput_cursor floatPercentage env taskID line taskDetails s :
  apiGetTaskOutput floatPercentage env taskID line taskDetails s
  = let s' :=
      if decide (stringAt taskDetails "progress" = "Y") then
        set_taskOutputs
          (<[taskID := linesAt (taskOutputs s) taskID
                         ++ [progressLine (percentageAt floatPercentage env taskID s)]]>) s
      else s in
    let unparsable :=
      if (cursorOf line).2 then [] else [Fprintf "ERROR: Line number not parsable." []] in
    if decide ((cursorOf line).1 < Z.of_nat (length (linesAt (taskOutputs s') taskID))
               /\ (cursorOf line).1 < 0)
    then mkReply s' unparsable None (Some "index out of range")
    else mkReply s'
           (unparsable
            ++ (Fprintln <$> drop (Z.to_nat (cursorOf line).1) (linesAt (taskOutputs s') taskID))
            ++ (if taskIsRunning taskID s' then []
                else (if decide (stringAt taskDetails "progress" = "Y")
                      then [Fprintf ("Progress: Progress 100%%" +:+ newline) []] else [])
                     ++ [Fprintf "ERROR: EOF" []]))
           None None.
Proof.
  unfold apiGetTaskOutput, cursorOf.
  destruct (decide (line <> "")); [by destruct (Atoi line) as [v []]|done].
Qed.

(** X6. For a Task without progress reports a poll only reads: the state
    it leaves differs from the one it found by its token alone. With a
    cursor that is not negative it prints the captured lines from the
    cursor on, none when the cursor is past the end, and then the end
    marker exactly when the Task is not running; a [line] value that is
    not a number is reported and then read as the cursor
    [strconv.Atoi] returned with the error. *)
Theorem poll_without_progress_only_reads bcryptMatches floatPercentage env req s
    taskDetails :
  taskIDValue req <> "" ->
  getTaskDetails (files s) (taskIDValue req) = Returned (taskDetails, None) ->
  authorise bcryptMatches (tokens s) (tokenValue req) (secretValue req) taskDetails
  = Authorised ->
  HasPrefix (URLPath req) "/api/getTaskOutput" = true ->
  stringAt taskDetails "progress" <> "Y" ->
  0 <= (cursorOf (lineValue req)).1 ->
  let r := handler bcryptMatches floatPercentage env req s in
  after r = set_tokens (<[sessionToken env (tokenValue req) := currentTimestamp env]>) s
  /\ panic r = None
  /\ started r = None
  /\ written r
     = (if (cursorOf (lineValue req)).2 then []
        else [Fprintf "ERROR: Line number not parsable." []])
       ++ (Fprintln <$> drop (Z.to_nat (cursorOf (lineValue req)).1)
                          (linesAt (taskOutputs s) (taskIDValue req)))
       ++ (if taskIsRunning (taskIDValue req) s then [] else [Fprintf "ERROR: EOF" []]).
Proof.
  intros Hid Hdetails Hauth Hpath Hprogress Hcursor r. subst r.
  rewrite (handler_authorised _ _ _ _ _ _ (taskPath_getTaskOutput _ Hpath) Hid Hdetails Hauth).
  rewrite dispatch_getTaskOutput by done. rewrite apiGetTaskOutput_cursor. cbv zeta.
  destruct (decide (stringAt taskDetails "progress" = "Y")); [done|].
  destruct (decide (_ /\ _)) as [[_ ?]|_]; [lia|]. by fields.
Qed.

Lemma poll_without_progress_only_reads_witness :
  written (handler noMatch wholePercentage (mkEnvironment 1001 1001 "unused")
             (pollRequest "abc123" "tok" "2") threeLines)
  = [Fprintln "three"; Fprintf "ERROR: EOF" []].
Proof.
  destruct (poll_without_progress_only_reads noMatch wholePercentage
                (mkEnvironment 1001 1001 "unused") (pollRequest "abc123" "tok" "2")
                threeLines (detailsOf echoFiles "abc123")) as (_ & _ & _ & Hw).
  - evaluate.
  - apply (detailsOf_returned echoFiles "abc123"). evaluate.
  - evaluate.
  - evaluate.
  - evaluate.
  - evaluate.
  - rewrite Hw. evaluate.
Defined.

(** X7. A poll with a negative cursor panics as soon as there is a line
    to print: when the Task's buffer is not empty, or when the Task has
    progress reports (the poll has then just appended a line), the
    handler ends in an index out of range after writing nothing. *)
Theorem poll_with_negative_cursor_panics bcryptMatches floatPercentage env req s
    taskDetails n :
  taskIDValue req <> "" ->
  getTaskDetails (files s) (taskIDValue req) = Returned (taskDetails, None) ->
  authorise bcryptMatches (tokens s) (tokenValue req) (secretValue req) taskDetails
  = Authorised ->
  HasPrefix (URLPath req) "/api/getTaskOutput" = true ->
  cursorOf (lineValue req) = (n, true) ->
  n < 0 ->
  stringAt taskDetails "progress" = "Y"
  \/ linesAt (taskOutputs s) (taskIDValue req) <> [] ->
  let r := handler bcryptMatches floatPercentage env req s in
  panic r = Some "index out of range" /\ written r = [] /\ started r = None.
Proof.
  intros Hid Hdetails Hauth Hpath Hcursor Hneg Hlines r. subst r.
  rewrite (handler_authorised _ _ _ _ _ _ (taskPath_getTaskOutput _ Hpath) Hid Hdetails Hauth).
  rewrite dispatch_getTaskOutput by done. rewrite apiGetTaskOutput_cursor. cbv zeta.
  rewrite Hcursor. cbn [fst snd].
  destruct (decide (_ /\ _)) as [_|Hno]; [done|]. exfalso. apply Hno.
  split; [|done].
  destruct (decide (stringAt taskDetails "progress" = "Y")) as [_|Hn]; fields.
  - rewrite linesAt_insert, length_app. cbn [length]. lia.
  - destruct Hlines as [?|Hlines]; [done|].
    destruct (linesAt (taskOutputs s) (taskIDValue req)); [done|cbn [length]; lia].
Qed.

Lemma poll_with_negative_cursor_panics_witness :
  panic (handler noMatch wholePercentage (mkEnvironment 1001 1001 "unused")
           (pollRequest "abc123" "tok" "-1") threeLines)
  = Some "index out of range".
Proof.
  apply (poll_with_negative_cursor_panics noMatch wholePercentage
    (mkEnvironment 1001 1001 "unused") (pollRequest "abc123" "tok" "-1") threeLines
    (detailsOf echoFiles "abc123") (-1)).
  - evaluate.
  - apply (detailsOf_returned echoFiles "abc123"). evaluate.
  - evaluate.
  - evaluate.
  - evaluate.
  - evaluate.
  - right. evaluate.
Defined.

(** ** What a completed run leaves *)

Section Capture.

Lemma Split_no_sep s sep : Forall (fun l => hasByte sep l = false) (Split s sep).
Proof.
  induction s as [|c s IH]; cbn [Split]; [by repeat constructor|].
  destruct (Ascii.eqb c sep) eqn:E; [by constructor|].
  destruct (Split s sep) as [|h t]; [by repeat constructor; cbn; rewrite E|].
  apply Forall_cons in IH as [Hh Ht]. constructor; [|done].
  cbn [hasByte]. by rewrite E, Hh.
Qed.

Lemma keptLines_spec chunk :
  Forall (fun l => TrimSpace l <> "" /\ hasByte LF l = false) (keptLines chunk).
Proof.
  unfold keptLines. apply Forall_forall. intros l [Hl Hin]%list_elem_of_filter.
  split; [done|].
  by apply (proj1 (Forall_forall _ _) (Split_no_sep chunk LF)).
Qed.

Lemma capturedLines_spec chunks :
  Forall (fun l => TrimSpace l <> "" /\ hasByte LF l = false) (capturedLines chunks).
Proof.
  unfold capturedLines. induction chunks as [|chunk chunks IH]; [constructor|].
  cbn [flat_map]. apply Forall_app. split; [apply keptLines_spec|done].
Qed.

Lemma capture_outputs theTaskID chunks : forall s,
  linesAt (taskOutputs
             (foldl (fun s chunk =>
                       set_taskOutputs
                         (<[theTaskID :=
                              captureOutput chunk (linesAt (taskOutputs s) theTaskID)]>) s)
                    s chunks)) theTaskID
  = linesAt (taskOutputs s) theTaskID ++ capturedLines chunks.
Proof.
  induction chunks as [|chunk chunks IH]; intros s; cbn [foldl capturedLines flat_map].
  - by rewrite app_nil_r.
  - rewrite IH. fields. rewrite linesAt_insert. unfold captureOutput.
    by rewrite <- app_assoc.
Qed.

Lemma finishTask_fields theTaskID e s :
  taskOutputs (finishTask theTaskID e s) = taskOutputs s
  /\ taskStopTimes (finishTask theTaskID e s) !! theTaskID = Some (stopTimestamp e)
  /\ tokens (finishTask theTaskID e s) = tokens s
  /\ (historySaved e = true ->
      files (finishTask theTaskID e s) !! runTimesPath theTaskID
      = Some (Readable (formatRunTimes
                          (linesAt (taskRunTimes (finishTask theTaskID e s)) theTaskID))))
  /\ (historySaved e = false -> files (finishTask theTaskID e s) = files s).
Proof.
  unfold finishTask. destruct (historySaved e); fields;
    rewrite ?linesAt_insert, ?lookup_insert_eq; by repeat split.
Qed.

End Capture.

(** ** The history file *)

Section RunTimesFile.

Lemma numeralValue_acc d : forall p,
  numeralValue (Z.pos p) d = Z.pos (Pos.of_uint_acc d p).
Proof.
  induction d as [|d IH|d IH|d IH|d IH|d IH|d IH|d IH|d IH|d IH|d IH]; intros p;
    cbn [numeralValue Pos.of_uint_acc]; [done|..];
    rewrite <- IH; f_equal; lia.
Qed.

Lemma numeralValue_0 d : numeralValue 0 d = Z.of_N (Pos.of_uint d).
Proof.
  induction d as [|d IH|d IH|d IH|d IH|d IH|d IH|d IH|d IH|d IH|d IH];
    cbn [numeralValue Pos.of_uint]; [done|exact IH|..];
    cbn [Z.of_N]; rewrite <- numeralValue_acc; f_equal.
Qed.

Lemma numeralValue_ge d : forall acc, 0 <= acc -> acc <= numeralValue acc d.
Proof.
  induction d as [|d IH|d IH|d IH|d IH|d IH|d IH|d IH|d IH|d IH|d IH]; intros acc Hacc;
    cbn [numeralValue]; [lia|..];
    (etransitivity; [|apply IH; lia]); lia.
Qed.

Lemma scanDigits_numeral d : forall acc,
  0 <= acc ->
  numeralValue acc d <= maxUint64 ->
  scanDigits acc (NilEmpty.string_of_uint d) = Value (numeralValue acc d).
Proof.
  assert (Hcut : maxUint64 / 10 + 1 = 1844674407370955162) by reflexivity.
  assert (Hmax : maxUint64 = 18446744073709551615) by reflexivity.
  induction d as [|d IH|d IH|d IH|d IH|d IH|d IH|d IH|d IH|d IH|d IH]; intros acc Hacc Hle;
    cbn [numeralValue NilEmpty.string_of_uint scanDigits] in *; [done|..];
    match goal with
    | H : numeralValue ?a d <= _ |- _ =>
        pose proof (numeralValue_ge d a ltac:(lia)) as Hge
    end;
    match goal with
    | |- context [digit ?c] => change (digit c) with (Some (Z.of_N (byte c) - 48))
    end;
    cbn [byte N_of_ascii N_of_digits Z.of_N] ;
    rewrite Hcut;
    (destruct (Z.leb_spec 1844674407370955162 acc); [lia|]);
    match goal with
    | |- context [?m <? ?v] => destruct (Z.ltb_spec m v); [lia|]
    end;
    rewrite <- IH by lia; f_equal; lia.
Qed.

Lemma string_of_uint_digits d : hasByte LF (NilEmpty.string_of_uint d) = false.
Proof.
  induction d as [|d IH|d IH|d IH|d IH|d IH|d IH|d IH|d IH|d IH|d IH];
    cbn [NilEmpty.string_of_uint hasByte]; [done|..]; exact IH.
Qed.

Lemma string_of_uint_pos p :
  NilZero.string_of_uint (Pos.to_uint p) = NilEmpty.string_of_uint (Pos.to_uint p)
  /\ exists c r, NilEmpty.string_of_uint (Pos.to_uint p) = String c r
                 /\ c <> "-"%char /\ c <> "+"%char.
Proof.
  pose proof (DecimalPos.Unsigned.to_uint_nonnil p) as Hnil.
  destruct (Pos.to_uint p); [done|..]; (split; [done|]);
    cbn [NilEmpty.string_of_uint]; by eexists _, _.
Qed.

(** [strconv.Atoi] reads back what [strconv.FormatInt] prints. *)
Lemma Atoi_FormatInt z : Int64.in_range z -> Atoi (FormatInt z) = (z, true).
Proof.
  unfold Int64.in_range, Int64.min_int, Int64.max_int. intros Hz.
  assert (Hmax : maxUint64 = 18446744073709551615) by reflexivity.
  destruct z as [|p|p]; [reflexivity|..]; unfold FormatInt;
    cbn [Z.to_int NilZero.string_of_int];
    destruct (string_of_uint_pos p) as (-> & c & r & Hs & Hminus & Hplus);
    assert (Hscan : scanDigits 0 (NilEmpty.string_of_uint (Pos.to_uint p))
                    = Value (Z.pos p))
      by (rewrite scanDigits_numeral;
          rewrite ?numeralValue_0, ?DecimalPos.Unsigned.of_to; cbn [Z.of_N];
          [done|lia|lia]).
  - unfold Atoi.
    assert (Hsign : match NilEmpty.string_of_uint (Pos.to_uint p) with
                    | String "-" r0 => (true, r0)
                    | String "+" r0 => (false, r0)
                    | _ => (false, NilEmpty.string_of_uint (Pos.to_uint p))
                    end = (false, NilEmpty.string_of_uint (Pos.to_uint p))).
    { rewrite Hs. clear -Hminus Hplus.
      destruct c as [[] [] [] [] [] [] [] []]; try reflexivity; congruence. }
    rewrite Hsign, Hscan. rewrite Hs at 1.
    destruct (Z.leb_spec (2 ^ 63) (Z.pos p)); [lia|]. reflexivity.
  - unfold Atoi. rewrite Hscan. rewrite Hs at 1.
    cbn [negb andb].
    destruct (Z.ltb_spec (2 ^ 63) (Z.pos p)); [lia|]. reflexivity.
Qed.

Lemma FormatInt_no_LF z : hasByte LF (FormatInt z) = false.
Proof.
  destruct z as [|p|p]; [reflexivity|..]; unfold FormatInt;
    cbn [Z.to_int NilZero.string_of_int];
    destruct (string_of_uint_pos p) as (-> & _);
    [|cbn [hasByte]]; apply string_of_uint_digits.
Qed.

Lemma Split_at_sep a sep b :
  hasByte sep a = false -> Split (a +:+ String sep b) sep = a :: Split b sep.
Proof.
  induction a as [|c a IH]; cbn [hasByte].
  - intros _. rewrite app_empty_l. cbn [Split]. by rewrite Ascii.eqb_refl.
  - intros [Hc Ha]%orb_false_elim. rewrite app_cons. cbn [Split].
    by rewrite Hc, (IH Ha).
Qed.

Lemma Split_without_sep a sep : hasByte sep a = false -> Split a sep = [a].
Proof.
  induction a as [|c a IH]; cbn [hasByte Split]; [done|].
  intros [Hc Ha]%orb_false_elim. by rewrite Hc, (IH Ha).
Qed.

Lemma Split_formatRunTimes x l :
  Split (formatRunTimes (x :: l)) LF = FormatInt <$> (x :: l).
Proof.
  revert x. induction l as [|y l IH]; intros x.
  - cbn [formatRunTimes fmap list_fmap]. apply Split_without_sep, FormatInt_no_LF.
  - change (formatRunTimes (x :: y :: l))
      with (FormatInt x +:+ newline +:+ formatRunTimes (y :: l)).
    unfold newline. rewrite app_cons, app_empty_l.
    rewrite Split_at_sep by apply FormatInt_no_LF. by rewrite IH.
Qed.

Lemma parse_formatted l :
  Forall Int64.in_range l ->
  omap (fun t => let '(v, ok) := Atoi t in if ok then Some v else None)
       (FormatInt <$> l) = l.
Proof.
  induction 1 as [|y l' Hy _ IH]; [done|].
  cbn [fmap list_fmap omap list_omap]. rewrite (Atoi_FormatInt y Hy).
  cbn [fmap list_fmap] in IH. by rewrite IH.
Qed.

Lemma parseRunTimes_formatRunTimes l :
  Forall Int64.in_range l -> parseRunTimes (formatRunTimes l) = l.
Proof.
  intros Hl. destruct l as [|x l]; [reflexivity|].
  unfold parseRunTimes. rewrite Split_formatRunTimes. by apply parse_formatted.
Qed.

Lemma wrap64_in_range z : Int64.in_range (Int64.wrap64 z).
Proof.
  unfold Int64.in_range, Int64.wrap64, Int64.min_int, Int64.max_int, Int64.modulus.
  pose proof (Z.mod_pos_bound (z + 2 ^ 63) (2 ^ 64) ltac:(lia)). lia.
Qed.

Lemma trimRunTimes_Forall (P : Z -> Prop) l : Forall P l -> Forall P (trimRunTimes l).
Proof.
  funelim (trimRunTimes l); [|done].
  intros Hl. apply H. unfold slice. by apply Forall_take, Forall_drop.
Qed.

End RunTimesFile.

(** X9. The history file is read back as it was written. For every list
    of run times within [int64], what a start reads from the text a run
    writes is that list; so after a completed run that could write
    [runTimes.txt], the next start of the Task finds in the file the
    history the run left in memory. *)
Theorem history_file_round_trip theTaskID e s cmd :
  runningTasks s !! theTaskID = Some cmd ->
  spawn e = Started ->
  historySaved e = true ->
  Forall Int64.in_range (linesAt (taskRunTimes s) theTaskID) ->
  (forall l, Forall Int64.in_range l -> parseRunTimes (formatRunTimes l) = l)
  /\ exists s',
       runTask theTaskID e s = Returned s'
       /\ loadedRunTimes (files s') theTaskID = linesAt (taskRunTimes s') theTaskID.
Proof.
  intros Hcmd Hspawn Hsaved Hold. split; [apply parseRunTimes_formatRunTimes|].
  destruct (runTask_completes theTaskID e s cmd Hcmd Hspawn) as (s' & Hrun & Htimes & _).
  exists s'. split; [done|].
  assert (Hfile : files s' !! runTimesPath theTaskID
                  = Some (Readable (formatRunTimes (linesAt (taskRunTimes s') theTaskID)))).
  { revert Hrun. unfold runTask.
    change (runningTasks (set_taskOutputs _ s)) with (runningTasks s).
    rewrite Hcmd, Hspawn. intros [= <-].
    by apply finishTask_fields. }
  unfold loadedRunTimes. rewrite Hfile. apply parseRunTimes_formatRunTimes.
  unfold linesAt at 1. rewrite Htimes. cbn [from_option id].
  apply trimRunTimes_Forall. unfold sortSlice.
  rewrite (merge_sort_Permutation Z.le). apply Forall_app. split; [done|].
  constructor; [apply wrap64_in_range|constructor].
Qed.

Lemma history_file_round_trip_witness :
  parseRunTimes (formatRunTimes [-2; 0; 15; 9223372036854775807])
  = [-2; 0; 15; 9223372036854775807]
  /\ exists s',
       runTask "job" (mkExecution Started [] 1010 true) nineRuns = Returned s'
       /\ loadedRunTimes (files s') "job" = linesAt (taskRunTimes s') "job".
Proof.
  destruct (history_file_round_trip "job" (mkExecution Started [] 1010 true) nineRuns
              (mkCmd "sleep" ["sleep"; "9"] "tasks/job") eq_refl eq_refl eq_refl)
    as (Hround & Hrun).
  - unfold Int64.in_range, Int64.min_int, Int64.max_int.
    repeat constructor; by vm_compute.
  - split; [|exact Hrun]. apply Hround.
    unfold Int64.in_range, Int64.min_int, Int64.max_int.
    repeat constructor; by vm_compute.
Defined.

(** ** What a config file sets *)

Section ConfigEntries.

Lemma SplitN_first sep text :
  hasByte sep text = true ->
  SplitN text sep 2 = [beforeFirst sep text; afterFirst sep text].
Proof.
  induction text as [|c text IH]; cbn [hasByte SplitN beforeFirst afterFirst]; [done|].
  destruct (Ascii.eqb c sep); cbn [orb]; [by destruct text|].
  intros H. by rewrite (IH H).
Qed.

Lemma readConfig_entries lines : forall taskDetails,
  Forall (fun text => hasByte ":" text = true) lines ->
  readConfig lines taskDetails
  = Returned (list_to_map (reverse (entryOf <$> lines)) ∪ taskDetails).
Proof.
  induction lines as [|text lines IH]; intros taskDetails Hall; cbn [readConfig].
  - cbn. by rewrite (left_id_L ∅ (∪)).
  - apply Forall_cons in Hall as [Htext Hall].
    rewrite (SplitN_first _ _ Htext), (IH _ Hall). f_equal.
    cbn [fmap list_fmap]. rewrite reverse_cons, list_to_map_app.
    rewrite <- (assoc_L (∪)). f_equal. cbn [list_to_map foldr entryOf].
    unfold entryOf. cbn [fst snd uncurry].
    by rewrite insert_union_singleton_l, insert_empty.
Qed.

End ConfigEntries.

(** X10. A config file whose delivered lines all hold a colon is read as
    a list of entries, each the trimmed text before the line's first
    colon and the trimmed text after it (later colons stay in the
    value). An entry replaces the entries of the same key on earlier
    lines and the default of that key; a key no line names keeps its
    default. *)
Theorem getTaskDetails_entries fs theTaskID content :
  fs !! configPath theTaskID = Some (Readable content) ->
  Forall (fun text => hasByte ":" text = true) (scanLines content) ->
  exists taskDetails,
    getTaskDetails fs theTaskID = Returned (taskDetails, None)
    /\ taskDetails
       = list_to_map (reverse (entryOf <$> scanLines content)) ∪ defaultDetails theTaskID
    /\ (forall earlier text,
          scanLines content = earlier ++ [text] ->
          taskDetails !! (entryOf text).1 = Some (entryOf text).2)
    /\ (forall key,
          (forall text, text ∈ scanLines content -> (entryOf text).1 <> key) ->
          taskDetails !! key = defaultDetails theTaskID !! key).
Proof.
  intros Hfile Hall. eexists. unfold getTaskDetails.
  rewrite Hfile, (readConfig_entries _ _ Hall). split; [done|]. split; [done|]. split.
  - intros earlier text ->. rewrite fmap_app, reverse_app. cbn.
    apply lookup_union_Some_l. destruct (entryOf text) as [k v]. apply lookup_insert_eq.
  - intros key Hkey. apply lookup_union_r. apply not_elem_of_list_to_map.
    intros (entry & -> & Hin)%list_elem_of_fmap.
    apply elem_of_reverse, list_elem_of_fmap in Hin as (text & -> & Hin).
    by apply (Hkey text).
Qed.

Lemma getTaskDetails_entries_witness :
  exists taskDetails,
    getTaskDetails overridingConfig "job" = Returned (taskDetails, None)
    /\ taskDetails !! "title" = Some "Second"
    /\ taskDetails !! "command" = Some "echo a:b"
    /\ taskDetails !! "public" = Some "N".
Proof.
  destruct (getTaskDetails_entries overridingConfig "job"
              ("title: First" +:+ newline +:+ " command :echo a:b " +:+ newline
               +:+ "title:Second") eq_refl)
    as (taskDetails & Hread & Heq & Hlast & Hdefault).
  - repeat constructor.
  - exists taskDetails. split; [done|]. split; [|split].
    + apply (Hlast ["title: First"; " command :echo a:b "] "title:Second"). reflexivity.
    + rewrite Heq. reflexivity.
    + rewrite (Hdefault "public"); [reflexivity|].
      intros text Hin. repeat (apply elem_of_cons in Hin as [->|Hin]; [by vm_compute|]).
      by apply elem_of_nil in Hin.
Defined.

(** ** The list of Tasks *)

Section TaskList.

Lemma loadTasks_all fs taskIDs : forall tasks taskList,
  Forall2 (fun taskID task => getTaskDetails fs taskID = Returned (task, None))
          taskIDs tasks ->
  loadTasks fs taskIDs taskList = Returned (taskList ++ tasks, None).
Proof.
  induction taskIDs as [|taskID taskIDs IH]; intros tasks taskList H.
  - apply Forall2_nil_inv_l in H as ->. by rewrite app_nil_r.
  - apply Forall2_cons_inv_l in H as (task & tasks' & Htask & Hrest & ->).
    cbn [loadTasks]. rewrite Htask, (IH _ _ Hrest). by rewrite <- app_assoc.
Qed.

Lemma loadTasks_first_failure fs before taskID after : forall tasks taskList,
  Forall2 (fun taskID task => getTaskDetails fs taskID = Returned (task, None))
          before tasks ->
  loadTasks fs (before ++ taskID :: after) taskList
  = match getTaskDetails fs taskID with
    | Panicked msg => Panicked msg
    | Returned (taskDetails, None) =>
        loadTasks fs after (taskList ++ tasks ++ [taskDetails])
    | Returned (_, Some taskErr) => Returned (taskList ++ tasks, Some taskErr)
    end.
Proof.
  induction before as [|b before IH]; intros tasks taskList H.
  - apply Forall2_nil_inv_l in H as ->. cbn [app loadTasks]. by rewrite app_nil_r.
  - apply Forall2_cons_inv_l in H as (task & tasks' & Htask & Hrest & ->).
    cbn [app loadTasks]. rewrite Htask, (IH _ _ Hrest).
    destruct (getTaskDetails fs taskID) as [[d [e|]]|]; by rewrite <- ?app_assoc.
Qed.

Lemma foldl_members taskList : forall acc,
  foldl (fun taskListString task =>
           if decide (stringAt task "public" = "Y")
           then ((((taskListString +:+ String quote "") +:+ stringAt task "taskID")
                  +:+ String quote (String ":" (String quote "")))
                 +:+ stringAt task "title") +:+ String quote ","
           else taskListString)
        acc taskList
  = acc +:+ members (filter isPublic taskList).
Proof.
  induction taskList as [|task taskList IH]; intros acc; cbn [foldl].
  - by rewrite app_empty_r.
  - rewrite IH. unfold filter; cbn [list_filter]. fold (filter isPublic taskList).
    unfold isPublic at 2. destruct (decide (stringAt task "public" = "Y")); [|done].
    cbn [members]. unfold jsonMember. by rewrite !app_assoc'.
Qed.

Lemma members_joinComma task rest :
  members (task :: rest) = joinComma (jsonMember <$> task :: rest) +:+ ",".
Proof.
  revert task. induction rest as [|t rest IH]; intros task.
  - cbn. by rewrite app_empty_r.
  - cbn [members] in *. rewrite IH. cbn [fmap list_fmap joinComma].
    fold (list_fmap _ _ jsonMember rest).
    by rewrite !app_assoc'.
Qed.

Lemma substring_prefix a b : String.substring 0 (String.length a) (a +:+ b) = a.
Proof.
  induction a as [|c a IH]; [by destruct b|]. rewrite app_cons. cbn. by rewrite IH.
Qed.

Lemma length_app a b :
  String.length (a +:+ b) = (String.length a + String.length b)%nat.
Proof. induction a as [|c a IH]; [done|]. rewrite app_cons. cbn. by rewrite IH. Qed.

Lemma sliceTo_last a c :
  sliceTo (a +:+ String c "") (Z.of_nat (String.length (a +:+ String c "")) - 1)
  = Returned a.
Proof.
  unfold sliceTo. rewrite length_app. cbn [String.length].
  destruct (decide _) as [_|H]; [|lia].
  replace (Z.to_nat _) with (String.length a) by lia. by rewrite substring_prefix.
Qed.

End TaskList.

(** X11. When the Tasks folder can be listed and every name in it is a
    Task whose configuration is read without error, the public Task list
    call answers with one JSON object: a member, Task ID and title in
    quotes, for each Task whose [public] value is exactly Y, in the
    order of the listing, with a comma between each two and none after
    the last; it is the empty object when no Task is public. *)
Theorem public_task_list_is_the_public_tasks fs taskIDs tasks :
  Forall2 (fun taskID task => getTaskDetails fs taskID = Returned (task, None))
          taskIDs tasks ->
  apiGetPublicTaskList fs (Some taskIDs)
  = Returned
      [Fprintf ("{" +:+ joinComma (jsonMember <$> filter isPublic tasks) +:+ "}") []].
Proof.
  intros H. unfold apiGetPublicTaskList, getTaskList.
  rewrite (loadTasks_all _ _ _ _ H). cbn [app].
  unfold publicTaskListString. rewrite foldl_members.
  destruct (filter isPublic tasks) as [|task rest].
  - cbn [members fmap list_fmap joinComma]. by rewrite app_empty_r.
  - rewrite members_joinComma. destruct (decide _) as [Heq|_].
    + exfalso. apply (f_equal String.length) in Heq. rewrite !length_app in Heq.
      cbn [String.length] in Heq. lia.
    + rewrite <- app_assoc', sliceTo_last. by rewrite app_assoc'.
Qed.

Lemma public_task_list_is_the_public_tasks_witness :
  apiGetPublicTaskList threeTasks (Some ["a"; "b"; "c"])
  = Returned
      [Fprintf ("{" +:+ String quote "a" +:+ String quote ":" +:+ String quote "Alpha"
                +:+ String quote "," +:+ String quote "c" +:+ String quote ":"
                +:+ String quote "Gamma" +:+ String quote "}") []].
Proof.
  pose (details taskID :=
          match getTaskDetails threeTasks taskID with
          | Returned (task, _) => task
          | Panicked _ => ∅
          end).
  rewrite (public_task_list_is_the_public_tasks threeTasks ["a"; "b"; "c"]
             (details <$> ["a"; "b"; "c"])).
  - by vm_compute.
  - repeat constructor.
Defined.

(** X12. The Task list is all or nothing: the first name in the Tasks
    folder whose configuration is not read decides the whole answer of
    the public Task list call. When it has no configuration file, or the
    file cannot be opened, the answer is that error alone and no Task is
    listed, public or not; when a line of its file holds no colon the
    handler panics. The names after it are not looked at. *)
Theorem public_task_list_fails_with_one_task fs before tasks taskID after :
  Forall2 (fun taskID task => getTaskDetails fs taskID = Returned (task, None))
          before tasks ->
  (fs !! configPath taskID = None ->
   apiGetPublicTaskList fs (Some (before ++ taskID :: after))
   = Returned [Fprintf "ERROR: Invalid taskID" []])
  /\ (fs !! configPath taskID = Some Unreadable ->
      apiGetPublicTaskList fs (Some (before ++ taskID :: after))
      = Returned [Fprintf "ERROR: Can't open Task config file." []])
  /\ (forall content,
        fs !! configPath taskID = Some (Readable content) ->
        Exists (fun text => hasByte ":" text = false) (scanLines content) ->
        apiGetPublicTaskList fs (Some (before ++ taskID :: after))
        = Panicked "index out of range [1] with length 1").
Proof.
  intros Hbefore. unfold apiGetPublicTaskList, getTaskList.
  rewrite (loadTasks_first_failure _ _ _ _ _ [] Hbefore). unfold getTaskDetails.
  split; [|split].
  - by intros ->.
  - by intros ->.
  - intros content -> Hline. by rewrite (readConfig_panics _ _ Hline).
Qed.

Lemma public_task_list_fails_with_one_task_witness :
  apiGetPublicTaskList strayFolder (Some ["a"; "img"; "z"])
  = Returned [Fprintf "ERROR: Invalid taskID" []].
Proof.
  pose (details taskID :=
          match getTaskDetails strayFolder taskID with
          | Returned (task, _) => task
          | Panicked _ => ∅
          end).
  apply (public_task_list_fails_with_one_task strayFolder ["a"] [details "a"] "img" ["z"]).
  - repeat constructor.
  - reflexivity.
Defined.

(** ** The argument vector of any command line *)

Section Fields.

Lemma beforeFirst_no_sep sep s : hasByte sep (beforeFirst sep s) = false.
Proof.
  induction s as [|c s IH]; [done|]. cbn [beforeFirst].
  destruct (Ascii.eqb c sep) eqn:E; [done|]. cbn [hasByte]. by rewrite E, IH.
Qed.

Lemma parseStep_first s :
  hasByte " " (parseStep s).1 = false \/ hasByte quote (parseStep s).1 = false.
Proof.
  unfold parseStep. destruct (HasPrefix _ _).
  - right. destruct (hasByte quote (tail (TrimSpace s))) eqn:E.
    + rewrite (SplitN_first _ _ E). apply beforeFirst_no_sep.
    + by rewrite (SplitN_no_sep _ _ E).
  - left. destruct (hasByte " " (TrimSpace s)) eqn:E.
    + rewrite (SplitN_first _ _ E). apply beforeFirst_no_sep.
    + by rewrite (SplitN_no_sep _ _ E).
Qed.

Lemma parseLoop_spec n : forall s result,
  (String.length s <= n)%nat ->
  exists fields,
    parseLoop s result = result ++ fields
    /\ (fields = [] <-> s = "")
    /\ (length fields <= String.length s)%nat
    /\ Forall (fun f => hasByte " " f = false \/ hasByte quote f = false) fields.
Proof.
  induction n as [|n IH]; intros s result Hlen.
  - destruct s; [|cbn [String.length] in Hlen; lia]. exists []. simp parseLoop.
    by rewrite app_nil_r.
  - destruct s as [|c r].
    + exists []. simp parseLoop. by rewrite app_nil_r.
    + pose proof (parseStep_shrinks c r) as Hshrink. simp parseLoop.
      destruct (IH (parseStep (String c r)).2 (result ++ [(parseStep (String c r)).1]))
        as (fields & -> & _ & Hcount & Hfields); [cbn [String.length] in *; lia|].
      exists ((parseStep (String c r)).1 :: fields). rewrite <- app_assoc.
      split; [done|]. split; [done|]. split; [cbn [length String.length] in *; lia|].
      constructor; [apply parseStep_first|done].
Qed.

Lemma parseCommandString_empty s : parseCommandString s = [] <-> s = "".
Proof.
  unfold parseCommandString.
  destruct (parseLoop_spec (String.length s) s []) as (fields & -> & H & _); [done|].
  by rewrite app_nil_l.
Qed.

End Fields.

(** X13. On every string, whatever its bytes: [parseCommandString]
    returns the empty vector for the empty string only; it returns no
    more fields than the string has bytes; and each field it returns
    holds no space (an unquoted field) or holds no double quote (a
    quoted one). *)
Theorem parseCommandString_any_line s :
  (parseCommandString s = [] <-> s = "")
  /\ (length (parseCommandString s) <= String.length s)%nat
  /\ Forall (fun f => hasByte " " f = false \/ hasByte quote f = false)
            (parseCommandString s).
Proof.
  unfold parseCommandString.
  destruct (parseLoop_spec (String.length s) s []) as (fields & -> & H); [done|].
  by rewrite app_nil_l.
Qed.

(** X14. An authorised start call for a Task that is not running and is
    past its rate limit panics, with index out of range, exactly when
    the Task's command is the empty string, which is also what a config
    file without a command line gives. With any other command the call
    answers OK and hands the Task over to be run, the first field of the
    command being the program. *)
Theorem start_panics_exactly_without_command
    bcryptMatches floatPercentage env req s taskDetails :
  startCall bcryptMatches env req s taskDetails ->
  rateLimitOf taskDetails
  <= Int64.sub (currentTimestamp env) (intAt (taskStopTimes s) (taskIDValue req)) ->
  let r := handler bcryptMatches floatPercentage env req s in
  (panic r = Some indexOutOfRange0 <-> stringAt taskDetails "command" = "")
  /\ (stringAt taskDetails "command" <> "" ->
      panic r = None /\ written r = [Fprintf "OK" []]
      /\ started r = Some (taskIDValue req)
      /\ exists name args,
           parseCommandString (stringAt taskDetails "command") = name :: args
           /\ runningTasks (after r) !! taskIDValue req
              = Some (mkCmd name (name :: args) ("tasks/" +:+ taskIDValue req))).
Proof.
  intros Hcall Hge r. subst r.
  rewrite (startCall_handler bcryptMatches floatPercentage _ _ _ _ Hcall).
  destruct Hcall as (_ & _ & _ & _ & Hrun).
  assert (Hrun' : taskIsRunning (taskIDValue req)
                    (set_tokens
                       (<[sessionToken env (tokenValue req) := currentTimestamp env]>) s)
                  = false) by done.
  destruct (parseCommandString (stringAt taskDetails "command"))
    as [|name args] eqn:Hcmd.
  - rewrite (apiRunTask_empty _ _ _ _ _ Hrun' Hge Hcmd). cbn [panic].
    apply parseCommandString_empty in Hcmd. by split.
  - rewrite (apiRunTask_start _ _ _ _ _ name args Hrun' Hge Hcmd).
    cbn [panic written started after runningTasks].
    assert (Hne : stringAt taskDetails "command" <> "").
    { intros H%parseCommandString_empty. congruence. }
    split; [by split|]. intros _. repeat split; try done.
    exists name, args. split; [done|]. apply lookup_insert_eq.
Qed.

Lemma start_panics_exactly_without_command_witness :
  let r := handler noMatch wholePercentage (mkEnvironment 1010 1010 "tok")
             (runTaskRequest "abc123") (initial echoFiles) in
  panic r = None /\ written r = [Fprintf "OK" []] /\ started r = Some "abc123".
Proof.
  assert (Hcall : startCall noMatch (mkEnvironment 1010 1010 "tok")
                    (runTaskRequest "abc123") (initial echoFiles)
                    (detailsOf echoFiles "abc123")).
  { split; [evaluate|]. split; [apply (detailsOf_returned echoFiles "abc123")|];
      repeat split; evaluate. }
  destruct (start_panics_exactly_without_command noMatch wholePercentage
              (mkEnvironment 1010 1010 "tok") (runTaskRequest "abc123")
              (initial echoFiles) (detailsOf echoFiles "abc123") Hcall)
    as [_ Hstart]; [evaluate|].
  destruct Hstart as (Hpanic & Hwritten & Hstarted & _); [evaluate|].
  cbv zeta. repeat split; assumption.
Defined.

(** ** The new Task wizard *)

Section Trimming.

Lemma hasByte_app b x y : hasByte b (x +:+ y) = hasByte b x || hasByte b y.
Proof.
  induction x as [|c x IH]; [done|]. rewrite app_cons. cbn [hasByte].
  by rewrite IH, orb_assoc.
Qed.

Lemma hasByte_split b s :
  hasByte b s = true -> exists x y, s = x +:+ String b y.
Proof.
  induction s as [|c s IH]; [done|]. cbn [hasByte].
  destruct (Ascii.eqb c b) eqn:E.
  - apply Ascii.eqb_eq in E as ->. intros _. by exists "", s.
  - intros (x & y & ->)%IH. by exists (String c x), y.
Qed.

Lemma lastByte_app_cons x c : lastByte (x +:+ String c "") = Some c.
Proof.
  induction x as [|a x IH]; [done|]. rewrite app_cons.
  destruct x as [|a' x]; [done|]. rewrite app_cons in *. by cbn [lastByte] in *.
Qed.

Lemma TrimLeftSpace_suffix s : exists pre, s = pre +:+ TrimLeftSpace s.
Proof.
  remember (String.length s) as n eqn:Hn.
  assert (Hle : (String.length s <= n)%nat) by lia. clear Hn.
  revert s Hle. induction n as [|n IH]; intros s Hle.
  - destruct s; [by exists ""|cbn [String.length] in Hle; lia].
  - rewrite TrimLeftSpace_eq.
    destruct s as [|c1 r1]; [by exists ""|]. cbn [String.length] in Hle.
    destruct (isSpaceRune (String c1 "")).
    { destruct (IH r1) as [pre Hpre]; [lia|]. exists (String c1 pre).
      by rewrite app_cons, <- Hpre. }
    destruct r1 as [|c2 r2]; [by exists ""|]. cbn [String.length] in Hle.
    destruct (isSpaceRune (String c1 (String c2 ""))).
    { destruct (IH r2) as [pre Hpre]; [lia|]. exists (String c1 (String c2 pre)).
      by rewrite !app_cons, <- Hpre. }
    destruct r2 as [|c3 r3]; [by exists ""|]. cbn [String.length] in Hle.
    destruct (isSpaceRune _); [|by exists ""].
    destruct (IH r3) as [pre Hpre]; [lia|].
    exists (String c1 (String c2 (String c3 pre))). by rewrite !app_cons, <- Hpre.
Qed.

Lemma TrimRightSpace_prefix s : exists post, s = TrimRightSpace s +:+ post.
Proof.
  induction s as [|c r [post Hpost]]; [by exists ""|]. cbn [TrimRightSpace].
  destruct (isSpaceRune _); [by exists (String c r)|].
  exists post. by rewrite app_cons, <- Hpost.
Qed.

Lemma TrimRightSpace_last s b :
  lastByte (TrimRightSpace s) = Some b -> asciiSpace b = false.
Proof.
  induction s as [|c r IH]; [done|]. cbn [TrimRightSpace].
  destruct (isSpaceRune (String c (TrimRightSpace r))) eqn:E; [done|].
  destruct (TrimRightSpace r) as [|c' r'].
  - cbn [lastByte]. intros [= <-]. exact E.
  - exact IH.
Qed.

Lemma TrimRightSpace_idemp s : TrimRightSpace (TrimRightSpace s) = TrimRightSpace s.
Proof.
  induction s as [|c r IH]; [done|]. cbn [TrimRightSpace].
  destruct (isSpaceRune (String c (TrimRightSpace r))) eqn:E; [done|].
  cbn [TrimRightSpace]. by rewrite IH, E.
Qed.

Lemma TrimLeftSpace_fixed s :
  TrimLeftSpace s = s <->
  match s with
  | "" => True
  | String c1 r1 =>
      isSpaceRune (String c1 "") = false
      /\ match r1 with
         | "" => True
         | String c2 r2 =>
             isSpaceRune (String c1 (String c2 "")) = false
             /\ match r2 with
                | "" => True
                | String c3 r3 =>
                    isSpaceRune (String c1 (String c2 (String c3 ""))) = false
                end
         end
  end.
Proof.
  assert (Hshort : forall r c, TrimLeftSpace r <> String c r).
  { intros r c H. pose proof (TrimLeftSpace_length r) as Hlen.
    rewrite H in Hlen. cbn [String.length] in Hlen. lia. }
  assert (Hshort2 : forall r c d, TrimLeftSpace r <> String c (String d r)).
  { intros r c d H. pose proof (TrimLeftSpace_length r) as Hlen.
    rewrite H in Hlen. cbn [String.length] in Hlen. lia. }
  assert (Hshort3 : forall r c d e, TrimLeftSpace r <> String c (String d (String e r))).
  { intros r c d e H. pose proof (TrimLeftSpace_length r) as Hlen.
    rewrite H in Hlen. cbn [String.length] in Hlen. lia. }
  rewrite TrimLeftSpace_eq. destruct s as [|c1 r1]; [done|].
  destruct (isSpaceRune (String c1 "")).
  { split; [by intros ?%Hshort|by intros [? _]]. }
  destruct r1 as [|c2 r2]; [done|].
  destruct (isSpaceRune (String c1 (String c2 ""))).
  { split; [by intros ?%Hshort2|by intros (_ & ? & _)]. }
  destruct r2 as [|c3 r3]; [done|].
  destruct (isSpaceRune _).
  { split; [by intros ?%Hshort3|by intros (_ & _ & ?)]. }
  done.
Qed.

Lemma TrimLeftSpace_idemp s : TrimLeftSpace (TrimLeftSpace s) = TrimLeftSpace s.
Proof.
  remember (String.length s) as n eqn:Hn.
  assert (Hle : (String.length s <= n)%nat) by lia. clear Hn.
  revert s Hle. induction n as [|n IH]; intros s Hle.
  - destruct s; [done|cbn [String.length] in Hle; lia].
  - rewrite (TrimLeftSpace_eq s).
    destruct s as [|c1 r1]; [done|]. cbn [String.length] in Hle.
    destruct (isSpaceRune (String c1 "")) eqn:E1; [apply IH; lia|].
    destruct r1 as [|c2 r2]; [by apply TrimLeftSpace_fixed|].
    cbn [String.length] in Hle.
    destruct (isSpaceRune (String c1 (String c2 ""))) eqn:E2; [apply IH; lia|].
    destruct r2 as [|c3 r3]; [by apply TrimLeftSpace_fixed|].
    cbn [String.length] in Hle.
    destruct (isSpaceRune (String c1 (String c2 (String c3 "")))) eqn:E3;
      [apply IH; lia|by apply TrimLeftSpace_fixed].
Qed.

Lemma TrimLeftSpace_of_prefix u t post :
  TrimLeftSpace u = u -> u = t +:+ post -> TrimLeftSpace t = t.
Proof.
  intros Hu ->. apply TrimLeftSpace_fixed in Hu. apply TrimLeftSpace_fixed.
  destruct t as [|c1 [|c2 [|c3 t]]]; [done|..]; rewrite ?app_cons in Hu.
  - by destruct Hu.
  - destruct Hu as (? & ? & _). done.
  - done.
Qed.

Lemma TrimSpace_idemp s : TrimSpace (TrimSpace s) = TrimSpace s.
Proof.
  unfold TrimSpace. destruct (TrimRightSpace_prefix (TrimLeftSpace s)) as [post Hpost].
  rewrite (TrimLeftSpace_of_prefix _ _ _ (TrimLeftSpace_idemp s) Hpost).
  apply TrimRightSpace_idemp.
Qed.

Lemma TrimSpace_last s b : lastByte (TrimSpace s) = Some b -> asciiSpace b = false.
Proof. apply TrimRightSpace_last. Qed.

(** A line feed in a string that has one as its last byte at most. *)
Lemma final_LF_only text x y :
  hasByte LF text = false -> text +:+ newline = x +:+ String LF y -> y = "".
Proof.
  revert x. induction text as [|c text IH]; intros x; cbn [hasByte].
  - intros _. rewrite app_empty_l. destruct x as [|a x]; [by intros [= <-]|].
    rewrite app_cons. unfold newline. intros [= _ H]. by destruct x.
  - intros [Hc Htext]%orb_false_elim. rewrite app_cons.
    destruct x as [|a x].
    + rewrite app_empty_l. intros [= -> _]. by rewrite Ascii.eqb_refl in Hc.
    + rewrite app_cons. intros [= _ H]. by apply (IH x).
Qed.

Lemma TrimSpace_no_LF text line :
  line = text \/ line = text +:+ newline ->
  hasByte LF text = false ->
  hasByte LF (TrimSpace line) = false.
Proof.
  intros Hline Htext. destruct (hasByte LF (TrimSpace line)) eqn:E; [|done].
  exfalso. apply hasByte_split in E as (x & y & HT).
  destruct (TrimLeftSpace_suffix line) as [pre Hpre].
  destruct (TrimRightSpace_prefix (TrimLeftSpace line)) as [post Hpost].
  fold (TrimSpace line) in Hpost. rewrite Hpost, HT in Hpre.
  destruct y as [|d y].
  - pose proof (TrimSpace_last line LF) as Hlast.
    rewrite HT, lastByte_app_cons in Hlast. by specialize (Hlast eq_refl).
  - rewrite !app_assoc', app_cons, <- app_assoc' in Hpre.
    destruct Hline as [->| ->].
    + rewrite Hpre, hasByte_app in Htext. cbn [hasByte] in Htext.
      rewrite Ascii.eqb_refl, orb_true_r in Htext. done.
    + by apply final_LF_only in Hpre.
Qed.

End Trimming.

(** X15. What [getUserInput] returns for a line read up to its first
    line feed: the default when the line holds white space only;
    otherwise an answer that is not empty, holds no line feed, and that
    trimming leaves as it is, so that it neither starts nor ends with
    white space. *)
Theorem getUserInput_answer defaultValue text line :
  line = text \/ line = text +:+ newline ->
  hasByte LF text = false ->
  let answer := getUserInput defaultValue line in
  (TrimSpace line = "" /\ answer = defaultValue)
  \/ (answer = TrimSpace line /\ answer <> "" /\ hasByte LF answer = false
      /\ TrimSpace answer = answer
      /\ forall b, lastByte answer = Some b -> asciiSpace b = false).
Proof.
  intros Hline Htext. unfold getUserInput. cbn zeta.
  destruct (decide (TrimSpace line = "")) as [Hempty|Hanswer]; [by left|right].
  split; [done|]. split; [done|]. split; [by apply (TrimSpace_no_LF text)|].
  split; [apply TrimSpace_idemp|apply TrimSpace_last].
Qed.

Lemma getUserInput_answer_witness :
  getUserInput "Task abc" ("  Nightly backup " +:+ String CR newline) = "Nightly backup"
  /\ hasByte LF (getUserInput "Task abc" ("  Nightly backup " +:+ String CR newline))
     = false.
Proof.
  destruct (getUserInput_answer "Task abc" ("  Nightly backup " +:+ String CR "")
              ("  Nightly backup " +:+ String CR newline))
    as [[Hempty _]|(Hanswer & _ & HLF & _)].
  - by right.
  - reflexivity.
  - by vm_compute in Hempty.
  - split; [by vm_compute|exact HLF].
Defined.

Section Wizard.

Variable hashPassword : string -> option string.

Lemma lastByte_app x y : y <> "" -> lastByte (x +:+ y) = lastByte y.
Proof.
  intros Hy. induction x as [|c x IH]; [done|]. rewrite app_cons.
  cbn [lastByte]. destruct (x +:+ y) eqn:E; [|done].
  destruct x; [by rewrite app_empty_l in E|by rewrite app_cons in E].
Qed.

Lemma dropCR_id s : (forall b, lastByte s = Some b -> b <> CR) -> dropCR s = s.
Proof.
  induction s as [|c s IH]; [done|]. intros Hlast. destruct s as [|d s].
  - cbn [dropCR]. destruct (Ascii.eqb c CR) eqn:E; [|done].
    apply Ascii.eqb_eq in E. by destruct (Hlast c eq_refl).
  - change (dropCR (String c (String d s))) with (String c (dropCR (String d s))).
    by rewrite IH.
Qed.

Lemma scannable_Forall (P : string -> Prop) lines :
  Forall P lines -> Forall P (scannable lines).
Proof.
  induction 1 as [|l lines Hl _ IH]; [constructor|]. cbn [scannable].
  destruct (_ <? _)%N; by constructor.
Qed.

(** A line [key: value] of the config, for an answer as value. *)
Lemma configLine_dropCR key v :
  answered v -> dropCR (key +:+ ": " +:+ v) = key +:+ ": " +:+ v.
Proof.
  intros [_ Htrim]. apply dropCR_id. intros b.
  destruct v as [|c v].
  - rewrite app_empty_r, lastByte_app by done. by intros [= <-].
  - rewrite !lastByte_app by done. rewrite <- Htrim. intros Hb%TrimSpace_last.
    by intros ->.
Qed.

Lemma configLine_no_LF key v :
  hasByte LF key = false -> answered v -> hasByte LF (key +:+ ": " +:+ v) = false.
Proof. intros Hkey [Hv _]. by rewrite !hasByte_app, Hkey, Hv. Qed.

Lemma configLine_colon key v : hasByte ":" (key +:+ ": " +:+ v) = true.
Proof. rewrite !hasByte_app. cbn [hasByte Ascii.eqb]. by rewrite orb_true_r. Qed.

Lemma configLine_entry key v taskDetails lines :
  hasByte ":" key = false -> TrimSpace key = key -> answered v ->
  readConfig ((key +:+ ": " +:+ v) :: lines) taskDetails
  = readConfig lines (<[key := v]> taskDetails).
Proof.
  intros Hkey Htrim [_ Hv]. cbn [readConfig].
  change (key +:+ ": " +:+ v) with (key +:+ String ":" (spaces 1 +:+ v)).
  rewrite (SplitN_at_sep _ _ _ Hkey), Htrim. unfold TrimSpace at 1.
  rewrite TrimLeftSpace_spaces. fold (TrimSpace v). by rewrite Hv.
Qed.

Lemma Split_line a rest :
  hasByte LF a = false -> Split (a +:+ String LF rest) LF = a :: Split rest LF.
Proof. apply Split_at_sep. Qed.

Lemma Split_three a b c :
  hasByte LF a = false -> hasByte LF b = false -> hasByte LF c = false ->
  Split ((a +:+ String LF b) +:+ String LF c) LF = [a; b; c].
Proof.
  intros Ha Hb Hc. rewrite app_assoc'.
  change (String LF b +:+ String LF c) with (String LF (b +:+ String LF c)).
  by rewrite (Split_at_sep _ _ _ Ha), (Split_at_sep _ _ _ Hb), (Split_without_sep _ _ Hc).
Qed.

Lemma newTaskConfig_rawLines title secret public command :
  answered title -> answered public -> answered command ->
  answered (storedSecret hashPassword secret) ->
  rawLines (newTaskConfig hashPassword title secret public command)
  = configLines hashPassword title secret public command.
Proof.
  intros Ht Hp Hc Hs.
  assert (Hlast : forall lines,
            match last (lines ++ ["command" +:+ ": " +:+ command]) with
            | Some "" => removelast (lines ++ ["command" +:+ ": " +:+ command])
            | _ => lines ++ ["command" +:+ ": " +:+ command]
            end = lines ++ ["command" +:+ ": " +:+ command]).
  { intros lines. by rewrite last_snoc. }
  assert (Hrest : Split ((("title: " +:+ title) +:+ String LF ("public: " +:+ public))
                         +:+ String LF ("command: " +:+ command)) LF
                  = ["title" +:+ ": " +:+ title; "public" +:+ ": " +:+ public;
                     "command" +:+ ": " +:+ command]).
  { apply (Split_three ("title" +:+ ": " +:+ title) ("public" +:+ ": " +:+ public)
             ("command" +:+ ": " +:+ command)); by apply configLine_no_LF. }
  set (body := (("title: " +:+ title) +:+ String LF ("public: " +:+ public))
               +:+ String LF ("command: " +:+ command)) in *.
  assert (Hbody : forall o,
            (((((o +:+ "title: ") +:+ title) +:+ String LF "public: ") +:+ public)
             +:+ String LF "command: ") +:+ command = o +:+ body).
  { intros o. subst body.
    repeat (rewrite app_cons || rewrite app_empty_l || rewrite app_assoc').
    reflexivity. }
  unfold rawLines, newTaskConfig, configLines, storedSecret in *. cbn zeta.
  rewrite Hbody.
  destruct (decide (secret <> "")) as [Hsecret|Hsecret];
    [destruct (hashPassword secret) as [h|]|]; rewrite ?app_empty_l.
  - cbn [default from_option id] in Hs.
    rewrite app_assoc'. change (newline +:+ body) with (String LF body).
    rewrite Split_line by by apply (configLine_no_LF "secret").
    rewrite Hrest.
    apply (Hlast ["secret" +:+ ": " +:+ h; "title" +:+ ": " +:+ title;
                  "public" +:+ ": " +:+ public]).
  - rewrite Hrest.
    apply (Hlast ["title" +:+ ": " +:+ title; "public" +:+ ": " +:+ public]).
  - rewrite Hrest.
    apply (Hlast ["title" +:+ ": " +:+ title; "public" +:+ ": " +:+ public]).
Qed.

Lemma configLines_colon title secret public command :
  Forall (fun text => hasByte ":" text = true)
         (configLines hashPassword title secret public command).
Proof.
  unfold configLines. apply Forall_app. split.
  - destruct (decide _); [destruct (hashPassword secret)|];
      repeat constructor; apply configLine_colon.
  - repeat constructor; apply configLine_colon.
Qed.

End Wizard.

Lemma newTaskConfig_details hashPassword fs newTaskID
    newTaskTitle newTaskSecret newTaskPublic newTaskCommand :
  answered newTaskTitle -> answered newTaskPublic -> answered newTaskCommand ->
  answered (storedSecret hashPassword newTaskSecret) ->
  fs !! configPath newTaskID
  = Some (Readable (newTaskConfig hashPassword newTaskTitle newTaskSecret
                      newTaskPublic newTaskCommand)) ->
  Forall (fun l => (N.of_nat (String.length l) < MaxScanTokenSize)%N)
         (rawLines (newTaskConfig hashPassword newTaskTitle newTaskSecret
                      newTaskPublic newTaskCommand)) ->
  exists taskDetails,
    getTaskDetails fs newTaskID = Returned (taskDetails, None)
    /\ taskDetails !! "title" = Some newTaskTitle
    /\ taskDetails !! "public" = Some newTaskPublic
    /\ taskDetails !! "command" = Some newTaskCommand
    /\ taskDetails !! "secret" = Some (storedSecret hashPassword newTaskSecret)
    /\ taskDetails !! "taskID" = Some newTaskID
    /\ taskDetails !! "ratelimit" = Some "0"
    /\ taskDetails !! "progress" = Some "N".
Proof.
  intros Ht Hp Hc Hs Hfile. unfold getTaskDetails. rewrite Hfile. unfold scanLines.
  rewrite (newTaskConfig_rawLines _ _ _ _ _ Ht Hp Hc Hs).
  intros Hshort. rewrite (scannable_short _ Hshort). clear Hshort Hfile.
  unfold configLines, storedSecret in *.
  destruct (decide (newTaskSecret <> "")) as [Hsecret|Hsecret];
    [destruct (hashPassword newTaskSecret) as [h|]|];
    cbn [default from_option id] in Hs; cbn [app fmap list_fmap];
    rewrite ?configLine_dropCR by done;
    rewrite !configLine_entry by done; cbn [readConfig];
    eexists; (split; [reflexivity|]); by vm_compute.
Qed.

(** X16. The config file the [-new] option writes is always read back:
    whatever answers [getUserInput] returned for the title, the secret,
    the public flag and the command, and whether or not the secret was
    hashed, [getTaskDetails] on the new Task returns without error and
    without panic. When no line of the file reaches the scanner's limit
    the details hold the title, the public flag and the command as they
    were answered and the hash as the secret; the secret is empty when
    none was typed, and also when hashing failed. *)
Theorem new_task_config_is_read_back hashPassword fs newTaskID
    newTaskTitle newTaskSecret newTaskPublic newTaskCommand :
  answered newTaskTitle -> answered newTaskPublic -> answered newTaskCommand ->
  answered (storedSecret hashPassword newTaskSecret) ->
  fs !! configPath newTaskID
  = Some (Readable (newTaskConfig hashPassword newTaskTitle newTaskSecret
                      newTaskPublic newTaskCommand)) ->
  (exists taskDetails, getTaskDetails fs newTaskID = Returned (taskDetails, None))
  /\ (Forall (fun l => (N.of_nat (String.length l) < MaxScanTokenSize)%N)
             (rawLines (newTaskConfig hashPassword newTaskTitle newTaskSecret
                          newTaskPublic newTaskCommand)) ->
      exists taskDetails,
        getTaskDetails fs newTaskID = Returned (taskDetails, None)
        /\ taskDetails !! "title" = Some newTaskTitle
        /\ taskDetails !! "public" = Some newTaskPublic
        /\ taskDetails !! "command" = Some newTaskCommand
        /\ taskDetails !! "secret" = Some (storedSecret hashPassword newTaskSecret)
        /\ taskDetails !! "taskID" = Some newTaskID
        /\ taskDetails !! "ratelimit" = Some "0"
        /\ taskDetails !! "progress" = Some "N")
  /\ (newTaskSecret = "" \/ hashPassword newTaskSecret = None ->
      storedSecret hashPassword newTaskSecret = "").
Proof.
  intros Ht Hp Hc Hs Hfile. split; [|split].
  - unfold getTaskDetails. rewrite Hfile. unfold scanLines.
    rewrite (newTaskConfig_rawLines _ _ _ _ _ Ht Hp Hc Hs).
    destruct (proj2 (readConfig_returns
                       (dropCR <$> scannable (configLines hashPassword newTaskTitle
                                                newTaskSecret newTaskPublic
                                                newTaskCommand))
                       (defaultDetails newTaskID))) as [d ->]; [|by exists d].
    apply Forall_colon_dropCR, scannable_Forall, configLines_colon.
  - by apply newTaskConfig_details.
  - unfold storedSecret. intros [->| ->]; by destruct (decide _).
Qed.

Lemma new_task_config_is_read_back_witness :
  exists taskDetails,
    getTaskDetails wizardFiles "abc" = Returned (taskDetails, None)
    /\ taskDetails !! "title" = Some "Nightly backup"
    /\ taskDetails !! "public" = Some "Y"
    /\ taskDetails !! "command" = Some "backup.sh --all"
    /\ taskDetails !! "secret"
       = Some "$2a$14$abcdefghijklmnopqrstuuABCDEFGHIJKLMNOPQRSTUVWXYZ01234".
Proof.
  destruct (new_task_config_is_read_back fixedHash wizardFiles "abc"
              "Nightly backup" "s3cret" "Y" "backup.sh --all")
    as (_ & Hread & _).
  - split; vm_compute; reflexivity.
  - split; vm_compute; reflexivity.
  - split; vm_compute; reflexivity.
  - split; vm_compute; reflexivity.
  - vm_compute; reflexivity.
  - destruct Hread as (taskDetails & Hdetails & Ht & Hp & Hc & Hs & _).
    + apply (bool_decide_unpack _). by vm_compute.
    + exists taskDetails. repeat split; assumption.
Defined.

(** X17. Who may run a Task the [-new] option has made, when the call
    carries no token. With a secret typed and hashed, exactly the secrets
    that bcrypt accepts against the stored hash. With no secret typed the
    Task is open to the empty secret and to no other; and so it is when
    hashing the typed secret failed: the error is printed and the config
    is written without a secret line. *)
Theorem new_task_secret bcryptMatches hashPassword fs newTaskID
    newTaskTitle newTaskSecret newTaskPublic newTaskCommand toks provided :
  answered newTaskTitle -> answered newTaskPublic -> answered newTaskCommand ->
  answered (storedSecret hashPassword newTaskSecret) ->
  fs !! configPath newTaskID
  = Some (Readable (newTaskConfig hashPassword newTaskTitle newTaskSecret
                      newTaskPublic newTaskCommand)) ->
  Forall (fun l => (N.of_nat (String.length l) < MaxScanTokenSize)%N)
         (rawLines (newTaskConfig hashPassword newTaskTitle newTaskSecret
                      newTaskPublic newTaskCommand)) ->
  exists taskDetails,
    getTaskDetails fs newTaskID = Returned (taskDetails, None)
    /\ (newTaskSecret = "" \/ hashPassword newTaskSecret = None ->
        (authorise bcryptMatches toks "" provided taskDetails = Authorised
         <-> provided = ""))
    /\ (forall hashedPassword,
          newTaskSecret <> "" -> hashPassword newTaskSecret = Some hashedPassword ->
          hashedPassword <> "" ->
          (authorise bcryptMatches toks "" provided taskDetails = Authorised
           <-> CompareHashAndPassword bcryptMatches hashedPassword provided = true)).
Proof.
  intros Ht Hp Hc Hs Hfile Hshort.
  destruct (newTaskConfig_details _ _ _ _ _ _ _ Ht Hp Hc Hs Hfile Hshort)
    as (taskDetails & Hdetails & _ & _ & _ & Hsecret & _).
  exists taskDetails. split; [done|].
  assert (Hauth : forall stored,
            taskDetails !! "secret" = Some stored ->
            authorise bcryptMatches toks "" provided taskDetails = Authorised
            <-> checkPasswordHash bcryptMatches provided stored = true).
  { intros stored Hstored. unfold authorise, stringAt. rewrite Hstored.
    cbn [default from_option id]. destruct (decide ("" <> "")) as [?|_]; [done|].
    by destruct (checkPasswordHash _ _ _). }
  split.
  - intros Hnone. rewrite (Hauth _ Hsecret).
    replace (storedSecret hashPassword newTaskSecret) with "".
    + apply checkPasswordHash_no_secret.
    + unfold storedSecret. destruct Hnone as [->| ->]; by destruct (decide _).
  - intros h Htyped Hhash Hh. rewrite (Hauth _ Hsecret).
    unfold storedSecret. rewrite Hhash. destruct (decide _); [|done].
    cbn [default from_option id]. rewrite checkPasswordHash_spec.
    split; [intros [?|[_ ?]]; done|by left].
Qed.

Lemma new_task_secret_witness :
  exists taskDetails,
    getTaskDetails wizardFiles "abc" = Returned (taskDetails, None)
    /\ (authorise anyMatch ∅ "" "s3cret" taskDetails = Authorised
        <-> CompareHashAndPassword anyMatch
              "$2a$14$abcdefghijklmnopqrstuuABCDEFGHIJKLMNOPQRSTUVWXYZ01234" "s3cret"
            = true).
Proof.
  destruct (new_task_secret anyMatch fixedHash wizardFiles "abc"
              "Nightly backup" "s3cret" "Y" "backup.sh --all" ∅ "s3cret")
    as (taskDetails & Hdetails & _ & Hhashed).
  - split; vm_compute; reflexivity.
  - split; vm_compute; reflexivity.
  - split; vm_compute; reflexivity.
  - split; vm_compute; reflexivity.
  - vm_compute; reflexivity.
  - apply (bool_decide_unpack _). by vm_compute.
  - exists taskDetails. split; [assumption|].
    apply Hhashed; [discriminate|reflexivity|discriminate].
Defined.

(** ** The command line *)

Section CommandLine.

Lemma tail_tail_key argKey key :
  HasPrefix argKey "--" = true -> tail (tail argKey) = key -> argKey = "--" +:+ key.
Proof.
  destruct argKey as [|a [|b rest]]; cbn [HasPrefix tail andb]; try done.
  - by rewrite andb_false_r.
  - intros [Ha [Hb _]%andb_prop]%andb_prop <-.
    by apply Ascii.eqb_eq in Ha as ->, Hb as ->.
Qed.

(** A key no argument names keeps its value through the loop. *)
Lemma parseArguments_other key osArgs : forall currentArgKey arguments,
  "--" +:+ key ∉ osArgs ->
  currentArgKey = "" \/ (HasPrefix currentArgKey "--" = true
                         /\ currentArgKey <> "--" +:+ key) ->
  parseArguments osArgs currentArgKey arguments !! key = arguments !! key.
Proof.
  induction osArgs as [|argVal rest IH]; intros currentArgKey arguments Hno Hkey;
    [done|]. cbn [parseArguments].
  apply not_elem_of_cons in Hno as [Hne Hno].
  destruct (HasPrefix argVal "--") eqn:Hprefix.
  - apply (IH _ _ Hno). right. by split.
  - rewrite (IH _ _ Hno) by by left.
    destruct (decide (currentArgKey <> "")) as [Hset|_]; [|done].
    destruct Hkey as [->|[Hp Hk]]; [done|].
    apply lookup_insert_ne. intros Heq. by apply Hk, tail_tail_key.
Qed.

End CommandLine.

(** X18. What the command line makes [main] do, when it names neither
    [--start] nor [--config]. Called with the program name alone it
    starts the web server. With anything after the program name it never
    starts the server, whatever other options and values are given: it
    lists the Tasks when the first argument is [-list], makes a new Task
    when it is [-new], and otherwise does nothing. With an empty
    argument vector it panics. *)
Theorem main_action loadConfig osArgs :
  "--start" ∉ osArgs -> "--config" ∉ osArgs ->
  mainAction loadConfig osArgs
  = match osArgs with
    | [] => Panicked "index out of range [1] with length 0"
    | [_] => Returned StartServer
    | _ :: argVal :: _ =>
        if decide (argVal = "-list") then Returned ListTasks
        else if decide (argVal = "-new") then Returned NewTask
        else Returned NoAction
    end.
Proof.
  intros Hstart Hconfig. unfold mainAction.
  rewrite (parseArguments_other "config" osArgs "" _ Hconfig) by by left.
  assert (Hs : stringAt (parseArguments osArgs "" (defaultArguments osArgs)) "start"
               = stringAt (defaultArguments osArgs) "start").
  { unfold stringAt. by rewrite (parseArguments_other "start" osArgs "" _ Hstart) by by left. }
  replace (defaultArguments osArgs !! "config") with (@None string)
    by (unfold defaultArguments; by destruct (decide _)).
  rewrite Hs. unfold defaultArguments.
  destruct osArgs as [|program [|argVal rest]]; by vm_compute.
Qed.

Lemma main_action_witness :
  mainAction (fun _ arguments => Returned arguments) ["webconsole"; "-list"; "--port"; "80"]
  = Returned ListTasks.
Proof.
  rewrite (main_action (fun _ arguments => Returned arguments)
             ["webconsole"; "-list"; "--port"; "80"]).
  - reflexivity.
  - apply (bool_decide_unpack _). by vm_compute.
  - apply (bool_decide_unpack _). by vm_compute.
Defined.

(** ** A run among the other goroutines *)

Section Interleaving.

Variable bcryptMatches : string -> string -> bool.
Variable floatPercentage : Z -> Z -> Z.

Lemma app_inj_last x y c d :
  x +:+ String c "" = y +:+ String d "" -> x = y /\ c = d.
Proof.
  revert y. induction x as [|a x IH]; intros [|b y]; rewrite ?app_cons, ?app_empty_l.
  - by intros [= ->].
  - intros [= _ H]. by destruct y.
  - intros [= _ H]. by destruct x.
  - intros [= -> H]. by destruct (IH _ H) as [-> ->].
Qed.

(** The history file of a Task is never the config file of one. *)
Lemma paths_differ a b : runTimesPath a <> configPath b.
Proof.
  unfold runTimesPath, configPath. intros H.
  assert (H' : ("tasks/" +:+ a +:+ "/runTime") +:+ "s.txt"
               = ("tasks/" +:+ b +:+ "/confi") +:+ "g.txt").
  { by rewrite !app_assoc'. }
  clear H. revert H'.
  generalize ("tasks/" +:+ a +:+ "/runTime") ("tasks/" +:+ b +:+ "/confi").
  intros x y H.
  change "s.txt" with ("s" +:+ "." +:+ "t" +:+ "x" +:+ "t") in H.
  change "g.txt" with ("g" +:+ "." +:+ "t" +:+ "x" +:+ "t") in H.
  rewrite <- !app_assoc' in H.
  apply app_inj_last in H as [H _]. apply app_inj_last in H as [H _].
  apply app_inj_last in H as [H _]. apply app_inj_last in H as [H _].
  by apply app_inj_last in H as [_ ?].
Qed.

Lemma getTaskDetails_ext fs fs' theTaskID :
  fs' !! configPath theTaskID = fs !! configPath theTaskID ->
  getTaskDetails fs' theTaskID = getTaskDetails fs theTaskID.
Proof. unfold getTaskDetails. by intros ->. Qed.

Lemma run_app turns1 turns2 : forall s,
  run bcryptMatches floatPercentage s (turns1 ++ turns2)
  = match run bcryptMatches floatPercentage s turns1 with
    | Some s1 => run bcryptMatches floatPercentage s1 turns2
    | None => None
    end.
Proof.
  induction turns1 as [|t turns1 IH]; intros s; cbn [app run]; [done|].
  by destruct (advance bcryptMatches floatPercentage s t).
Qed.

(** A request appends to the buffer of a Task at most one line, a
    progress line, and only when the Task's config asks for progress
    reports. *)
Lemma apiGetTaskOutput_outputs env taskID line taskDetails s theTaskID :
  exists extra,
    linesAt (taskOutputs
               (after (apiGetTaskOutput floatPercentage env taskID line taskDetails s)))
            theTaskID
    = linesAt (taskOutputs s) theTaskID ++ extra
    /\ (extra = []
        \/ (exists percentage, extra = [progressLine percentage])
           /\ taskID = theTaskID /\ stringAt taskDetails "progress" = "Y").
Proof.
  unfold apiGetTaskOutput.
  destruct (if decide (line <> "") then _ else _) as [n w].
  destruct (decide (stringAt taskDetails "progress" = "Y")) as [Hy|Hn].
  - destruct (decide (taskID = theTaskID)) as [->|Hne].
    + eexists. split; [|right; split; [by eexists|done]].
      destruct (decide (_ /\ _)); fields; by rewrite linesAt_insert.
    + exists []. rewrite app_nil_r. split; [|by left].
      destruct (decide (_ /\ _)); fields; unfold linesAt;
        by rewrite lookup_insert_ne.
  - exists []. rewrite app_nil_r. split; [|by left]. by destruct (decide (_ /\ _)).
Qed.

Lemma apiRunTask_outputs env taskID taskDetails rateLimit s :
  taskOutputs (after (apiRunTask env taskID taskDetails rateLimit s)) = taskOutputs s.
Proof.
  unfold apiRunTask. destruct (taskIsRunning taskID s); [done|].
  destruct (decide _); [done|]. destruct (_ !! 0%nat); [|done].
  cbn. by destruct (files s !! _) as [[?|]|].
Qed.

Lemma dispatch_outputs env req token taskDetails rateLimit s theTaskID :
  exists extra,
    linesAt (taskOutputs
               (after (dispatch floatPercentage env req token taskDetails rateLimit s)))
            theTaskID
    = linesAt (taskOutputs s) theTaskID ++ extra
    /\ (extra = []
        \/ (exists percentage, extra = [progressLine percentage])
           /\ taskIDValue req = theTaskID /\ stringAt taskDetails "progress" = "Y").
Proof.
  assert (Hsame : forall s', taskOutputs s' = taskOutputs s ->
            exists extra,
              linesAt (taskOutputs s') theTaskID = linesAt (taskOutputs s) theTaskID ++ extra
              /\ (extra = []
                  \/ (exists percentage, extra = [progressLine percentage])
                     /\ taskIDValue req = theTaskID
                     /\ stringAt taskDetails "progress" = "Y")).
  { intros s' ->. exists []. rewrite app_nil_r. split; [done|by left]. }
  unfold dispatch.
  repeat match goal with
    | |- context [if ?b then _ else _] =>
        lazymatch b with
        | HasPrefix _ _ || HasPrefix _ _ => destruct b
        | HasPrefix _ _ => destruct b
        end
    end; try (by apply Hsame).
  - apply Hsame. by destruct (files s !! _) as [[?|]|].
  - apply Hsame, apiRunTask_outputs.
  - apply apiGetTaskOutput_outputs.
Qed.

Lemma handler_outputs env req s theTaskID :
  exists extra,
    linesAt (taskOutputs (after (handler bcryptMatches floatPercentage env req s)))
            theTaskID
    = linesAt (taskOutputs s) theTaskID ++ extra
    /\ (extra = []
        \/ (exists percentage, extra = [progressLine percentage])
           /\ exists taskDetails,
                getTaskDetails (files s) theTaskID = Returned (taskDetails, None)
                /\ stringAt taskDetails "progress" = "Y").
Proof.
  assert (Hsame : exists extra,
            linesAt (taskOutputs s) theTaskID = linesAt (taskOutputs s) theTaskID ++ extra
            /\ (extra = []
                \/ (exists percentage, extra = [progressLine percentage])
                   /\ exists taskDetails,
                        getTaskDetails (files s) theTaskID = Returned (taskDetails, None)
                        /\ stringAt taskDetails "progress" = "Y")).
  { exists []. rewrite app_nil_r. split; [done|by left]. }
  destruct (taskPath (URLPath req)) eqn:Hroute.
  2:{ by rewrite (proj1 (handler_elsewhere _ _ _ _ _ Hroute)). }
  rewrite (handler_taskRequest _ _ _ _ _ Hroute). unfold taskRequest.
  destruct (decide _); [done|].
  destruct (getTaskDetails (files s) (taskIDValue req)) as [[d [err|]]|msg] eqn:Hd;
    try done.
  destruct (authorise _ _ _ _ _); [|done].
  destruct (dispatch_outputs env req (sessionToken env (tokenValue req)) d
              (rateLimitOf d)
              (set_tokens (<[sessionToken env (tokenValue req) := currentTimestamp env]>) s)
              theTaskID) as (extra & Hout & Hextra).
  exists extra. split; [done|].
  destruct Hextra as [->|(Hp & <- & Hy)]; [by left|right].
  split; [done|]. by exists d.
Qed.

(** A step of another Task's goroutine leaves a Task's entry in the
    running set, its buffer and its config file alone. *)
Lemma runTaskStep_other taskID st s s' theTaskID :
  taskID <> theTaskID ->
  runTaskStep taskID st s = Returned s' ->
  runningTasks s' !! theTaskID = runningTasks s !! theTaskID
  /\ linesAt (taskOutputs s') theTaskID = linesAt (taskOutputs s) theTaskID
  /\ files s' !! configPath theTaskID = files s !! configPath theTaskID.
Proof.
  intros Hne. destruct st as [result|line|stop saved]; cbn [runTaskStep].
  - fields. destruct (runningTasks s !! taskID); intros [= <-]; fields.
    unfold linesAt. by rewrite lookup_insert_ne.
  - intros [= <-]. fields. unfold linesAt. by rewrite lookup_insert_ne.
  - intros [= <-]. unfold finishTask. destruct saved; fields;
      rewrite ?lookup_delete_ne by done; repeat split; try done.
    apply lookup_insert_ne, paths_differ.
Qed.

(** Through turns in which the goroutine of a Task only appends [lines],
    the Task stays in the running set, its config file stays as it is,
    and its buffer grows by [lines], in order, and by progress lines of
    polls, and by nothing else. *)
Lemma run_appends theTaskID cmd turns : forall s s' lines,
  ownSteps theTaskID turns = Appends <$> lines ->
  runningTasks s !! theTaskID = Some cmd ->
  run bcryptMatches floatPercentage s turns = Some s' ->
  runningTasks s' !! theTaskID = Some cmd
  /\ files s' !! configPath theTaskID = files s !! configPath theTaskID
  /\ exists rest,
       linesAt (taskOutputs s') theTaskID = linesAt (taskOutputs s) theTaskID ++ rest
       /\ sublist lines rest
       /\ Forall (fun l => l ∈ lines \/ isProgress l) rest
       /\ ((forall taskDetails,
              getTaskDetails (files s) theTaskID = Returned (taskDetails, None) ->
              stringAt taskDetails "progress" <> "Y") ->
           rest = lines).
Proof.
  induction turns as [|t turns IH]; intros s s' lines Hown Hrun; cbn [run].
  - intros [= <-]. destruct lines; [|done]. split; [done|]. split; [done|].
    exists []. by rewrite app_nil_r.
  - destruct (advance bcryptMatches floatPercentage s t) as [s1|] eqn:Hstep; [|done].
    intros Hrest. destruct t as [env req|clock|taskID st]; cbn [advance] in Hstep.
    + injection Hstep as <-.
      pose proof (handler_keeps bcryptMatches floatPercentage env req s)
        as (Hfiles & _ & _ & Hkeep).
      destruct (IH _ _ lines Hown (Hkeep _ _ Hrun) Hrest)
        as (Hrun' & Hconfig & rest & Hout & Hsub & Hall & Hquiet).
      split; [done|]. split; [by rewrite Hconfig, Hfiles|].
      destruct (handler_outputs env req s theTaskID) as (extra & Hextra & Hcase).
      exists (extra ++ rest). rewrite Hout, Hextra, <- app_assoc.
      split; [done|]. split; [by apply sublist_inserts_l|]. split.
      * apply Forall_app. split; [|done].
        destruct Hcase as [->|[[p ->] _]]; [done|].
        constructor; [right; by exists p|done].
      * intros Hno. rewrite Hfiles in Hquiet. rewrite (Hquiet Hno).
        destruct Hcase as [->|(_ & d & Hd & Hy)]; [done|]. by destruct (Hno d Hd).
    + injection Hstep as <-.
      by apply (IH (set_tokens (sweepTokens clock) s) s' lines Hown Hrun Hrest).
    + destruct (runTaskStep taskID st s) as [s2|] eqn:Hst; [|done].
      injection Hstep as <-. cbn [ownSteps omap list_omap] in Hown.
      fold (ownSteps theTaskID turns) in Hown.
      destruct (decide (taskID = theTaskID)) as [->|Hne].
      * destruct lines as [|line lines]; [done|]. cbn [fmap list_fmap] in Hown.
        injection Hown as -> Hown. cbn [runTaskStep] in Hst. injection Hst as <-.
        match type of Hrest with
        | run _ _ ?s1 _ = _ =>
            destruct (IH s1 s' lines Hown Hrun Hrest)
              as (Hrun' & Hconfig & rest & Hout & Hsub & Hall & Hquiet)
        end.
        split; [done|]. split; [done|]. exists (line :: rest).
        rewrite Hout. fields. rewrite linesAt_insert, <- app_assoc.
        split; [done|]. split; [by apply sublist_skip|]. split.
        -- constructor; [left; by left|].
           eapply Forall_impl; [exact Hall|]. intros l [Hin|Hp]; [left; by right|by right].
        -- intros Hno. by rewrite (Hquiet Hno).
      * destruct (runTaskStep_other _ _ _ _ theTaskID Hne Hst) as (Hr & Ho & Hc).
        rewrite <- Hr in Hrun.
        destruct (IH _ _ lines Hown Hrun Hrest)
          as (Hrun' & Hconfig & rest & Hout & Hsub & Hall & Hquiet).
        split; [done|]. split; [by rewrite Hconfig|]. exists rest.
        rewrite Hout, Ho. split; [done|]. split; [done|]. split; [done|].
        intros Hno. apply Hquiet. intros d Hd. apply (Hno d).
        by rewrite <- (getTaskDetails_ext _ _ _ Hc).
Qed.

(** Turns without a spawn never end the program. *)
Lemma run_returns turns : forall s,
  Forall (fun t => forall taskID result, t <> Runs taskID (Spawns result)) turns ->
  is_Some (run bcryptMatches floatPercentage s turns).
Proof.
  induction turns as [|t turns IH]; intros s Hno; cbn [run]; [done|].
  apply Forall_cons in Hno as [Ht Hno].
  destruct t as [env req|clock|taskID [result|line|stop saved]]; cbn [advance runTaskStep];
    try apply IH; try done.
  by destruct (Ht taskID result).
Qed.

(** The first step of a goroutine in a sequence of turns, and the turns
    before and after it. *)
Lemma ownSteps_first theTaskID turns : forall st sts,
  ownSteps theTaskID turns = st :: sts ->
  exists before after,
    turns = before ++ Runs theTaskID st :: after
    /\ ownSteps theTaskID before = []
    /\ ownSteps theTaskID after = sts.
Proof.
  induction turns as [|t turns IH]; intros st sts; [done|].
  cbn [ownSteps omap list_omap]. fold (ownSteps theTaskID turns).
  destruct t as [env req|clock|taskID st'].
  - intros (before & after & -> & Hb & Ha)%IH.
    by exists (Handles env req :: before), after.
  - intros (before & after & -> & Hb & Ha)%IH.
    by exists (Sweeps clock :: before), after.
  - destruct (decide (taskID = theTaskID)) as [->|Hne] eqn:E.
    + intros [= -> <-]. by exists [], turns.
    + intros (before & after & -> & Hb & Ha)%IH.
      exists (Runs taskID st' :: before), after. split; [done|]. split; [|done].
      cbn [ownSteps omap list_omap]. by rewrite E.
Qed.

Lemma ownSteps_app theTaskID turns1 turns2 :
  ownSteps theTaskID (turns1 ++ turns2)
  = ownSteps theTaskID turns1 ++ ownSteps theTaskID turns2.
Proof. apply omap_app. Qed.

Lemma ownSteps_no_spawn theTaskID turns lines :
  ownSteps theTaskID turns = Appends <$> lines ->
  (forall taskID result, Runs taskID (Spawns result) ∈ turns -> taskID = theTaskID) ->
  Forall (fun t => forall taskID result, t <> Runs taskID (Spawns result)) turns.
Proof.
  revert lines. induction turns as [|t turns IH]; intros lines Hown Honly; [constructor|].
  cbn [ownSteps omap list_omap] in Hown. fold (ownSteps theTaskID turns) in Hown.
  assert (Hrest : forall taskID result,
            Runs taskID (Spawns result) ∈ turns -> taskID = theTaskID).
  { intros taskID result Hin. apply (Honly taskID result). by right. }
  destruct t as [env req|clock|taskID st].
  - constructor; [done|by apply (IH lines)].
  - constructor; [done|by apply (IH lines)].
  - destruct (decide (taskID = theTaskID)) as [->|Hne].
    + destruct lines as [|line lines]; [done|]. injection Hown as -> Hown.
      constructor; [done|by apply (IH lines)].
    + constructor; [|by apply (IH lines)].
      intros taskID' result [= -> ->]. apply Hne, (Honly taskID' result). by left.
Qed.

Lemma progressLine_spec percentage :
  TrimSpace (progressLine percentage) <> ""
  /\ hasByte LF (progressLine percentage) = false.
Proof.
  unfold progressLine. split.
  - unfold TrimSpace. rewrite <- app_assoc'.
    change ("Progress: Progress " +:+ FormatInt percentage)
      with (String "P" ("rogress: Progress " +:+ FormatInt percentage)).
    rewrite app_cons, TrimLeftSpace_graphic by done. rewrite <- app_cons.
    by rewrite TrimRightSpace_graphic.
  - by rewrite !hasByte_app, FormatInt_no_LF.
Qed.

(** Run alone, the steps of a goroutine are [runTask]. *)
Lemma appends_alone theTaskID lines : forall output s,
  run bcryptMatches floatPercentage (set_taskOutputs (<[theTaskID := output]>) s)
    (Runs theTaskID <$> (Appends <$> lines))
  = Some (set_taskOutputs (<[theTaskID := output ++ lines]>) s).
Proof.
  induction lines as [|line lines IH]; intros output s;
    cbn [fmap list_fmap run advance runTaskStep].
  - by rewrite app_nil_r.
  - replace (output ++ line :: lines) with ((output ++ [line]) ++ lines)
      by (by rewrite <- app_assoc).
    rewrite <- (IH (output ++ [line]) s). f_equal. fields.
    by rewrite linesAt_insert, insert_insert_eq.
Qed.

Lemma captures_alone theTaskID chunks : forall output s,
  foldl (fun s chunk =>
           set_taskOutputs
             (<[theTaskID := captureOutput chunk (linesAt (taskOutputs s) theTaskID)]>) s)
        (set_taskOutputs (<[theTaskID := output]>) s) chunks
  = set_taskOutputs (<[theTaskID := output ++ capturedLines chunks]>) s.
Proof.
  induction chunks as [|chunk chunks IH]; intros output s; cbn [foldl].
  - cbn. by rewrite app_nil_r.
  - change (capturedLines (chunk :: chunks))
      with (keptLines chunk ++ capturedLines chunks).
    rewrite (app_assoc output), <- (IH (output ++ keptLines chunk) s). f_equal.
    fields. by rewrite linesAt_insert, insert_insert_eq.
Qed.

Lemma runTask_alone theTaskID e s :
  run bcryptMatches floatPercentage s (Runs theTaskID <$> goroutine e)
  = match runTask theTaskID e s with
    | Returned s' => Some s'
    | Panicked _ => None
    end.
Proof.
  unfold goroutine, runTask. rewrite fmap_cons. cbn [run advance runTaskStep].
  change (runningTasks (set_taskOutputs _ s)) with (runningTasks s).
  destruct (runningTasks s !! theTaskID); [|done].
  destruct (spawn e); try done.
  rewrite fmap_app, run_app, appends_alone, captures_alone.
  reflexivity.
Qed.

End Interleaving.

(** X8. A run that is spawned and reaches the end of the process's
    output, its steps interleaved in any way with requests, sweeper
    turns and the steps of other Tasks' goroutines, leaves in the Task's
    buffer the lines it kept of the chunks it read, in order, and
    nothing of an earlier run; the only other lines among them are the
    progress lines that polls appended during the run, and there is none
    when the Task's config does not ask for progress reports. Each line
    has a character that is not white space and holds no line feed. When
    the run closes the Task is out of the running set, its stop time is
    the time the output ended, and [runTimes.txt], when it could be
    written, holds the history kept in memory, one number per line. The
    run completes whenever no other goroutine is spawned meanwhile, and
    run without interleaving its steps amount to [runTask]. *)
Theorem completed_run_state bcryptMatches floatPercentage theTaskID e s cmd turns :
  runningTasks s !! theTaskID = Some cmd ->
  spawn e = Started ->
  ownSteps theTaskID turns = goroutine e ->
  last turns = Some (Runs theTaskID (Finishes (stopTimestamp e) (historySaved e))) ->
  ((forall taskID result, Runs taskID (Spawns result) ∈ turns -> taskID = theTaskID) ->
   is_Some (run bcryptMatches floatPercentage s turns))
  /\ (forall s',
        run bcryptMatches floatPercentage s turns = Some s' ->
        sublist (capturedLines (reads e)) (linesAt (taskOutputs s') theTaskID)
        /\ Forall (fun l => l ∈ capturedLines (reads e) \/ isProgress l)
                  (linesAt (taskOutputs s') theTaskID)
        /\ ((forall taskDetails,
               getTaskDetails (files s) theTaskID = Returned (taskDetails, None) ->
               stringAt taskDetails "progress" <> "Y") ->
            linesAt (taskOutputs s') theTaskID = capturedLines (reads e))
        /\ Forall (fun l => TrimSpace l <> "" /\ hasByte LF l = false)
                  (linesAt (taskOutputs s') theTaskID)
        /\ taskIsRunning theTaskID s' = false
        /\ taskStopTimes s' !! theTaskID = Some (stopTimestamp e)
        /\ (historySaved e = true ->
            files s' !! runTimesPath theTaskID
            = Some (Readable (formatRunTimes (linesAt (taskRunTimes s') theTaskID)))))
  /\ run bcryptMatches floatPercentage s (Runs theTaskID <$> goroutine e)
     = match runTask theTaskID e s with
       | Returned s' => Some s'
       | Panicked _ => None
       end.
Proof.
  intros Hcmd Hspawn Hown Hlast.
  split; [|split; [|apply runTask_alone]].
  all: apply last_Some in Hlast as [pre ->].
  all: rewrite ownSteps_app in Hown; unfold goroutine in Hown; rewrite Hspawn in Hown.
  all: cbn [ownSteps omap list_omap] in Hown.
  all: destruct (decide (theTaskID = theTaskID)) as [_|?]; [|done].
  all: change (?a :: ?l ++ [?b]) with ((a :: l) ++ [b]) in Hown.
  all: apply app_inj_tail in Hown as [Hown _].
  all: apply ownSteps_first in Hown as (before & after & -> & Hbefore & Hafter).
  all: change (ownSteps theTaskID before = Appends <$> []) in Hbefore.
  - intros Honly. rewrite <- app_assoc, !run_app. cbn [app].
    assert (Hin : forall t, t ∈ before \/ t ∈ after ->
                    t ∈ (before ++ Runs theTaskID (Spawns Started) :: after)
                        ++ [Runs theTaskID (Finishes (stopTimestamp e) (historySaved e))]).
    { intros t [Hin|Hin]; apply elem_of_app; left; apply elem_of_app;
        [by left|right; by right]. }
    destruct (run_returns bcryptMatches floatPercentage before s) as [s0 Hs0].
    { apply (ownSteps_no_spawn theTaskID _ [] Hbefore).
      intros taskID result Ht. apply (Honly taskID result), Hin. by left. }
    rewrite Hs0.
    destruct (run_appends bcryptMatches floatPercentage theTaskID cmd before s s0 []
                Hbefore Hcmd Hs0) as (Hrun0 & _).
    cbn [run advance runTaskStep].
    change (runningTasks (set_taskOutputs _ s0)) with (runningTasks s0).
    rewrite Hrun0, run_app.
    destruct (run_returns bcryptMatches floatPercentage after
                (set_taskOutputs (<[theTaskID := []]>) s0)) as [s1 Hs1].
    { apply (ownSteps_no_spawn theTaskID _ _ Hafter).
      intros taskID result Ht. apply (Honly taskID result), Hin. by right. }
    by rewrite Hs1.
  - intros s'. rewrite <- app_assoc, !run_app. cbn [app].
    destruct (run bcryptMatches floatPercentage s before) as [s0|] eqn:Hs0; [|done].
    destruct (run_appends bcryptMatches floatPercentage theTaskID cmd before s s0 []
                Hbefore Hcmd Hs0) as (Hrun0 & Hconfig0 & _).
    cbn [run advance runTaskStep].
    change (runningTasks (set_taskOutputs _ s0)) with (runningTasks s0).
    rewrite Hrun0, run_app.
    destruct (run bcryptMatches floatPercentage
                (set_taskOutputs (<[theTaskID := []]>) s0) after) as [s1|] eqn:Hs1;
      [|done].
    destruct (run_appends bcryptMatches floatPercentage theTaskID cmd after
                (set_taskOutputs (<[theTaskID := []]>) s0) s1
                (capturedLines (reads e)) Hafter Hrun0 Hs1)
      as (Hrun1 & Hconfig1 & rest & Hout & Hsub & Hall & Hquiet).
    fields. rewrite linesAt_insert in Hout. cbn [app] in Hout.
    cbn [run advance runTaskStep]. intros [= <-].
    match goal with
    | |- context [finishTask theTaskID ?e' s1] =>
        destruct (finishTask_fields theTaskID e' s1) as (Hfout & Hstop & _ & Hfile & _)
    end.
    rewrite Hfout, Hout. split; [done|]. split; [done|]. split.
    { intros Hno. apply Hquiet. intros d Hd. apply (Hno d).
      by rewrite <- (getTaskDetails_ext _ _ _ Hconfig0). }
    split.
    { eapply Forall_impl; [exact Hall|]. intros l [Hin|[p ->]].
      - by apply (proj1 (Forall_forall _ _) (capturedLines_spec (reads e))).
      - apply progressLine_spec. }
    split.
    { unfold taskIsRunning, finishTask. destruct (historySaved e); fields;
        by rewrite lookup_delete_eq. }
    split; [done|]. exact Hfile.
Qed.

Lemma completed_run_state_witness :
  let e := mkExecution Started ["one" +:+ newline +:+ " " +:+ newline +:+ "two"] 1010 true in
  let s' := default runningJob (run noMatch wholePercentage runningJob polledRun) in
  linesAt (taskOutputs s') "job" = ["one"; "Progress: Progress 20%"; "two"]
  /\ sublist ["one"; "two"] (linesAt (taskOutputs s') "job")
  /\ taskIsRunning "job" s' = false.
Proof.
  intros e s'.
  destruct (completed_run_state noMatch wholePercentage "job" e runningJob
              (mkCmd "sleep" ["sleep"; "60"] "tasks/job") polledRun)
    as (_ & Hrun & _); [evaluate..|].
  destruct (Hrun s') as (Hsub & _ & _ & _ & Hidle & _).
  { apply run_defined, (bool_decide_unpack _). by vm_compute. }
  split; [evaluate|]. split; [exact Hsub|exact Hidle].
Defined.
